(** * QuantScanner: the swing-filter pipeline and the scan orchestrator

    A shallow embedding of [src/swing_filter.py] (class [SwingFilter]) and of
    the pipeline part of [src/orchestrator.py] ([Orchestrator.run_scan]),
    with the properties the specification states about them.

    Conventions of the embedding.
    - Python dictionaries whose iteration order plays no role (gate result
      records, rationale dictionaries, the OHLCV batch) are [gmap]s; the
      sector/universe metadata, whose _first value_ is inspected by the
      pipeline, is an insertion-ordered association list.
    - Prices, the ATR and the trade levels computed from them are IEEE 754
      binary64 numbers ([float64], round to nearest even), as Python's
      [float]; the numbers a gate stores in its result record are only
      carried along, never computed with, and are kept as rationals ([Q]).
    - A Python exception is a value [Raise e] of the result type [res].
    - The gate classes ([gates/gate1_spread.py] ...), the chart engine and
      the [ta] ATR indicator are not part of the embedded sources: they are
      parameters of the development. *)

From Stdlib Require Import QArith Qround Qabs Lqa Ascii String SpecFloat.
From stdpp Require Import gmap strings list fin_maps.

Local Open Scope string_scope.
Local Open Scope list_scope.

(** ** Python values *)

(** Primitive values stored in result records and metadata. *)
Inductive pyval : Type :=
| VNone
| VBool (b : bool)
| VNum (q : Q)
| VStr (s : string).

(** A gate's result record for one instrument: a plain dictionary such as
    [{"passed": False, "reason": "...", "adx": 8.2}]. *)
Abbreviation result_dict := (gmap string pyval).

(** What a ticker's slot of the rationale trail holds under a key: a gate's
    result record under the gate's name, or the string written under
    ["status"] by the watchlist tagging. *)
Inductive entry : Type :=
| EResult (r : result_dict)
| EStatus (s : string).

Abbreviation trail := (gmap string (gmap string entry)).

(** A value of the sector map / universe: the legacy format maps a ticker to
    a plain value (its sector name), the institutional format to a
    dictionary [{"name": ..., "market_cap": ..., "sector": ...}]. *)
Inductive meta : Type :=
| MVal (v : pyval)
| MDict (d : gmap string pyval).

Abbreviation metamap := (list (string * meta)).

(** ** Exceptions *)

Inductive exn : Type :=
| KeyError
| IndexError
| TypeError
| AttributeError
| ZeroDivisionError
| OtherError (msg : string).

Inductive res (A : Type) : Type :=
| Ok (a : A)
| Raise (e : exn).
Arguments Ok {A} a.
Arguments Raise {A} e.

#[global] Instance res_ret : MRet res := λ A a, Ok a.
#[global] Instance res_bind : MBind res := λ A B f m,
  match m with
  | Ok a => f a
  | Raise e => Raise e
  end.

#[global] Instance res_fmap : FMap res := λ A B f m,
  match m with
  | Ok a => Ok (f a)
  | Raise e => Raise e
  end.

(** ** Insertion-ordered dictionaries *)

Fixpoint dict_get {V : Type} (d : list (string * V)) (k : string) : option V :=
  match d with
  | [] => None
  | (k', v) :: d' => if String.eqb k' k then Some v else dict_get d' k
  end.

(** [d[k] = v]: an existing key keeps its position, a new key goes last. *)
Fixpoint dict_set {V : Type} (d : list (string * V)) (k : string) (v : V)
  : list (string * V) :=
  match d with
  | [] => [(k, v)]
  | (k', v') :: d' =>
      if String.eqb k' k then (k', v) :: d' else (k', v') :: dict_set d' k v
  end.

(** ** Strings *)

(** [needle in s] for two Python strings. *)
Fixpoint str_in (needle s : string) : bool :=
  String.prefix needle s ||
  match s with
  | EmptyString => false
  | String _ s' => str_in needle s'
  end.

(** [needle in v] where [v] is any value: only a string is a container. *)
Definition py_in (needle : string) (v : pyval) : res bool :=
  match v with
  | VStr s => Ok (str_in needle s)
  | _ => Raise TypeError
  end.

(** Truthiness of a value, as used by [pattern or '']. *)
Definition truthy (v : pyval) : bool :=
  match v with
  | VNone => false
  | VBool b => b
  | VNum q => negb (Qeq_bool q 0)
  | VStr s => negb (String.eqb s "")
  end.

(** ** SwingFilter._log_gate_results *)

(** [for ticker, result in gate_results.items(): ...] *)
Definition _log_gate_results (main_log : trail) (gate_name : string)
    (gate_results : gmap string result_dict) : trail :=
  map_fold
    (λ ticker result main_log,
       let main_log :=
         match main_log !! ticker with
         | Some _ => main_log
         | None => <[ticker := ∅]> main_log
         end in
       alter (λ slot, <[gate_name := EResult result]> slot) ticker main_log)
    main_log gate_results.

(** ** Floating-point numbers

    The prices of a [DataFrame], the ATR and the trade levels are IEEE 754
    binary64 numbers, as NumPy's [float64] and Python's [float] are.  They
    are modelled by the Standard Library's specification of binary
    floating-point arithmetic at a precision of 53 bits: an operation
    returns its exact result rounded to the nearest representable number,
    ties to even. *)
Abbreviation float64 := spec_float.

Definition prec : Z := 53.
Definition emax : Z := 1024.

Definition fadd : float64 → float64 → float64 := SFadd prec emax.
Definition fsub : float64 → float64 → float64 := SFsub prec emax.
Definition fmul : float64 → float64 → float64 := SFmul prec emax.
Definition fdiv : float64 → float64 → float64 := SFdiv prec emax.

(** [float(z)] for an integer [z]. *)
Definition float_of_Z (z : Z) : float64 := binary_normalize prec emax z 0 false.

(** The float that a decimal literal with the value [n]/[d] denotes: the
    representable number nearest to it ([250.35] is [decimal 25035 100]). *)
Definition decimal (n : Z) (d : positive) : float64 :=
  fdiv (float_of_Z n) (float_of_Z (Z.pos d)).

(** The exact value of a finite number. *)
Definition float_value (x : float64) : option Q :=
  match x with
  | S754_zero _ => Some 0%Q
  | S754_finite s m e =>
      Some ((if s then -1 else 1) * inject_Z (Z.pos m) * 2 ^ e)%Q
  | _ => None
  end.

(** Positive or negative zero. *)
Definition is_zero (x : float64) : bool :=
  match x with
  | S754_zero _ => true
  | _ => false
  end.

(** Neither an infinity nor NaN. *)
Definition is_finite (x : float64) : bool :=
  match x with
  | S754_zero _ | S754_finite _ _ _ => true
  | _ => false
  end.

(** ** OHLCV data *)

Record bar : Type := Bar {
  Open : float64;
  High : float64;
  Low : float64;
  Close : float64;
  Volume : float64 }.

(** A ticker's [DataFrame]: its daily rows in chronological order. *)
Abbreviation DataFrame := (list bar).

(** [{t: ticker_data[t] for t in tickers}]; a ticker that is not a key of
    [ticker_data] raises [KeyError]. *)
Fixpoint select_data (ticker_data : gmap string DataFrame) (tickers : list string)
  : res (gmap string DataFrame) :=
  match tickers with
  | [] => Ok ∅
  | t :: tickers' =>
      match ticker_data !! t with
      | None => Raise KeyError
      | Some df => d ← select_data ticker_data tickers'; Ok (<[t := df]> d)
      end
  end.

(** ** Gate invocations

    The pipeline's observable effect besides its return value is the
    sequence of calls it makes to the gates.  Each call is recorded with the
    set of instruments handed to the gate and with what the gate returned. *)

Inductive stage : Type := Gate1 | Gate2 | Gate2B | Gate3 | Gate4.

#[global] Instance stage_eq_dec : EqDecision stage.
Proof. solve_decision. Defined.

Abbreviation gate_output := (list string * gmap string result_dict)%type.

Record gate_call : Type := GateCall {
  gc_stage : stage;
  gc_input : gset string;
  gc_passed : list string;
  gc_results : gmap string result_dict }.

(** Computations that call gates and may raise. *)
Definition M (A : Type) : Type := list gate_call → list gate_call * res A.

#[global] Instance M_ret : MRet M := λ A a calls, (calls, Ok a).
#[global] Instance M_bind : MBind M := λ A B f m calls,
  match m calls with
  | (calls', Ok a) => f a calls'
  | (calls', Raise e) => (calls', Raise e)
  end.

Definition lift {A : Type} (r : res A) : M A := λ calls, (calls, r).

(** A gate called on a list of tickers. *)
Definition call_on_list (st : stage) (run : list string → gate_output)
    (tickers : list string) : M gate_output := λ calls,
  let out := run tickers in
  (calls ++ [GateCall st (list_to_set tickers) out.1 out.2], Ok out).

(** A gate called on a [{ticker: DataFrame}] dictionary. *)
Definition call_on_data (st : stage) (run : gmap string DataFrame → gate_output)
    (data : gmap string DataFrame) : M gate_output := λ calls,
  let out := run data in
  (calls ++ [GateCall st (dom data) out.1 out.2], Ok out).

(** The key under which [run_pipeline] files a gate's results. *)
Definition gate_name (st : stage) : string :=
  match st with
  | Gate1 => "Gate1_Spread"
  | Gate2 => "Gate2_Fundamentals"
  | Gate2B => "Gate2B_Institutional"
  | Gate3 => "Gate3_Technicals"
  | Gate4 => "Gate4_Execution"
  end.

Definition stage_order : list stage := [Gate1; Gate2; Gate2B; Gate3; Gate4].

(** [for x in xs: state = body(state, x)], stopping at the first exception. *)
Fixpoint for_each {A S : Type} (body : S → A → res S) (s : S) (xs : list A) : res S :=
  match xs with
  | [] => Ok s
  | x :: xs' => s' ← body s x; for_each body s' xs'
  end.

(** ** SwingFilter.run_pipeline *)

(** An entry of the coiling-spring watchlist. *)
Record spring : Type := Spring {
  sp_ticker : string;
  sp_close : pyval;
  sp_sector : pyval;
  sp_reason : pyval;
  sp_f_score : pyval;
  sp_mrs : pyval;
  sp_market_cap : meta;
  sp_inst_ownership : pyval }.

(** [sector_map and isinstance(list(sector_map.values())[0], dict)] *)
Definition institutional_format (sector_map : option metamap) : bool :=
  match sector_map with
  | Some ((_, MDict _) :: _) => true
  | _ => false
  end.

(** The body of [for ticker, meta in sector_map.items()] (lines 69-71). *)
Definition cap_step (mcm : metamap) '((ticker, m) : string * meta) : metamap :=
  match m with
  | MDict d =>
      dict_set mcm ticker (MVal (default (VStr "SMALL") (d !! "market_cap")))
  | MVal _ => mcm
  end.

(** The [market_cap_map] handed to Gate 2B (lines 66-74). *)
Definition market_cap_map (sector_map : option metamap) (passed_g2 : list string)
  : metamap :=
  if institutional_format sector_map then
    foldl cap_step [] (default [] sector_map)
  else
    foldl (λ mcm t, dict_set mcm t (MVal (VStr "SMALL"))) [] passed_g2.

(** ["ADX" in reason or "RS Slope" in reason or "RS Negative" in reason] *)
Definition is_sniper_fail (reason : pyval) : res bool :=
  a ← py_in "ADX" reason;
  if a : bool then Ok true else
  b ← py_in "RS Slope" reason;
  if b : bool then Ok true else
  py_in "RS Negative" reason.

(** The body of the watchlist loop (lines 92-126), on the pair of the
    watchlist and the rationale trail it updates. *)
Definition coiling_body (passed_g3 : list string)
    (rationale_g1 rationale_g2 rationale_g2b rationale_g3 : gmap string result_dict)
    (mcm : metamap) (st : list spring * trail) (ticker : string)
  : res (list spring * trail) :=
  let '(coiling_springs, full_rationale) := st in
  if bool_decide (ticker ∈ passed_g3) then Ok st else
  let g3_res := default ∅ (rationale_g3 !! ticker) in
  let reason := default (VStr "") (g3_res !! "reason") in
  sniper ← is_sniper_fail reason;
  if sniper : bool then
    let g2_res := default ∅ (rationale_g2 !! ticker) in
    let g2b_res := default ∅ (rationale_g2b !! ticker) in
    let g1_res := default ∅ (rationale_g1 !! ticker) in
    let cap_category := default (MVal (VStr "UNKNOWN")) (dict_get mcm ticker) in
    Ok (coiling_springs ++
          [Spring ticker
             (default (VNum 0) (g3_res !! "close"))
             (default (VStr "Unknown") (g1_res !! "sector"))
             reason
             (default (VNum 0) (g2_res !! "f_score"))
             (default (VNum 0) (g3_res !! "mrs"))
             cap_category
             (default (VNum 0) (g2b_res !! "inst_ownership"))],
        alter (λ slot, <["status" := EStatus "COILING_SPRING"]> slot)
              ticker full_rationale)
  else Ok st.

Section SwingFilter.

(** The [run] methods of the five gate objects. *)
Variable gate1_run : gmap string DataFrame → option metamap → gate_output.
Variable gate2_run : list string → gate_output.
Variable gate2b_run : list string → metamap → gate_output.
Variable gate3_run : gmap string DataFrame → gate_output.
Variable gate4_run : gmap string DataFrame → gate_output.

Definition run_pipeline (ticker_data : gmap string DataFrame)
    (sector_map : option metamap) : M (list string * trail * list spring) :=
  let full_rationale : trail := ∅ in
  '(passed_g1, rationale_g1) ←
    call_on_data Gate1 (λ d, gate1_run d sector_map) ticker_data;
  let full_rationale := _log_gate_results full_rationale "Gate1_Spread" rationale_g1 in
  match passed_g1 with [] => mret ([], full_rationale, []) | _ :: _ =>
  data_g1 ← lift (select_data ticker_data passed_g1);
  '(passed_g2, rationale_g2) ← call_on_list Gate2 gate2_run passed_g1;
  let full_rationale :=
    _log_gate_results full_rationale "Gate2_Fundamentals" rationale_g2 in
  match passed_g2 with [] => mret ([], full_rationale, []) | _ :: _ =>
  let mcm := market_cap_map sector_map passed_g2 in
  '(passed_g2b, rationale_g2b) ←
    call_on_list Gate2B (λ l, gate2b_run l mcm) passed_g2;
  let full_rationale :=
    _log_gate_results full_rationale "Gate2B_Institutional" rationale_g2b in
  match passed_g2b with [] => mret ([], full_rationale, []) | _ :: _ =>
  data_g2b ← lift (select_data ticker_data passed_g2b);
  '(passed_g3, rationale_g3) ← call_on_data Gate3 gate3_run data_g2b;
  let full_rationale :=
    _log_gate_results full_rationale "Gate3_Technicals" rationale_g3 in
  '(coiling_springs, full_rationale) ←
    lift (for_each
            (coiling_body passed_g3 rationale_g1 rationale_g2 rationale_g2b
               rationale_g3 mcm)
            ([], full_rationale) passed_g2b);
  match passed_g3 with [] => mret ([], full_rationale, coiling_springs) | _ :: _ =>
  data_g3 ← lift (select_data ticker_data passed_g3);
  '(passed_g4, rationale_g4) ← call_on_data Gate4 gate4_run data_g3;
  let full_rationale :=
    _log_gate_results full_rationale "Gate4_Execution" rationale_g4 in
  mret (passed_g4, full_rationale, coiling_springs)
  end end end end.

End SwingFilter.

(** ** Orchestrator.run_scan: trade metadata *)

(** [round(x)] to the nearest integer, ties to the even one. *)
Definition round_half_even (q : Q) : Z :=
  let f := Qfloor q in
  match (q - inject_Z f ?= 1 # 2)%Q with
  | Lt => f
  | Gt => (f + 1)%Z
  | Eq => if Z.even f then f else (f + 1)%Z
  end.

(** The float nearest to [k] hundredths; zero hundredths keep the sign of
    the number that was rounded. *)
Definition cents (negative : bool) (k : Z) : float64 :=
  match k with
  | Z0 => S754_zero negative
  | Zpos p => SFdiv prec emax (S754_finite false p 0) (S754_finite false 100 0)
  | Zneg p => SFdiv prec emax (S754_finite true p 0) (S754_finite false 100 0)
  end.

(** [round(float(x), 2)]: a finite number is rounded, on its exact value,
    to the nearest multiple of 0.01, ties to the even one, and the result
    is the float nearest to that decimal; zeros, infinities and NaN round
    to themselves. *)
Definition round2 (x : float64) : float64 :=
  match x, float_value x with
  | S754_finite s _ _, Some q => cents s (round_half_even (q * 100))
  | _, _ => x
  end.

(** [df['Close'].iloc[-1]]; an empty frame raises [IndexError]. *)
Definition last_close (df : DataFrame) : res float64 :=
  match last df with
  | Some row => Ok (Close row)
  | None => Raise IndexError
  end.

(** Lines 118-120: the stop, the risk and the target from the entry price
    and the ATR. *)
Definition trade_levels (entry atr : float64) : float64 * float64 * float64 :=
  let sl := fsub entry (fmul (float_of_Z 2) atr) in
  let risk := fsub entry sl in
  let target := fadd entry (fmul (float_of_Z 2) risk) in
  (sl, risk, target).

Record trade_meta : Type := TradeMeta {
  tm_entry : float64;
  tm_sl : float64;
  tm_target : float64;
  tm_period : string;
  tm_risk_reward : string }.

Definition SWING : string := "Swing (2-6 Weeks)".
Definition POSITIONAL : string := "Positional (1-3 Months)".

(** [pattern or ''] *)
Definition or_empty (pattern : pyval) : pyval :=
  if truthy pattern then pattern else VStr "".

(** Line 123. *)
Definition holding_period (pattern : pyval) : res string :=
  vcp ← py_in "VCP" (or_empty pattern);
  Ok (if vcp : bool then SWING else POSITIONAL).

(** [meta.get(key, dflt)]; a metadata value that is not a dictionary has no
    [get]. *)
Definition meta_get (m : meta) (key : string) (dflt : pyval) : res pyval :=
  match m with
  | MDict d => Ok (default dflt (d !! key))
  | MVal _ => Raise AttributeError
  end.

Record candidate : Type := Candidate {
  c_ticker : string;
  c_status : string;
  c_name : pyval;
  c_cap : pyval;
  c_sector : pyval;
  c_adx : pyval;
  c_mrs : pyval;
  c_mrs_slope : pyval;
  c_pattern : pyval;
  c_reason : pyval;
  c_trade : trade_meta;
  c_charts : pyval * pyval * pyval }.

(** The body of the tagging loop (lines 94-99). *)
Definition tag_coiling (finds : list string) (g3_rationale : gmap string result_dict)
    (ticker : string) : gmap string result_dict :=
  if bool_decide (ticker ∈ finds) then g3_rationale else
  match g3_rationale !! ticker with
  | Some r => <[ticker := <["status" := VStr "COILING_SPRING"]> r]> g3_rationale
  | None =>
      <[ticker := <["passed" := VBool false]>
                  (<["status" := VStr "COILING_SPRING"]>
                   (<["reason" := VStr "Technical filters not met"]> ∅))]>
        g3_rationale
  end.

(** [{**a, **b}]: the keys of [b] take [b]'s values. *)
Definition dict_merge {V : Type} (a b : gmap string V) : gmap string V := b ∪ a.

(** What [run_scan] leaves behind: the list it returns and, when it got that
    far, the arguments of [save_snapshot]. *)
Record scan_out : Type := ScanOut {
  so_results : list candidate;
  so_snapshot : option (list candidate * gmap string result_dict) }.

Section Orchestrator.

Variable gate1_run : gmap string DataFrame → option metamap → gate_output.
Variable gate2_run : list string → gate_output.
Variable gate2b_run : list string → metamap → gate_output.
Variable gate3_run : gmap string DataFrame → gate_output.

(** [ta.volatility.AverageTrueRange(..., window=w).average_true_range().iloc[-1]] *)
Variable average_true_range : nat → DataFrame → res float64.

(** [ChartEngine.generate_trade_chart(ticker, df, trade_meta, pattern_info,
    timeframe)] *)
Variable generate_trade_chart :
  string → DataFrame → trade_meta → pyval → string → res pyval.

(** The [try] block of the results loop (lines 109-155) for one ticker. *)
Definition post_process (ticker_data : gmap string DataFrame) (universe : metamap)
    (finds : list string) (g3_rationale : gmap string result_dict)
    (ticker : string) : res candidate :=
  df ← match ticker_data !! ticker with
       | Some df => Ok df
       | None => Raise KeyError
       end;
  let meta := default (MDict ∅) (dict_get universe ticker) in
  let rat := default ∅ (g3_rationale !! ticker) in
  entry ← last_close df;
  atr ← average_true_range 14 df;
  let '(sl, risk, target) := trade_levels entry atr in
  let pattern := default (VStr "") (rat !! "pattern") in
  period ← holding_period pattern;
  let trade :=
    TradeMeta (round2 entry) (round2 sl) (round2 target) period "1:2" in
  chart_daily ← generate_trade_chart ticker df trade pattern "1D";
  chart_weekly ← generate_trade_chart ticker df trade pattern "1W";
  chart_monthly ← generate_trade_chart ticker df trade pattern "1M";
  name ← meta_get meta "name" (VStr "Unknown");
  cap ← meta_get meta "market_cap" (VStr "SMALL");
  sector ← meta_get meta "sector" (VStr "Diversified");
  Ok (Candidate ticker
        (if bool_decide (ticker ∈ finds) then "BUY" else "COILING_SPRING")
        name cap sector
        (default VNone (rat !! "adx"))
        (default VNone (rat !! "mrs"))
        (default VNone (rat !! "mrs_slope"))
        pattern
        (default (VStr "Consolidating") (rat !! "reason"))
        trade
        (chart_daily, chart_weekly, chart_monthly)).

(** The results loop: an exception in the [try] block is logged and the
    loop goes on to the next ticker. *)
Fixpoint collect_results (ticker_data : gmap string DataFrame) (universe : metamap)
    (finds : list string) (g3_rationale : gmap string result_dict)
    (tickers : list string) : list candidate :=
  match tickers with
  | [] => []
  | ticker :: tickers' =>
      match post_process ticker_data universe finds g3_rationale ticker with
      | Ok c =>
          c :: collect_results ticker_data universe finds g3_rationale tickers'
      | Raise _ =>
          collect_results ticker_data universe finds g3_rationale tickers'
      end
  end.

(** [run_scan] from "3. Pipeline Execution" on: the batch and the universe
    have been fetched. *)
Definition run_scan (ticker_data : gmap string DataFrame) (universe : metamap)
  : M scan_out :=
  '(g1_passed, g1_rationale) ←
    call_on_data Gate1 (λ d, gate1_run d (Some universe)) ticker_data;
  match g1_passed with [] => mret (ScanOut [] None) | _ :: _ =>
  '(g2_passed, g2_rationale) ← call_on_list Gate2 gate2_run g1_passed;
  '(g2b_passed, g2b_rationale) ←
    call_on_list Gate2B (λ l, gate2b_run l universe) g2_passed;
  match g2b_passed with [] => mret (ScanOut [] None) | _ :: _ =>
  g3_data ← lift (select_data ticker_data g2b_passed);
  '(finds, g3_rationale) ← call_on_data Gate3 gate3_run g3_data;
  let g3_rationale := foldl (tag_coiling finds) g3_rationale g2b_passed in
  let results :=
    collect_results ticker_data universe finds g3_rationale g2b_passed in
  let all_rationale :=
    dict_merge (dict_merge (dict_merge g1_rationale g2_rationale) g2b_rationale)
      g3_rationale in
  mret (ScanOut results (Some (results, all_rationale)))
  end end.

End Orchestrator.

(** ** The gates, as far as the specification fixes them *)

(** [result["passed"]] is [True]. *)
Definition passed (r : result_dict) : bool :=
  match r !! "passed" with
  | Some (VBool true) => true
  | _ => false
  end.

(** Modelled from the spec: the [run] methods of the gate classes
    ([gates/gate1_spread.py], [gate2_fundamentals.py], [gate2_institutional.py],
    [gate3_technicals.py], [gate4_execution.py]) are missing from the
    sources.  By sections 2, 3 and 9 of the specification a gate is a
    function from the instruments it is handed to a new survivor set plus
    result records: it creates one record per instrument it evaluates and
    lets through those whose record has [passed] set, so that it only ever
    narrows the set it received.  The evaluation of one instrument, [eval],
    stays a parameter. *)
Definition spec_gate (eval : string → result_dict) (tickers : list string)
  : gate_output :=
  (filter (λ t, passed (eval t)) tickers,
   list_to_map ((λ t, (t, eval t)) <$> tickers)).

(** The keys of a batch, in the order the gate iterates over them. *)
Definition batch_keys (data : gmap string DataFrame) : list string :=
  (map_to_list data).*1.

Module SpecGates.
Section Evaluations.

(** Per-instrument evaluations; Gate 1's may look at the whole batch (its
    sector statistics), Gate 2B's at the cap-tier table. *)
Variable eval1 : gmap string DataFrame → option metamap → string → result_dict.
Variable eval2 : string → result_dict.
Variable eval2b : metamap → string → result_dict.
Variable eval3 : gmap string DataFrame → string → result_dict.
Variable eval4 : gmap string DataFrame → string → result_dict.

Definition gate1_run (data : gmap string DataFrame) (sector_map : option metamap)
  : gate_output := spec_gate (eval1 data sector_map) (batch_keys data).
Definition gate2_run (tickers : list string) : gate_output :=
  spec_gate eval2 tickers.
Definition gate2b_run (tickers : list string) (mcm : metamap) : gate_output :=
  spec_gate (eval2b mcm) tickers.
Definition gate3_run (data : gmap string DataFrame) : gate_output :=
  spec_gate (eval3 data) (batch_keys data).
Definition gate4_run (data : gmap string DataFrame) : gate_output :=
  spec_gate (eval4 data) (batch_keys data).

End Evaluations.
End SpecGates.

(** Modelled from the spec: the result record of the data model (section
    3), which the gate classes ([gates/*.py], missing from the sources)
    create once per instrument and gate: [passed], the named metrics, and a
    human-readable [reason] string that is always populated. *)
Record GateResult : Type := {
  gr_passed : bool;
  gr_metrics : gmap string pyval;
  gr_reason : string }.

(** The record as the plain mapping of primitives the pipeline handles. *)
Definition gate_result_dict (g : GateResult) : result_dict :=
  <["passed" := VBool (gr_passed g)]>
    (<["reason" := VStr (gr_reason g)]> (gr_metrics g)).

(** Modelled from the spec: the five gates as filters that evaluate every
    instrument they are handed into a [GateResult]. *)
Module TypedGates.
Section Evaluations.

Variable eval1 : gmap string DataFrame → option metamap → string → GateResult.
Variable eval2 : string → GateResult.
Variable eval2b : metamap → string → GateResult.
Variable eval3 : gmap string DataFrame → string → GateResult.
Variable eval4 : gmap string DataFrame → string → GateResult.

Definition gate1_run : gmap string DataFrame → option metamap → gate_output :=
  SpecGates.gate1_run (λ data sector_map t, gate_result_dict (eval1 data sector_map t)).
Definition gate2_run : list string → gate_output :=
  SpecGates.gate2_run (λ t, gate_result_dict (eval2 t)).
Definition gate2b_run : list string → metamap → gate_output :=
  SpecGates.gate2b_run (λ mcm t, gate_result_dict (eval2b mcm t)).
Definition gate3_run : gmap string DataFrame → gate_output :=
  SpecGates.gate3_run (λ data t, gate_result_dict (eval3 data t)).
Definition gate4_run : gmap string DataFrame → gate_output :=
  SpecGates.gate4_run (λ data t, gate_result_dict (eval4 data t)).

End Evaluations.
End TypedGates.

(** ** A worked batch

    Five instruments and gates that follow the specification's gate model:
    ALFA clears Gates 1 to 3, BRAVO fails Gate 3 on the ADX, CHARLIE fails
    Gate 3's trend template, DELTA clears Gate 3 but its last session has no
    volume, on which the ATR stand-in divides by zero, ECHO fails Gate 1.
    Gate 4 turns everything down. *)
Module Scenario.

Definition record (fields : list (string * pyval)) : result_dict :=
  list_to_map fields.

Definition eval1 (_ : gmap string DataFrame) (_ : option metamap) (t : string)
  : result_dict :=
  if String.eqb t "ECHO"
  then record [("passed", VBool false); ("reason", VStr "Spread 0.61 > 0.5")]
  else record [("passed", VBool true); ("reason", VStr "Spread OK");
               ("sector", VStr "IT")].

Definition eval2 (t : string) : result_dict :=
  record [("passed", VBool true); ("reason", VStr "F-Score 7"); ("f_score", VNum 7)].

Definition eval2b (_ : metamap) (t : string) : result_dict :=
  record [("passed", VBool true); ("reason", VStr "Institutional backing OK");
          ("inst_ownership", VNum 31)].

Definition eval3 (_ : gmap string DataFrame) (t : string) : result_dict :=
  if String.eqb t "BRAVO"
  then record [("passed", VBool false); ("reason", VStr "ADX 8.2 < 10.0");
               ("adx", VNum (41 # 5))]
  else if String.eqb t "CHARLIE"
  then record [("passed", VBool false); ("reason", VStr "Price below 200-day MA")]
  else record [("passed", VBool true); ("reason", VStr "Trend confirmed");
               ("pattern", VStr "VCP Breakout"); ("adx", VNum 27)].

Definition eval4 (_ : gmap string DataFrame) (t : string) : result_dict :=
  record [("passed", VBool false); ("reason", VStr "Volume not confirmed")].

Definition gate1_run := SpecGates.gate1_run eval1.
Definition gate2_run := SpecGates.gate2_run eval2.
Definition gate2b_run := SpecGates.gate2b_run eval2b.
Definition gate3_run := SpecGates.gate3_run eval3.
Definition gate4_run := SpecGates.gate4_run eval4.

(** A stand-in for the ATR indicator: the last session's range, computed
    with a division by the session's volume. *)
Definition average_true_range (_ : nat) (df : DataFrame) : res float64 :=
  match last df with
  | Some row =>
      if is_zero (Volume row) then Raise ZeroDivisionError
      else Ok (fdiv (fmul (fsub (High row) (Low row)) (Volume row)) (Volume row))
  | None => Raise IndexError
  end.

Definition generate_trade_chart (t : string) (_ : DataFrame) (_ : trade_meta)
    (_ : pyval) (timeframe : string) : res pyval :=
  Ok (VStr timeframe).

(** A session with whole-number prices and volume. *)
Definition session (o h l c v : Z) : bar :=
  Bar (float_of_Z o) (float_of_Z h) (float_of_Z l) (float_of_Z c) (float_of_Z v).

Definition ticker_data : gmap string DataFrame :=
  list_to_map
    [("ALFA", [session 99 102 100 100 5000]);
     ("BRAVO", [session 50 50 50 50 1200]);
     ("CHARLIE", [session 21 22 19 20 800]);
     ("DELTA", [session 30 31 29 30 0]);
     ("ECHO", [session 10 16 9 10 300])].

Definition universe : metamap :=
  [("ALFA", MDict (record [("name", VStr "Alfa Ltd"); ("market_cap", VStr "LARGE")]));
   ("BRAVO", MDict (record [("name", VStr "Bravo Ltd")]));
   ("CHARLIE", MDict (record [("name", VStr "Charlie Ltd"); ("market_cap", VStr "MID")]));
   ("DELTA", MDict (record [("name", VStr "Delta Ltd")]));
   ("ECHO", MDict (record [("name", VStr "Echo Ltd")]))].

Definition pipeline_run :=
  run_pipeline gate1_run gate2_run gate2b_run gate3_run gate4_run
    ticker_data (Some universe) [].

Definition scan_run :=
  run_scan gate1_run gate2_run gate2b_run gate3_run
    average_true_range generate_trade_chart ticker_data universe [].

(** Ticker, status and Gate 3 reason of the candidates the scan emits. *)
Definition emitted : res (list (string * string * pyval)) :=
  (λ out, (λ c, (c_ticker c, c_status c, c_reason c)) <$> so_results out)
    <$> scan_run.2.

(** The trade metadata the scan emits. *)
Definition emitted_trades : res (list (string * trade_meta)) :=
  (λ out, (λ c, (c_ticker c, c_trade c)) <$> so_results out) <$> scan_run.2.

(** Whether the record saved for [t] in the snapshot's rationale says
    [passed], and its reason. *)
Definition saved_verdict (t : string) : res (option (bool * option pyval)) :=
  (λ out, '(_, saved) ← so_snapshot out;
          r ← saved !! t; Some (passed r, r !! "reason")) <$> scan_run.2.

(** The same for the record Gate 1 returned for [t]. *)
Definition gate1_verdict (t : string) : option (bool * option pyval) :=
  r ← (gate1_run ticker_data (Some universe)).2 !! t;
  Some (passed r, r !! "reason").

End Scenario.

(** The batch of [Scenario] run through gates of which the second turns
    every instrument down, and through gates of which the third does. *)
Module EarlyStop.

Definition verdict (passed : bool) (reason : string) : GateResult :=
  {| gr_passed := passed; gr_metrics := ∅; gr_reason := reason |}.

Definition eval1 (_ : gmap string DataFrame) (_ : option metamap) (_ : string)
  : GateResult := verdict true "Spread OK".
Definition eval2 (_ : string) : GateResult := verdict false "F-Score 2 < 4".
Definition eval2_pass (_ : string) : GateResult := verdict true "F-Score 7".
Definition eval2b (_ : metamap) (_ : string) : GateResult :=
  verdict true "Institutional backing OK".
Definition eval3 (_ : gmap string DataFrame) (_ : string) : GateResult :=
  verdict false "Price below 200-day MA".
Definition eval4 (_ : gmap string DataFrame) (_ : string) : GateResult :=
  verdict true "Volume confirmed".

(** Gate 2 has no survivor. *)
Definition pipeline_run :=
  run_pipeline (TypedGates.gate1_run eval1) (TypedGates.gate2_run eval2)
    (TypedGates.gate2b_run eval2b) (TypedGates.gate3_run eval3)
    (TypedGates.gate4_run eval4) Scenario.ticker_data (Some Scenario.universe) [].

(** Gate 3 has no survivor. *)
Definition pipeline_run3 :=
  run_pipeline (TypedGates.gate1_run eval1) (TypedGates.gate2_run eval2_pass)
    (TypedGates.gate2b_run eval2b) (TypedGates.gate3_run eval3)
    (TypedGates.gate4_run eval4) Scenario.ticker_data (Some Scenario.universe) [].

End EarlyStop.

(** A batch with prices that are not whole numbers: FOXTROT closes at
    100.004 after a session between 100.0 and 101.001, GOLF at 250.35 after
    a session between 250.35 and 254.05.  The gates, the universe and the
    ATR stand-in are those of [Scenario]. *)
Module Levels.

Definition ticker_data : gmap string DataFrame :=
  list_to_map
    [("FOXTROT",
      [Bar (float_of_Z 100) (decimal 101001 1000) (float_of_Z 100)
           (decimal 100004 1000) (float_of_Z 1000)]);
     ("GOLF",
      [Bar (decimal 25035 100) (decimal 25405 100) (decimal 25035 100)
           (decimal 25035 100) (float_of_Z 1000)])].

Definition scan_run :=
  run_scan Scenario.gate1_run Scenario.gate2_run Scenario.gate2b_run
    Scenario.gate3_run Scenario.average_true_range
    Scenario.generate_trade_chart ticker_data Scenario.universe [].


End Levels.

(** ** Vocabulary of the properties *)

(** An entry of the trail: [rationale[t][key] = e]. *)
Definition has_entry (rationale : trail) (t key : string) (e : entry) : Prop :=
  ∃ slot, rationale !! t = Some slot ∧ slot !! key = Some e.

(** A result record's ["reason"], if present, is a string. *)
Definition reason_is_string (r : result_dict) : Prop :=
  match r !! "reason" with
  | Some (VStr _) | None => True
  | Some _ => False
  end.

Definition reasons_are_strings (rationale : gmap string result_dict) : Prop :=
  ∀ t r, rationale !! t = Some r → reason_is_string r.

(** Every call but the first is handed the survivors of the call before it. *)
Definition chained (calls : list gate_call) : Prop :=
  ∀ i c c', calls !! i = Some c → calls !! S i = Some c' →
    gc_input c' = list_to_set (gc_passed c).

(** The trail holds the record a gate call produced for each instrument,
    under that gate's name. *)
Definition records (rationale : trail) (c : gate_call) : Prop :=
  ∀ t r, gc_results c !! t = Some r →
    has_entry rationale t (gate_name (gc_stage c)) (EResult r).

(** [rationale_g3.get(ticker, {}).get("reason", "")] *)
Definition gate3_reason (rationale_g3 : gmap string result_dict) (t : string) : pyval :=
  default (VStr "") (default ∅ (rationale_g3 !! t) !! "reason").

(** A recorded call is what the pipeline's gate of that stage returns on an
    argument with the recorded instruments; Gate 2B is called with the
    [market_cap_map] built from the sector map and the tickers it is given. *)
Definition genuine
    (gate1_run : gmap string DataFrame → option metamap → gate_output)
    (gate2_run : list string → gate_output)
    (gate2b_run : list string → metamap → gate_output)
    (gate3_run gate4_run : gmap string DataFrame → gate_output)
    (sector_map : option metamap) (c : gate_call) : Prop :=
  match gc_stage c with
  | Gate1 => ∃ d, gc_input c = dom d ∧
      (gc_passed c, gc_results c) = gate1_run d sector_map
  | Gate2 => ∃ l, gc_input c = list_to_set l ∧
      (gc_passed c, gc_results c) = gate2_run l
  | Gate2B => ∃ l, gc_input c = list_to_set l ∧
      (gc_passed c, gc_results c) = gate2b_run l (market_cap_map sector_map l)
  | Gate3 => ∃ d, gc_input c = dom d ∧
      (gc_passed c, gc_results c) = gate3_run d
  | Gate4 => ∃ d, gc_input c = dom d ∧
      (gc_passed c, gc_results c) = gate4_run d
  end.

(** The watchlist holds the Gate 2B survivors that Gate 3 turned down with a
    reason naming the ADX or the relative-strength slope. *)
Definition watchlist_of (c2b c3 : gate_call) (springs : list spring) : Prop :=
  ∀ t, t ∈ (sp_ticker <$> springs) ↔
       t ∈ gc_passed c2b ∧ (t ∉ gc_passed c3) ∧
       is_sniper_fail (gate3_reason (gc_results c3) t) = Ok true.

(** The items of the Python tuple a [return a, b, c] statement hands back. *)
Inductive pyitem : Type :=
| PyTickers (l : list string)
| PyTrail (r : trail)
| PyWatchlist (l : list spring).

Abbreviation pytuple := (list pyitem).

(** [return candidates, full_rationale, coiling_springs] *)
Definition returned (out : list string * trail * list spring) : pytuple :=
  let '(candidates, full_rationale, coiling_springs) := out in
  [PyTickers candidates; PyTrail full_rationale; PyWatchlist coiling_springs].

(** The value of a call [run_pipeline(ticker_data, sector_map)]. *)
Definition returned_value (outcome : res (list string * trail * list spring))
  : res pytuple :=
  out ← outcome; Ok (returned out).

(** The detected pattern is a string that mentions a VCP. *)
Definition pattern_has_vcp (pattern : pyval) : bool :=
  match pattern with
  | VStr s => str_in "VCP" s
  | _ => false
  end.


(** [x == y] on floats: equal numbers, a zero being equal to a zero of the
    other sign and NaN to nothing. *)
Definition float_eq (x y : float64) : Prop := SFeqb x y = true.

(** [x] is [v] rounded to two decimals: for a finite [v], the float nearest
    to a whole number of hundredths that lies at most half a hundredth away
    from the exact value of [v]; an infinity or NaN is left as it is. *)
Definition rounded_to_cents (x v : float64) : Prop :=
  match float_value v with
  | Some q =>
      ∃ (k : Z) (negative : bool),
        x = cents negative k ∧ (Qabs (inject_Z k / 100 - q) <= 1 # 200)%Q
  | None => x = v
  end.

(** Market-cap tiers. *)
Inductive tier : Type := LARGE | MID | SMALL.

Definition parse_tier (m : meta) : option tier :=
  match m with
  | MVal (VStr s) =>
      if String.eqb s "LARGE" then Some LARGE
      else if String.eqb s "MID" then Some MID
      else if String.eqb s "SMALL" then Some SMALL
      else None
  | _ => None
  end.

(** Modelled from the spec: how Gate 2B ([gates/gate2_institutional.py],
    missing from the sources) picks the tier whose thresholds it applies to
    a ticker.  Section 4.3: the thresholds are per cap tier, and a ticker
    with no cap tier resolved defaults to the strictest (SMALL) tier. *)
Definition gate2b_tier (mcm : metamap) (t : string) : tier :=
  default SMALL (dict_get mcm t ≫= parse_tier).

(** The supplied metadata resolves the tier of [t]: it has a dictionary for
    [t] with a ["market_cap"] field. *)
Definition cap_resolved (sector_map : option metamap) (t : string) : Prop :=
  ∃ entries d v,
    sector_map = Some entries ∧ (t, MDict d) ∈ entries ∧
    d !! "market_cap" = Some v.

(** ** Vocabulary of the further properties *)

(** The value is a Python string. *)
Definition is_str (v : pyval) : bool :=
  match v with
  | VStr _ => true
  | _ => false
  end.

(** The test of the watchlist loop on one ticker: it is not a survivor of
    Gate 3 and the reason Gate 3 gave names the ADX or the relative
    strength. *)
Definition on_watchlist (passed_g3 : list string)
    (rationale_g3 : gmap string result_dict) (t : string) : bool :=
  negb (bool_decide (t ∈ passed_g3)) &&
  match is_sniper_fail (gate3_reason rationale_g3 t) with
  | Ok true => true
  | _ => false
  end.

(** No slot of the trail carries a ["status"] tag. *)
Definition untagged (rationale : trail) : Prop :=
  ∀ t e, ¬ has_entry rationale t "status" e.

(** A batch on which Gate 3 turns BRAVO down with a record whose reason is
    [None]; the other gates are those of [Scenario]. *)
Module NullReason.

Definition eval3 (data : gmap string DataFrame) (t : string) : result_dict :=
  if String.eqb t "BRAVO"
  then Scenario.record [("passed", VBool false); ("reason", VNone)]
  else Scenario.eval3 data t.

Definition gate3_run := SpecGates.gate3_run eval3.

Definition pipeline_run :=
  run_pipeline Scenario.gate1_run Scenario.gate2_run Scenario.gate2b_run
    gate3_run Scenario.gate4_run Scenario.ticker_data (Some Scenario.universe) [].

End NullReason.


(** The computation returned. *)
Definition is_ok {A : Type} (r : res A) : bool :=
  match r with
  | Ok _ => true
  | Raise _ => false
  end.

(** The record the tagging loop of [run_scan] leaves for a ticker it tags,
    given the record Gate 3 returned for that ticker, if any. *)
Definition tagged_record (r : option result_dict) : result_dict :=
  match r with
  | Some r => <["status" := VStr "COILING_SPRING"]> r
  | None =>
      <["passed" := VBool false]>
        (<["status" := VStr "COILING_SPRING"]>
           (<["reason" := VStr "Technical filters not met"]> ∅))
  end.

(** Everything in the trail has a source: a ticker has a slot exactly when
    some gate call returned a record for it, and an entry of a slot is
    either a record some gate call returned for the ticker, filed under that
    gate's name, or the watchlist tag. *)
Definition sourced (calls : list gate_call) (rationale : trail) : Prop :=
  (∀ t, is_Some (rationale !! t) ↔
        ∃ c, c ∈ calls ∧ is_Some (gc_results c !! t)) ∧
  (∀ t key e, has_entry rationale t key e →
     (key = "status" ∧ e = EStatus "COILING_SPRING") ∨
     ∃ c r, c ∈ calls ∧ key = gate_name (gc_stage c) ∧
            gc_results c !! t = Some r ∧ e = EResult r).

(** ** Orchestrator.run_scan: merging the fetched sectors *)

(** The body of [for t, sector in ticker_sectors.items()] (lines 67-69):
    [universe[t]['sector'] = sector] for a ticker the universe lists.  An
    entry that is not a dictionary does not support item assignment. *)
Definition sector_step (universe : metamap) '((t, sector) : string * pyval)
  : res metamap :=
  match dict_get universe t with
  | None => Ok universe
  | Some (MDict d) => Ok (dict_set universe t (MDict (<["sector" := sector]> d)))
  | Some (MVal _) => Raise TypeError
  end.

(** The loop, over the items of [ticker_sectors] in their order. *)
Definition merge_sectors (ticker_sectors : list (string * pyval))
    (universe : metamap) : res metamap :=
  for_each sector_step universe ticker_sectors.

(** The scan of [Scenario] after sectors were fetched for ALFA and for
    ZULU, a ticker the universe does not list. *)
Module SectorScenario.

Definition ticker_sectors : list (string * pyval) :=
  [("ALFA", VStr "Energy"); ("ZULU", VStr "Metals")].

Definition scan_run (universe : metamap) :=
  run_scan Scenario.gate1_run Scenario.gate2_run Scenario.gate2b_run
    Scenario.gate3_run Scenario.average_true_range
    Scenario.generate_trade_chart Scenario.ticker_data universe [].

(** Ticker and sector of the candidates the scan emits. *)
Definition emitted_sectors : res (list (string * pyval)) :=
  universe ← merge_sectors ticker_sectors Scenario.universe;
  (λ out, (λ c, (c_ticker c, c_sector c)) <$> so_results out)
    <$> (scan_run universe).2.

End SectorScenario.

(** ** Orchestrator._print_summary: the candidates block *)

(** [s.split('.')[0]] *)
Fixpoint before_dot (s : string) : string :=
  match s with
  | EmptyString => EmptyString
  | String c s' =>
      if Ascii.eqb c "."%char then EmptyString else String c (before_dot s')
  end.

(** [f"{s:n}"]: a string is padded with spaces on the right up to width
    [n]; a longer one is printed as it is.  The width is counted in
    characters, which for the ASCII ticker symbols and tier names printed
    here is the length in bytes. *)
Definition ljust (n : nat) (s : string) : string :=
  String.append s
    (string_of_list_ascii (repeat " "%char (n - String.length s))).

(** [c * n] for a one-character string. *)
Definition rule (c : ascii) (n : nat) : string :=
  string_of_list_ascii (repeat c n).

(** [cap_groups = {"LARGE": [], "MID": [], "SMALL": []}] *)
Record cap_groups : Type := CapGroups {
  cg_large : list string;
  cg_mid : list string;
  cg_small : list string }.

(** Lines 216-217: the universe entry is used only if it is a dictionary,
    and a missing ["market_cap"] counts as "SMALL". *)
Definition summary_cap (universe_map : metamap) (ticker : string) : pyval :=
  match dict_get universe_map ticker with
  | Some (MDict d) => default (VStr "SMALL") (d !! "market_cap")
  | _ => VStr "SMALL"
  end.

(** [cap_groups[cap].append(ticker)]: a [cap] that is none of the three
    keys raises [KeyError]. *)
Definition group_step (universe_map : metamap) (g : cap_groups) (ticker : string)
  : res cap_groups :=
  match summary_cap universe_map ticker with
  | VStr cap =>
      if String.eqb cap "LARGE"
      then Ok (CapGroups (cg_large g ++ [ticker]) (cg_mid g) (cg_small g))
      else if String.eqb cap "MID"
      then Ok (CapGroups (cg_large g) (cg_mid g ++ [ticker]) (cg_small g))
      else if String.eqb cap "SMALL"
      then Ok (CapGroups (cg_large g) (cg_mid g) (cg_small g ++ [ticker]))
      else Raise KeyError
  | _ => Raise KeyError
  end.

(** The line printed for one pick (lines 225-226). *)
Definition pick_line (cap_type top_pick : string) : string :=
  let rat_id :=
    String.append "RAT-"
      (String.append (before_dot top_pick)
         (String.append "-" (String.append cap_type "-2026"))) in
  String.append (ljust 8 cap_type)
    (String.append " | Pick: "
       (String.append (ljust 12 top_pick)
          (String.append " | Rationale ID: " rat_id))).

(** Lines 221-226 for one tier. *)
Definition tier_lines (cap_type : string) (group : list string) : list string :=
  match group with
  | [] => []
  | _ :: _ => pick_line cap_type <$> take 3 group
  end.

(** Lines 212-230: the lines printed, and whether the block completed. *)
Definition print_top_picks (candidates : list string) (universe_map : metamap)
  : list string * res unit :=
  match candidates with
  | [] => (["No candidates met all criteria."], Ok ())
  | _ :: _ =>
      let header := "TOP PICKS BY CATEGORY (Rationale IDs)" in
      match for_each (group_step universe_map) (CapGroups [] [] []) candidates with
      | Raise e => ([header], Raise e)
      | Ok g =>
          (header ::
           tier_lines "LARGE" (cg_large g) ++ tier_lines "MID" (cg_mid g) ++
           tier_lines "SMALL" (cg_small g) ++ [rule "-"%char 80],
           Ok ())
      end
  end.

(** The value is the tier name [tier]. *)
Definition is_tier (tier : string) (v : pyval) : bool :=
  match v with
  | VStr s => String.eqb s tier
  | _ => false
  end.

(** The value is one of the three tier names. *)
Definition known_tier (v : pyval) : bool :=
  is_tier "LARGE" v || is_tier "MID" v || is_tier "SMALL" v.

(** * Properties *)

(** ** Auxiliary facts *)

Lemma for_each_cons {A S : Type} (body : S → A → res S) s x xs :
  for_each body s (x :: xs) = body s x ≫= λ s', for_each body s' xs.
Proof. reflexivity. Qed.

Lemma log_gate_results_lookup (main_log : trail) gate_name
    (gate_results : gmap string result_dict) (t : string) :
  _log_gate_results main_log gate_name gate_results !! t =
  match gate_results !! t with
  | Some r => Some (<[gate_name := EResult r]> (default ∅ (main_log !! t)))
  | None => main_log !! t
  end.
Proof.
  unfold _log_gate_results.
  apply (map_fold_weak_ind (λ acc m, acc !! t =
    match m !! t with
    | Some r => Some (<[gate_name := EResult r]> (default ∅ (main_log !! t)))
    | None => main_log !! t
    end)).
  - by rewrite lookup_empty.
  - intros k r m acc Hk IH. cbn zeta.
    destruct (decide (k = t)) as [->|Hne].
    + rewrite lookup_insert_eq. rewrite Hk in IH.
      destruct (acc !! t) as [slot|] eqn:Hacc.
      * rewrite lookup_alter_eq, Hacc. cbn. by rewrite <- IH.
      * rewrite lookup_alter_eq, lookup_insert_eq. cbn. by rewrite <- IH.
    + rewrite lookup_insert_ne by done. rewrite <- IH.
      rewrite lookup_alter_ne by done.
      destruct (acc !! k); [done|]. by rewrite lookup_insert_ne.
Qed.


Lemma spec_gate_narrows eval tickers t :
  t ∈ (spec_gate eval tickers).1 → t ∈ tickers.
Proof. unfold spec_gate. cbn. rewrite list_elem_of_filter. tauto. Qed.

Lemma spec_gate_nil eval : spec_gate eval [] = ([], ∅).
Proof. reflexivity. Qed.

Lemma batch_keys_elem (data : gmap string DataFrame) t :
  t ∈ batch_keys data ↔ t ∈ dom data.
Proof.
  unfold batch_keys. rewrite elem_of_dom, list_elem_of_fmap. split.
  - intros [[k df] [-> Hin]]. apply elem_of_map_to_list in Hin. by exists df.
  - intros [df Hdf]. exists (t, df). split; [done|]. by apply elem_of_map_to_list.
Qed.

Lemma batch_keys_empty : batch_keys ∅ = [].
Proof. unfold batch_keys. by rewrite map_to_list_empty. Qed.

Lemma select_data_dom ticker_data tickers d :
  select_data ticker_data tickers = Ok d → dom d = list_to_set tickers.
Proof.
  revert d. induction tickers as [|t tickers IH]; intros d; cbn.
  - intros [= <-]. set_solver.
  - destruct (ticker_data !! t) as [df|]; [|done].
    destruct (select_data ticker_data tickers) as [d'|]; cbn; [|done].
    intros [= <-]. rewrite dom_insert_L, (IH d' eq_refl). done.
Qed.

Lemma select_data_ok ticker_data tickers :
  (∀ t, t ∈ tickers → t ∈ dom ticker_data) →
  ∃ d, select_data ticker_data tickers = Ok d.
Proof.
  induction tickers as [|t tickers IH]; intros Hsub; cbn; [by eexists|].
  destruct (ticker_data !! t) as [df|] eqn:Hdf.
  - destruct IH as [d ->]; [intros; apply Hsub; set_solver|]. cbn. by eexists.
  - exfalso. assert (t ∈ dom ticker_data) as Hin by (apply Hsub; set_solver).
    apply elem_of_dom in Hin as [? ?]. congruence.
Qed.

Lemma select_data_lookup ticker_data tickers d t :
  select_data ticker_data tickers = Ok d →
  d !! t = if bool_decide (t ∈ tickers) then ticker_data !! t else None.
Proof.
  revert d. induction tickers as [|t0 tickers IH]; intros d; cbn.
  - intros [= <-]. by rewrite lookup_empty.
  - destruct (ticker_data !! t0) as [df|] eqn:Hdf; [|done].
    destruct (select_data ticker_data tickers) as [d'|]; cbn; [|done].
    intros [= <-]. specialize (IH d' eq_refl).
    destruct (decide (t0 = t)) as [->|Hne].
    + rewrite lookup_insert_eq, bool_decide_true by (by left). done.
    + rewrite lookup_insert_ne by done. rewrite IH.
      apply (f_equal (λ b : bool, if b then ticker_data !! t else None)).
      apply bool_decide_ext. rewrite elem_of_cons.
      split; [by right|]. intros [Heq|?]; [by destruct Hne|done].
Qed.

Lemma select_data_raise ticker_data tickers e :
  select_data ticker_data tickers = Raise e →
  e = KeyError ∧ ∃ t, t ∈ tickers ∧ ticker_data !! t = None.
Proof.
  induction tickers as [|t0 tickers IH]; cbn; [done|].
  destruct (ticker_data !! t0) as [df|] eqn:Hdf.
  - destruct (select_data ticker_data tickers) as [d'|e']; cbn; [done|].
    intros [= <-]. destruct (IH eq_refl) as (-> & t & Ht & Hnone).
    split; [done|]. exists t. split; [by right|done].
  - intros [= <-]. split; [done|]. exists t0. split; [by left|done].
Qed.

Lemma log_gate_results_records main_log gate_name gate_results t r :
  gate_results !! t = Some r →
  has_entry (_log_gate_results main_log gate_name gate_results) t gate_name (EResult r).
Proof.
  intros Hr. eexists. rewrite log_gate_results_lookup, Hr.
  split; [done|]. apply lookup_insert_eq.
Qed.

Lemma log_gate_results_keeps main_log gate_name gate_results t key e :
  key ≠ gate_name →
  has_entry main_log t key e →
  has_entry (_log_gate_results main_log gate_name gate_results) t key e.
Proof.
  intros Hne (slot & Hslot & He). unfold has_entry.
  rewrite log_gate_results_lookup, Hslot.
  destruct (gate_results !! t) as [r|]; cbn.
  - eexists. split; [done|]. by rewrite lookup_insert_ne.
  - by eexists.
Qed.

Lemma is_sniper_fail_string s : ∃ b, is_sniper_fail (VStr s) = Ok b.
Proof.
  unfold is_sniper_fail. cbn.
  destruct (str_in "ADX" s); [by eexists|].
  destruct (str_in "RS Slope" s); by eexists.
Qed.

Section CoilingLoop.

Variables (passed_g3 : list string)
          (rationale_g1 rationale_g2 rationale_g2b rationale_g3
             : gmap string result_dict)
          (mcm : metamap).

Let body :=
  coiling_body passed_g3 rationale_g1 rationale_g2 rationale_g2b rationale_g3 mcm.

Lemma coiling_loop_ok :
  reasons_are_strings rationale_g3 →
  ∀ tickers st, ∃ st', for_each body st tickers = Ok st'.
Proof.
  intros Hstr tickers. induction tickers as [|t tickers IH]; intros st; cbn.
  - by eexists.
  - assert (∃ st1, body st t = Ok st1) as [st1 ->]; [|cbn; apply IH].
    subst body. unfold coiling_body. destruct st as [springs rat].
    case_bool_decide; [by eexists|].
    assert (∃ s, default (VStr "") (default ∅ (rationale_g3 !! t) !! "reason")
                 = VStr s) as [s ->].
    { destruct (rationale_g3 !! t) as [r|] eqn:Hr; cbn.
      - specialize (Hstr _ _ Hr). unfold reason_is_string in Hstr.
        destruct (r !! "reason") as [[]|]; cbn; try done; by eexists.
      - rewrite lookup_empty. by eexists. }
    destruct (is_sniper_fail_string s) as [[] ->]; cbn; by eexists.
Qed.

Lemma coiling_loop_keeps tickers cs rat cs' rat' t key e :
  key ≠ "status" →
  for_each body (cs, rat) tickers = Ok (cs', rat') →
  has_entry rat t key e → has_entry rat' t key e.
Proof.
  intros Hne. revert cs rat.
  induction tickers as [|t0 tickers IH]; intros cs rat.
  - by intros [= <- <-].
  - rewrite for_each_cons.
    destruct (body (cs, rat) t0) as [[cs1 rat1]|] eqn:Hbody; [|done].
    change (Ok (cs1, rat1) ≫= _) with (for_each body (cs1, rat1) tickers).
    intros Hrest Hent. apply (IH _ _ Hrest). clear IH Hrest.
    subst body. unfold coiling_body in Hbody.
    case_bool_decide; [by simplify_eq|].
    destruct (is_sniper_fail _) as [[]|]; cbn in Hbody; simplify_eq; [|done].
    destruct Hent as (slot & Hslot & He). unfold has_entry.
    destruct (decide (t0 = t)) as [->|Hd].
    + rewrite lookup_alter_eq, Hslot. cbn. eexists. split; [done|].
      by rewrite lookup_insert_ne.
    + rewrite lookup_alter_ne by done. by eexists.
Qed.

Lemma coiling_loop_springs tickers cs rat cs' rat' t :
  for_each body (cs, rat) tickers = Ok (cs', rat') →
  t ∈ (sp_ticker <$> cs') ↔
  t ∈ (sp_ticker <$> cs) ∨
  (t ∈ tickers ∧ (t ∉ passed_g3) ∧
   is_sniper_fail (gate3_reason rationale_g3 t) = Ok true).
Proof.
  revert cs rat. induction tickers as [|t0 tickers IH]; intros cs rat.
  - intros [= <- <-]. split; [by left|].
    intros [?|(?%elem_of_nil & _)]; done.
  - rewrite for_each_cons.
    destruct (body (cs, rat) t0) as [[cs1 rat1]|] eqn:Hbody; [|done].
    change (Ok (cs1, rat1) ≫= _) with (for_each body (cs1, rat1) tickers).
    intros Hrest. rewrite (IH _ _ Hrest). clear IH Hrest.
    subst body. unfold coiling_body in Hbody.
    fold (gate3_reason rationale_g3 t0) in Hbody.
    case_bool_decide as Hin.
    { simplify_eq. split.
      { intros [?|(? & ? & ?)]; [by left|].
        right. split; [apply elem_of_cons; by right|done]. }
      intros [?|(Ht & Hn & ?)]; [by left|].
      apply elem_of_cons in Ht as [->|Ht]; [done|]. right. done. }
    destruct (is_sniper_fail (gate3_reason rationale_g3 t0)) as [[]|] eqn:Hs;
      cbn in Hbody; simplify_eq.
    + rewrite fmap_app, elem_of_app. cbn. rewrite list_elem_of_singleton.
      split.
      * intros [[?| ->]|(? & ? & ?)];
          [by left| |right; split; [apply elem_of_cons; by right|done]].
        right. split; [apply elem_of_cons; by left|done].
      * intros [?|(Ht & Hn & Hst)]; [by (left; left)|].
        apply elem_of_cons in Ht as [->|Ht]; [by (left; right)|]. by right.
    + split.
      { intros [?|(? & ? & ?)]; [by left|].
        right. split; [apply elem_of_cons; by right|done]. }
      intros [?|(Ht & Hn & Hst)]; [by left|].
      apply elem_of_cons in Ht as [->|Ht]; [congruence|]. by right.
Qed.

Lemma coiling_loop_watchlist tickers rat cs' rat' t :
  for_each body ([], rat) tickers = Ok (cs', rat') →
  t ∈ (sp_ticker <$> cs') ↔
  t ∈ tickers ∧ (t ∉ passed_g3) ∧
  is_sniper_fail (gate3_reason rationale_g3 t) = Ok true.
Proof.
  intros Hloop. rewrite (coiling_loop_springs _ _ _ _ _ _ Hloop).
  cbn. rewrite elem_of_nil. tauto.
Qed.

End CoilingLoop.

(** ** The trace of [run_pipeline] *)

Section PipelineTrace.

Variable gate1_run : gmap string DataFrame → option metamap → gate_output.
Variable gate2_run : list string → gate_output.
Variable gate2b_run : list string → metamap → gate_output.
Variable gate3_run : gmap string DataFrame → gate_output.
Variable gate4_run : gmap string DataFrame → gate_output.

Let pipeline := run_pipeline gate1_run gate2_run gate2b_run gate3_run gate4_run.
Let is_genuine := genuine gate1_run gate2_run gate2b_run gate3_run gate4_run.

Local Arguments select_data : simpl never.
Local Arguments for_each : simpl never.
Local Arguments list_to_set : simpl never.
Local Arguments market_cap_map : simpl never.

Local Ltac solve_records :=
  repeat first
    [ apply log_gate_results_records; assumption
    | apply log_gate_results_keeps; [done|]
    | eapply coiling_loop_keeps; [done | eassumption | cbn] ].

Local Ltac split_elem Hin :=
  repeat (apply elem_of_cons in Hin as [->|Hin]);
  try (by apply elem_of_nil in Hin).

Local Ltac leaf :=
  repeat apply conj;
  [ first [ by (exists 1; split; [lia|]) | by (exists 2; split; [lia|])
          | by (exists 3; split; [lia|]) | by (exists 4; split; [lia|])
          | by (exists 5; split; [lia|]) ]
  | by intros c [= <-]
  | intros i c c' Hc Hc';
    do 5 (try destruct i as [|i]); cbn in Hc, Hc'; simplify_eq; cbn;
    try done; eauto using select_data_dom
  | intros c Hin; split_elem Hin; eexists; (split; [reflexivity|]); cbn;
    congruence
  | intros Hstr i c Hc Hnil;
    try (match goal with Hno : _ → False |- _ => by destruct (Hno Hstr) end);
    do 5 (try destruct i as [|i]); cbn in Hc; simplify_eq; cbn in Hnil;
    try done; eauto
  | intros ? ? ? Hout;
    first
      [ discriminate Hout
      | simplify_eq; repeat apply conj;
        [ intros c Hin; split_elem Hin; intros t r Hr; cbn in *; solve_records
        | first [ by left | right; eexists; split; reflexivity ]
        | first
            [ by left
            | right; do 2 eexists; (do 2 (split; [reflexivity|]));
              intros t; cbn; eapply coiling_loop_watchlist; eassumption ] ] ] ].

(** Everything the later theorems need about one run of the pipeline:
    which gates are called in which order and on what, and how the
    returned triple relates to those calls. *)
Lemma run_pipeline_trace ticker_data sector_map :
  let calls := (pipeline ticker_data sector_map []).1 in
  let outcome := (pipeline ticker_data sector_map []).2 in
  (∃ n, (1 ≤ n ≤ 5)%nat ∧ gc_stage <$> calls = take n stage_order)
  ∧ (∀ c, calls !! 0%nat = Some c → gc_input c = dom ticker_data)
  ∧ chained calls
  ∧ (∀ c, c ∈ calls → is_genuine sector_map c)
  ∧ ((∀ data, reasons_are_strings (gate3_run data).2) →
     ∀ i c, calls !! i = Some c → gc_passed c = [] →
       length calls = S i ∧
       ∃ rationale springs, outcome = Ok ([], rationale, springs))
  ∧ (∀ candidates rationale springs,
       outcome = Ok (candidates, rationale, springs) →
       (∀ c, c ∈ calls → records rationale c)
       ∧ (candidates = [] ∨
          ∃ c, calls !! 4%nat = Some c ∧ candidates = gc_passed c)
       ∧ (springs = [] ∨
          ∃ c2b c3, calls !! 2%nat = Some c2b ∧ calls !! 3%nat = Some c3 ∧
                    watchlist_of c2b c3 springs)).
Proof.
  subst pipeline is_genuine. unfold run_pipeline, genuine.
  unfold mbind, M_bind, mret, M_ret, call_on_data, call_on_list, lift. cbn.
  destruct (gate1_run ticker_data sector_map) as [p1 r1] eqn:E1. cbn.
  destruct p1 as [|t1 p1]; cbn; [solve [leaf]|].
  destruct (select_data ticker_data (t1 :: p1)) as [d1|e1] eqn:S1; cbn;
    [|solve [leaf]].
  destruct (gate2_run (t1 :: p1)) as [p2 r2] eqn:E2. cbn.
  destruct p2 as [|t2 p2]; cbn; [solve [leaf]|].
  destruct (gate2b_run (t2 :: p2) _) as [p2b r2b] eqn:E2b. cbn.
  destruct p2b as [|t2b p2b]; cbn; [solve [leaf]|].
  destruct (select_data ticker_data (t2b :: p2b)) as [d2b|e2b] eqn:S2b; cbn;
    [|solve [leaf]].
  destruct (gate3_run d2b) as [p3 r3] eqn:E3. cbn.
  destruct (for_each _ _ (t2b :: p2b)) as [[cs rat]|e] eqn:Hloop; cbn.
  2:{ assert ((∀ data, reasons_are_strings (gate3_run data).2) → False)
        as Hno.
      { intros Hstr. specialize (Hstr d2b). rewrite E3 in Hstr.
        edestruct (coiling_loop_ok p3 r1 r2 r2b r3) as [st' Hst'];
          [exact Hstr|]. rewrite Hst' in Hloop. discriminate Hloop. }
      solve [leaf]. }
  destruct p3 as [|t3 p3]; cbn; [solve [leaf]|].
  destruct (select_data ticker_data (t3 :: p3)) as [d3|e3] eqn:S3; cbn;
    [|solve [leaf]].
  destruct (gate4_run d3) as [p4 r4] eqn:E4. cbn.
  destruct p4 as [|t4 p4]; solve [leaf].
Qed.

End PipelineTrace.

Lemma spec_gate_results eval tickers t r :
  (spec_gate eval tickers).2 !! t = Some r → t ∈ tickers ∧ r = eval t.
Proof.
  unfold spec_gate. cbn. intros Hr.
  apply elem_of_list_to_map_2, list_elem_of_fmap in Hr as (t' & [= -> ->] & Hin).
  done.
Qed.

(** ** The watchlist loop *)

Lemma is_sniper_fail_cases v :
  if is_str v then ∃ b, is_sniper_fail v = Ok b
  else is_sniper_fail v = Raise TypeError.
Proof. destruct v; cbn; try done. apply is_sniper_fail_string. Qed.

Section WatchlistLoop.

Variables (passed_g3 : list string)
          (rationale_g1 rationale_g2 rationale_g2b rationale_g3
             : gmap string result_dict)
          (mcm : metamap).

Let body :=
  coiling_body passed_g3 rationale_g1 rationale_g2 rationale_g2b rationale_g3 mcm.
Let watch := on_watchlist passed_g3 rationale_g3.

Lemma coiling_body_ok cs rat t cs' rat' :
  body (cs, rat) t = Ok (cs', rat') →
  sp_ticker <$> cs' = (sp_ticker <$> cs) ++ (if watch t then [t] else []) ∧
  rat' = if watch t
         then alter (λ slot, <["status" := EStatus "COILING_SPRING"]> slot) t rat
         else rat.
Proof.
  subst body watch. unfold coiling_body, on_watchlist.
  fold (gate3_reason rationale_g3 t).
  case_bool_decide as Hin; cbn.
  - intros [= <- <-]. by rewrite app_nil_r.
  - destruct (is_sniper_fail (gate3_reason rationale_g3 t)) as [[]|]; cbn;
      intros [= <- <-]; [|by rewrite app_nil_r].
    by rewrite fmap_app.
Qed.

Lemma coiling_body_raise st t e :
  body st t = Raise e →
  e = TypeError ∧ (t ∉ passed_g3) ∧ is_str (gate3_reason rationale_g3 t) = false.
Proof.
  subst body. unfold coiling_body. destruct st as [cs rat].
  fold (gate3_reason rationale_g3 t).
  case_bool_decide as Hin; [done|].
  pose proof (is_sniper_fail_cases (gate3_reason rationale_g3 t)) as Hc.
  destruct (is_str (gate3_reason rationale_g3 t)).
  - destruct Hc as [[] ->]; done.
  - rewrite Hc. cbn. by intros [= <-].
Qed.

Lemma coiling_loop_order tickers cs rat cs' rat' :
  for_each body (cs, rat) tickers = Ok (cs', rat') →
  sp_ticker <$> cs' = (sp_ticker <$> cs) ++ filter (λ t, watch t) tickers.
Proof.
  revert cs rat. induction tickers as [|t0 tickers IH]; intros cs rat.
  - intros [= <- <-]. by rewrite app_nil_r.
  - rewrite for_each_cons.
    destruct (body (cs, rat) t0) as [[cs1 rat1]|] eqn:Hbody; [|done].
    change (Ok (cs1, rat1) ≫= _) with (for_each body (cs1, rat1) tickers).
    intros Hrest. rewrite (IH _ _ Hrest).
    apply coiling_body_ok in Hbody as [-> _].
    rewrite filter_cons. destruct (watch t0) eqn:Hw.
    + rewrite decide_True by done. by rewrite <- app_assoc.
    + rewrite decide_False by (by intros ?). by rewrite app_nil_r.
Qed.

Lemma coiling_loop_trail tickers cs rat cs' rat' t :
  for_each body (cs, rat) tickers = Ok (cs', rat') →
  rat' !! t =
    if bool_decide (t ∈ filter (λ t, watch t) tickers)
    then <["status" := EStatus "COILING_SPRING"]> <$> rat !! t
    else rat !! t.
Proof.
  revert cs rat. induction tickers as [|t0 tickers IH]; intros cs rat.
  - intros [= <- <-]. done.
  - rewrite for_each_cons.
    destruct (body (cs, rat) t0) as [[cs1 rat1]|] eqn:Hbody; [|done].
    change (Ok (cs1, rat1) ≫= _) with (for_each body (cs1, rat1) tickers).
    intros Hrest. rewrite (IH _ _ Hrest).
    apply coiling_body_ok in Hbody as [_ ->].
    rewrite filter_cons. destruct (watch t0) eqn:Hw.
    + rewrite decide_True by done.
      destruct (decide (t0 = t)) as [->|Hne].
      * rewrite (bool_decide_true (t ∈ t :: _)) by (by left).
        rewrite lookup_alter_eq.
        case_bool_decide; [|done].
        destruct (rat !! t) as [slot|]; cbn; [|done].
        by rewrite insert_insert_eq.
      * rewrite lookup_alter_ne by done.
        apply (f_equal (λ b : bool, if b then _ else _)).
        apply bool_decide_ext. rewrite elem_of_cons.
        split; [by right|]. intros [?|?]; [congruence|done].
    + by rewrite decide_False by (by intros ?).
Qed.

Lemma coiling_loop_raise tickers st e :
  for_each body st tickers = Raise e →
  e = TypeError ∧
  ∃ t, t ∈ tickers ∧ (t ∉ passed_g3) ∧
       is_str (gate3_reason rationale_g3 t) = false.
Proof.
  revert st. induction tickers as [|t0 tickers IH]; intros st; [done|].
  rewrite for_each_cons.
  destruct (body st t0) as [st1|e0] eqn:Hbody.
  - intros Hrest. destruct (IH _ Hrest) as (-> & t & Ht & Hrej & Hstr).
    split; [done|]. exists t. split; [by right|done].
  - intros [= <-]. apply coiling_body_raise in Hbody as (-> & Hrej & Hstr).
    split; [done|]. exists t0. split; [by left|done].
Qed.

Lemma coiling_loop_raises tickers st t :
  t ∈ tickers → t ∉ passed_g3 → is_str (gate3_reason rationale_g3 t) = false →
  for_each body st tickers = Raise TypeError.
Proof.
  intros Hin Hrej Hstr.
  destruct (for_each body st tickers) as [st'|e] eqn:Hloop.
  - exfalso. revert st Hloop.
    induction tickers as [|t0 tickers IH]; intros st; [by apply elem_of_nil in Hin|].
    rewrite for_each_cons.
    destruct (body st t0) as [st1|e0] eqn:Hbody; [|done].
    apply elem_of_cons in Hin as [->|Hin]; [|by apply IH].
    subst body. unfold coiling_body in Hbody. destruct st as [cs rat].
    fold (gate3_reason rationale_g3 t0) in Hbody.
    rewrite bool_decide_false in Hbody by done.
    pose proof (is_sniper_fail_cases (gate3_reason rationale_g3 t0)) as Hc.
    rewrite Hstr in Hc. rewrite Hc in Hbody. done.
  - by apply coiling_loop_raise in Hloop as [-> _].
Qed.

(** A ticker that passes the watchlist test has a Gate 3 record. *)
Lemma watch_has_record t :
  watch t = true → is_Some (rationale_g3 !! t).
Proof.
  subst watch. unfold on_watchlist, gate3_reason.
  destruct (rationale_g3 !! t) as [r|]; [by eexists|].
  cbn. rewrite lookup_empty. cbn. by rewrite andb_false_r.
Qed.

End WatchlistLoop.

(** ** What [run_pipeline] raises and tags *)

Lemma log_gate_results_keeps_inv main_log gate_name gate_results t key e :
  key ≠ gate_name →
  has_entry (_log_gate_results main_log gate_name gate_results) t key e →
  has_entry main_log t key e.
Proof.
  intros Hne (slot & Hslot & He). rewrite log_gate_results_lookup in Hslot.
  unfold has_entry. destruct (gate_results !! t) as [r|].
  - injection Hslot as <-. rewrite lookup_insert_ne in He by done.
    destruct (main_log !! t) as [slot|]; cbn in He.
    + by exists slot.
    + by rewrite lookup_empty in He.
  - by exists slot.
Qed.

Lemma untagged_empty : untagged ∅.
Proof. intros t e (slot & Hslot & _). by rewrite lookup_empty in Hslot. Qed.

Lemma untagged_log main_log gate_name gate_results :
  gate_name ≠ "status" → untagged main_log →
  untagged (_log_gate_results main_log gate_name gate_results).
Proof.
  intros Hne Hun t e He. apply (Hun t e).
  by apply log_gate_results_keeps_inv in He.
Qed.

Lemma log_gate_results_slot main_log gate_name gate_results t :
  is_Some (gate_results !! t) →
  is_Some (_log_gate_results main_log gate_name gate_results !! t).
Proof. intros [r Hr]. rewrite log_gate_results_lookup, Hr. by eexists. Qed.

Section StatusTags.

Variables (passed_g3 : list string)
          (rationale_g1 rationale_g2 rationale_g2b rationale_g3
             : gmap string result_dict)
          (mcm : metamap).

Lemma status_after_loop tickers pre cs rat :
  for_each
    (coiling_body passed_g3 rationale_g1 rationale_g2 rationale_g2b
       rationale_g3 mcm) ([], pre) tickers = Ok (cs, rat) →
  untagged pre →
  (∀ t, is_Some (rationale_g3 !! t) → is_Some (pre !! t)) →
  sp_ticker <$> cs =
    filter (λ t, on_watchlist passed_g3 rationale_g3 t) tickers ∧
  ∀ t e, has_entry rat t "status" e ↔
         e = EStatus "COILING_SPRING" ∧ t ∈ sp_ticker <$> cs.
Proof.
  intros Hloop Hun Hslots.
  pose proof (coiling_loop_order _ _ _ _ _ _ _ _ _ _ _ Hloop) as Horder.
  cbn in Horder. split; [exact Horder|]. intros t e. rewrite Horder.
  unfold has_entry.
  rewrite (coiling_loop_trail _ _ _ _ _ _ _ _ _ _ _ t Hloop).
  case_bool_decide as Hin.
  - apply list_elem_of_filter in Hin as Hw. destruct Hw as [Hw _].
    destruct (Hslots t) as [slot Hslot].
    { eapply watch_has_record. by apply Is_true_true. }
    rewrite Hslot. cbn. split.
    + intros (slot' & [= <-] & He). rewrite lookup_insert_eq in He.
      split; [congruence|done].
    + intros [-> _]. eexists. split; [done|]. by rewrite lookup_insert_eq.
  - split; [|by intros [_ ?]]. intros (slot & Hslot & He).
    exfalso. apply (Hun t e). by exists slot.
Qed.

End StatusTags.

Section PipelineEffects.

Variable gate1_run : gmap string DataFrame → option metamap → gate_output.
Variable gate2_run : list string → gate_output.
Variable gate2b_run : list string → metamap → gate_output.
Variable gate3_run : gmap string DataFrame → gate_output.
Variable gate4_run : gmap string DataFrame → gate_output.

Let pipeline := run_pipeline gate1_run gate2_run gate2b_run gate3_run gate4_run.

Local Arguments select_data : simpl never.
Local Arguments for_each : simpl never.
Local Arguments list_to_set : simpl never.
Local Arguments market_cap_map : simpl never.

Local Ltac key_error S :=
  let t := fresh "t" in
  let Ht := fresh "Ht" in
  let Hnone := fresh "Hnone" in
  apply select_data_raise in S as (-> & t & Ht & Hnone);
  left; split; [reflexivity|]; eexists _, t;
  split; [reflexivity|]; split; [exact Ht|exact Hnone].

Local Ltac effects_leaf :=
  split; [|split; [|intros ? ? ? ? Hc3; discriminate Hc3]];
  [ intros e He; first
      [ discriminate He
      | injection He as <-;
        match goal with
        | S : select_data _ _ = Raise _ |- _ => key_error S
        end ]
  | intros cands rat springs Hout; first
      [ discriminate Hout
      | injection Hout as <- <- <-; left;
        split; [cbn; lia|]; split; [reflexivity|];
        repeat (apply untagged_log; [done|]); apply untagged_empty ] ].

Lemma run_pipeline_effects ticker_data sector_map :
  let calls := (pipeline ticker_data sector_map []).1 in
  let outcome := (pipeline ticker_data sector_map []).2 in
  (∀ e, outcome = Raise e →
     (e = KeyError ∧
      ∃ c t, last calls = Some c ∧ t ∈ gc_passed c ∧ ticker_data !! t = None)
     ∨ (e = TypeError ∧
        ∃ c2b c3 t,
          calls !! 2%nat = Some c2b ∧ last calls = Some c3 ∧
          gc_stage c3 = Gate3 ∧ t ∈ gc_passed c2b ∧ (t ∉ gc_passed c3) ∧
          is_str (gate3_reason (gc_results c3) t) = false))
  ∧ (∀ cands rat springs,
       outcome = Ok (cands, rat, springs) →
       ((length calls ≤ 3)%nat ∧ springs = [] ∧ untagged rat)
       ∨ ∃ c2b c3,
           calls !! 2%nat = Some c2b ∧ calls !! 3%nat = Some c3 ∧
           sp_ticker <$> springs =
             filter (λ t, on_watchlist (gc_passed c3) (gc_results c3) t)
               (gc_passed c2b) ∧
           ∀ t e, has_entry rat t "status" e ↔
                  e = EStatus "COILING_SPRING" ∧ t ∈ sp_ticker <$> springs)
  ∧ (∀ c2b c3 t,
       calls !! 2%nat = Some c2b → calls !! 3%nat = Some c3 →
       t ∈ gc_passed c2b → t ∉ gc_passed c3 →
       is_str (gate3_reason (gc_results c3) t) = false →
       outcome = Raise TypeError).
Proof.
  subst pipeline. unfold run_pipeline.
  unfold mbind, M_bind, mret, M_ret, call_on_data, call_on_list, lift. cbn.
  destruct (gate1_run ticker_data sector_map) as [p1 r1] eqn:E1. cbn.
  destruct p1 as [|t1 p1]; cbn; [solve [effects_leaf]|].
  destruct (select_data ticker_data (t1 :: p1)) as [d1|e1] eqn:S1; cbn;
    [|solve [effects_leaf]].
  destruct (gate2_run (t1 :: p1)) as [p2 r2] eqn:E2. cbn.
  destruct p2 as [|t2 p2]; cbn; [solve [effects_leaf]|].
  destruct (gate2b_run (t2 :: p2) _) as [p2b r2b] eqn:E2b. cbn.
  destruct p2b as [|t2b p2b]; cbn; [solve [effects_leaf]|].
  destruct (select_data ticker_data (t2b :: p2b)) as [d2b|e2b] eqn:S2b; cbn;
    [|solve [effects_leaf]].
  destruct (gate3_run d2b) as [p3 r3] eqn:E3. cbn.
  destruct (for_each _ _ (t2b :: p2b)) as [[cs rat]|e] eqn:Hloop; cbn.
  2:{ apply coiling_loop_raise in Hloop as (-> & t & Ht & Hrej & Hstr).
      split; [|split; [discriminate|done]].
      intros e' [= <-]. right.
      split; [reflexivity|]. eexists _, _, t.
      repeat (split; [reflexivity|]). cbn. done. }
  assert (∀ c2b c3 t,
            Some (GateCall Gate2B (list_to_set (t2 :: p2)) (t2b :: p2b) r2b)
              = Some c2b →
            Some (GateCall Gate3 (dom d2b) p3 r3) = Some c3 →
            t ∈ gc_passed c2b → t ∉ gc_passed c3 →
            is_str (gate3_reason (gc_results c3) t) = false → False) as Hstrs.
  { intros c2b c3 t [= <-] [= <-] Ht Hrej Hstr. cbn in Ht, Hrej, Hstr.
    rewrite (coiling_loop_raises _ _ _ _ _ _ _ _ t Ht Hrej Hstr) in Hloop.
    discriminate Hloop. }
  apply status_after_loop in Hloop as [Horder Htags].
  2:{ repeat (apply untagged_log; [done|]). apply untagged_empty. }
  2:{ intros t Ht. by apply log_gate_results_slot. }
  destruct p3 as [|t3 p3]; cbn.
  { split; [discriminate|]. split.
    - intros ? ? ? [= <- <- <-]. right.
      eexists _, _. repeat (split; [reflexivity|]). cbn. done.
    - intros c2b c3 t H2 H3 ? ? ?. by destruct (Hstrs c2b c3 t). }
  destruct (select_data ticker_data (t3 :: p3)) as [d3|e3] eqn:S3; cbn.
  2:{ split; [intros e [= <-]; key_error S3|]. split; [discriminate|].
      intros c2b c3 t H2 H3 ? ? ?. by destruct (Hstrs c2b c3 t). }
  destruct (gate4_run d3) as [p4 r4] eqn:E4. cbn.
  split; [discriminate|]. split.
  - intros ? ? ? [= <- <- <-]. right.
    eexists _, _. repeat (split; [reflexivity|]). cbn. split; [done|].
    intros t e. rewrite <- Htags. split.
    + by apply log_gate_results_keeps_inv.
    + by apply log_gate_results_keeps.
  - intros c2b c3 t H2 H3 ? ? ?. by destruct (Hstrs c2b c3 t).
Qed.

End PipelineEffects.

(** ** The trace of [run_scan] *)

Lemma dict_merge_lookup {V : Type} (a b : gmap string V) t :
  dict_merge a b !! t = match b !! t with Some v => Some v | None => a !! t end.
Proof.
  unfold dict_merge. destruct (b !! t) as [v|] eqn:Hb.
  - by apply lookup_union_Some_l.
  - by rewrite lookup_union_r.
Qed.

Lemma tag_coiling_finds finds tickers g3_rationale t :
  t ∈ finds →
  foldl (tag_coiling finds) g3_rationale tickers !! t = g3_rationale !! t.
Proof.
  intros Hin. revert g3_rationale.
  induction tickers as [|t0 tickers IH]; intros g; cbn; [done|].
  rewrite IH. unfold tag_coiling. case_bool_decide as Hf; [done|].
  assert (t0 ≠ t) by congruence.
  destruct (g !! t0); by rewrite lookup_insert_ne.
Qed.

Section PostProcess.

Variable average_true_range : nat → DataFrame → res float64.
Variable generate_trade_chart :
  string → DataFrame → trade_meta → pyval → string → res pyval.

Let process := post_process average_true_range generate_trade_chart.
Let collect := collect_results average_true_range generate_trade_chart.

Lemma collect_results_elem ticker_data universe finds g3_rationale tickers c :
  c ∈ collect ticker_data universe finds g3_rationale tickers ↔
  ∃ t, t ∈ tickers ∧ process ticker_data universe finds g3_rationale t = Ok c.
Proof.
  subst collect process. induction tickers as [|t0 tickers IH]; cbn.
  - split; [by intros ?%elem_of_nil|]. by intros (t & ?%elem_of_nil & _).
  - destruct (post_process _ _ _ _ _ _ t0) as [c0|e] eqn:Hp.
    + rewrite elem_of_cons, IH. split.
      * intros [->|(t & Ht & Hc)]; [exists t0|exists t];
          (split; [apply elem_of_cons; first [by left|by right]|done]).
      * intros (t & [->|Ht]%elem_of_cons & Hc); [left; congruence|].
        right. by exists t.
    + rewrite IH. split.
      * intros (t & Ht & Hc). exists t. split; [apply elem_of_cons; by right|done].
      * intros (t & [->|Ht]%elem_of_cons & Hc); [congruence|]. by exists t.
Qed.

(** What a successful pass through the [try] block has computed. *)
Lemma post_process_inv ticker_data universe finds g3_rationale t c :
  process ticker_data universe finds g3_rationale t = Ok c →
  ∃ df entry atr,
    ticker_data !! t = Some df ∧ last_close df = Ok entry ∧
    average_true_range 14 df = Ok atr ∧
    c_ticker c = t ∧
    c_status c = (if bool_decide (t ∈ finds) then "BUY" else "COILING_SPRING") ∧
    c_pattern c = default (VStr "") (default ∅ (g3_rationale !! t) !! "pattern") ∧
    holding_period (c_pattern c) = Ok (tm_period (c_trade c)) ∧
    tm_risk_reward (c_trade c) = "1:2" ∧
    tm_entry (c_trade c) = round2 entry ∧
    tm_sl (c_trade c) = round2 (trade_levels entry atr).1.1 ∧
    tm_target (c_trade c) = round2 (trade_levels entry atr).2.
Proof.
  subst process. unfold post_process.
  destruct (ticker_data !! t) as [df|]; cbn; [|done].
  destruct (last_close df) as [entry|] eqn:Hentry; cbn; [|done].
  destruct (average_true_range 14 df) as [atr|] eqn:Hatr; cbn; [|done].
  destruct (holding_period _) as [period|] eqn:Hperiod; cbn; [|done].
  repeat match goal with
         | |- (?m ≫= _) = Ok _ → _ => destruct m as [?|]; cbn; [|done]
         end.
  intros [= <-]. exists df, entry, atr. cbn. by rewrite Hperiod.
Qed.

End PostProcess.

Section ScanTrace.

Variable gate1_run : gmap string DataFrame → option metamap → gate_output.
Variable gate2_run : list string → gate_output.
Variable gate2b_run : list string → metamap → gate_output.
Variable gate3_run : gmap string DataFrame → gate_output.
Variable average_true_range : nat → DataFrame → res float64.
Variable generate_trade_chart :
  string → DataFrame → trade_meta → pyval → string → res pyval.

Let scan :=
  run_scan gate1_run gate2_run gate2b_run gate3_run
    average_true_range generate_trade_chart.
Let collect := collect_results average_true_range generate_trade_chart.

Local Arguments select_data : simpl never.
Local Arguments list_to_set : simpl never.

Lemma run_scan_trace ticker_data universe :
  let calls := (scan ticker_data universe []).1 in
  let outcome := (scan ticker_data universe []).2 in
  (∀ c, calls !! 0%nat = Some c → gc_input c = dom ticker_data)
  ∧ chained calls
  ∧ (∀ e, outcome = Raise e →
       ∃ c2b, calls !! 2%nat = Some c2b ∧
              select_data ticker_data (gc_passed c2b) = Raise e)
  ∧ (∀ out, outcome = Ok out →
       (so_results out = [] ∧ so_snapshot out = None) ∨
       ∃ c1 c2 c2b c3,
         calls = [c1; c2; c2b; c3] ∧
         gc_stage <$> calls = [Gate1; Gate2; Gate2B; Gate3] ∧
         (∃ d, select_data ticker_data (gc_passed c2b) = Ok d) ∧
         let g3_rationale :=
           foldl (tag_coiling (gc_passed c3)) (gc_results c3) (gc_passed c2b) in
         so_results out =
           collect ticker_data universe (gc_passed c3) g3_rationale (gc_passed c2b) ∧
         so_snapshot out =
           Some (so_results out,
                 dict_merge
                   (dict_merge (dict_merge (gc_results c1) (gc_results c2))
                      (gc_results c2b))
                   g3_rationale)).
Proof.
  subst scan collect. unfold run_scan.
  unfold mbind, M_bind, mret, M_ret, call_on_data, call_on_list, lift. cbn.
  destruct (gate1_run ticker_data (Some universe)) as [p1 r1] eqn:E1. cbn.
  destruct p1 as [|t1 p1]; cbn.
  { repeat apply conj; [by intros c [= <-] | intros i c c' ??; by destruct i
                       | done | intros out [= <-]; by left ]. }
  destruct (gate2_run (t1 :: p1)) as [p2 r2] eqn:E2. cbn.
  destruct (gate2b_run p2 universe) as [p2b r2b] eqn:E2b. cbn.
  assert (∀ cs, (length cs ≤ 4)%nat →
            (∀ i c c', cs !! i = Some c → cs !! S i = Some c' →
               (i < 3)%nat → gc_input c' = list_to_set (gc_passed c)) →
            chained cs) as Hchain.
  { intros cs Hlen H i c c' Hc Hc'. apply (H i c c' Hc Hc').
    apply lookup_lt_Some in Hc'. lia. }
  destruct p2b as [|t2b p2b]; cbn.
  { repeat apply conj; [by intros c [= <-] | | done | intros out [= <-]; by left ].
    apply Hchain; [cbn; lia|]. intros i c c' Hc Hc' Hi.
    do 3 (try destruct i as [|i]); cbn in Hc, Hc'; simplify_eq; cbn; done. }
  destruct (select_data ticker_data (t2b :: p2b)) as [d|e] eqn:S; cbn.
  2:{ repeat apply conj; [by intros c [= <-] | | | done].
      - apply Hchain; [cbn; lia|]. intros i c c' Hc Hc' Hi.
        do 3 (try destruct i as [|i]); cbn in Hc, Hc'; simplify_eq; cbn; done.
      - intros e' [= <-]. eexists. split; [reflexivity|done]. }
  destruct (gate3_run d) as [finds r3] eqn:E3. cbn.
  repeat apply conj; [by intros c [= <-] | | done | ].
  - apply Hchain; [cbn; lia|]. intros i c c' Hc Hc' Hi.
    do 3 (try destruct i as [|i]); cbn in Hc, Hc'; simplify_eq; cbn;
      try done; eauto using select_data_dom; lia.
  - intros out [= <-]. right. do 4 eexists. cbn.
    repeat split; eauto.
Qed.

End ScanTrace.

(** ** Rounding to two decimals *)

Lemma round_half_even_comp q q' : (q == q')%Q → round_half_even q = round_half_even q'.
Proof.
  intros Heq. unfold round_half_even.
  rewrite (Qfloor_comp _ _ Heq).
  assert ((q - inject_Z (Qfloor q') ?= 1 # 2) = (q' - inject_Z (Qfloor q') ?= 1 # 2))%Q
    as -> by (by rewrite Heq).
  done.
Qed.

Lemma round_half_even_nearest q :
  (Qabs (inject_Z (round_half_even q) - q) <= 1 # 2)%Q.
Proof.
  unfold round_half_even.
  pose proof (Qfloor_le q) as Hlo. pose proof (Qlt_floor q) as Hhi.
  rewrite inject_Z_plus in Hhi. change (inject_Z 1) with 1%Q in Hhi.
  apply Qabs_Qle_condition.
  destruct (q - inject_Z (Qfloor q) ?= 1 # 2)%Q eqn:Hcmp.
  - apply Qeq_alt in Hcmp.
    destruct (Z.even (Qfloor q)); [|rewrite inject_Z_plus; change (inject_Z 1) with 1%Q];
      split; lra.
  - apply Qlt_alt in Hcmp. split; lra.
  - apply Qgt_alt in Hcmp. rewrite inject_Z_plus. change (inject_Z 1) with 1%Q.
    split; lra.
Qed.

Lemma round2_rounded x : rounded_to_cents (round2 x) x.
Proof.
  unfold rounded_to_cents, round2.
  destruct x as [s|s| |s m e]; cbn [float_value]; try reflexivity.
  - exists 0%Z, s. split; [reflexivity|]. by vm_compute.
  - set (q := ((if s then -1 else 1) * inject_Z (Z.pos m) * 2 ^ e)%Q).
    exists (round_half_even (q * 100)), s. split; [reflexivity|].
    pose proof (round_half_even_nearest (q * 100)) as H.
    apply Qabs_Qle_condition in H as [H1 H2]. apply Qabs_Qle_condition.
    unfold Qdiv. change (/ 100)%Q with (1 # 100)%Q. split; lra.
Qed.

(** *** Rounded results are numbers *)

Lemma shr_1_nonneg mrs : (0 ≤ shr_m mrs)%Z → (0 ≤ shr_m (shr_1 mrs))%Z.
Proof. destruct mrs as [[|[p|p|]|p] r b]; cbn; lia. Qed.

Lemma iter_pos_invariant {A : Type} (P : A → Prop) (f : A → A) :
  (∀ x, P x → P (f x)) → ∀ p x, P x → P (SpecFloat.iter_pos f p x).
Proof. intros Hf. induction p as [p IH|p IH|]; intros x Hx; cbn; auto. Qed.

Lemma shr_fexp_nonneg m e l :
  (0 ≤ m)%Z → (0 ≤ shr_m (shr_fexp prec emax m e l).1)%Z.
Proof.
  intros Hm. unfold shr_fexp, shr.
  assert (0 ≤ shr_m (shr_record_of_loc m l))%Z as H0
    by (by destruct l as [|[]]).
  destruct (fexp prec emax (Zdigits2 m + e) - e)%Z as [|p|p]; cbn [fst]; try done.
  by apply (iter_pos_invariant (λ mrs, (0 ≤ shr_m mrs)%Z) shr_1 shr_1_nonneg).
Qed.

Lemma binary_round_aux_not_nan sx mx ex lx :
  (0 ≤ mx)%Z → binary_round_aux prec emax sx mx ex lx ≠ S754_nan.
Proof.
  intros Hm. unfold binary_round_aux.
  pose proof (shr_fexp_nonneg mx ex lx Hm) as H1.
  destruct (shr_fexp prec emax mx ex lx) as [mrs1 e1]. cbn [fst] in H1.
  assert (0 ≤ round_nearest_even (shr_m mrs1) (loc_of_shr_record mrs1))%Z as Hr.
  { unfold round_nearest_even.
    destruct (loc_of_shr_record mrs1) as [|[]]; try lia.
    destruct (Z.even (shr_m mrs1)); lia. }
  pose proof (shr_fexp_nonneg _ e1 loc_Exact Hr) as H2.
  destruct (shr_fexp prec emax _ e1 loc_Exact) as [mrs2 e2]. cbn [fst] in H2.
  destruct (shr_m mrs2) as [|m|m]; [done| |lia].
  by destruct (e2 <=? emax - prec)%Z.
Qed.

Lemma fdiv_finite_not_nan sx mx ex sy my ey :
  fdiv (S754_finite sx mx ex) (S754_finite sy my ey) ≠ S754_nan.
Proof.
  unfold fdiv, SFdiv, SFdiv_core_binary.
  set (m' := match (ex - ey - _)%Z with
             | Z0 => Z.pos mx
             | Z.pos _ => Z.shiftl (Z.pos mx) _
             | Z.neg _ => 0%Z
             end).
  assert (0 ≤ m')%Z as Hm'.
  { subst m'. destruct (ex - ey - _)%Z; [lia| |lia]. by apply Z.shiftl_nonneg. }
  destruct (Z.div_eucl m' (Z.pos my)) as [q r] eqn:Hdiv.
  apply binary_round_aux_not_nan.
  assert (q = (m' / Z.pos my)%Z) as -> by (unfold Z.div; by rewrite Hdiv).
  apply Z.div_pos; lia.
Qed.

Lemma cents_not_nan negative k : cents negative k ≠ S754_nan.
Proof. destruct k; [done|apply fdiv_finite_not_nan..]. Qed.

Lemma round2_not_nan x : is_finite x = true → round2 x ≠ S754_nan.
Proof.
  destruct x as [s|s| |s m e]; try done. intros _.
  unfold round2. cbn [float_value]. apply cents_not_nan.
Qed.

Lemma float_eq_refl x : x ≠ S754_nan → float_eq x x.
Proof.
  unfold float_eq, SFeqb, SFcompare.
  destruct x as [s|[]| |[] m e]; try done; intros _;
    by rewrite Z.compare_refl, Pos.compare_cont_refl.
Qed.

(** With an ATR of zero the stop and the target are the entry and the risk
    is zero. *)
Lemma trade_levels_zero_atr entry atr :
  is_zero atr = true → is_finite entry = true →
  let '(sl, risk, target) := trade_levels entry atr in
  float_eq (round2 sl) (round2 entry) ∧ float_eq (round2 target) (round2 entry) ∧
  float_eq sl entry ∧ float_eq target entry ∧ is_zero risk = true.
Proof.
  destruct atr as [sa| | |]; try done. intros _.
  destruct entry as [se| | |se m e]; try done; intros _.
  - by destruct se, sa.
  - unfold trade_levels.
    assert (fmul (float_of_Z 2) (S754_zero sa) = S754_zero sa) as ->
      by (by destruct sa).
    assert (fsub (S754_finite se m e) (S754_zero sa) = S754_finite se m e) as ->
      by reflexivity.
    assert (fsub (S754_finite se m e) (S754_finite se m e) = S754_zero false) as ->.
    { unfold fsub, SFsub, shl_align. rewrite Z.min_id.
      replace (e - e)%Z with 0%Z by lia. cbn [fst].
      set (x := cond_Zopp se (Z.pos m)).
      by replace (x - x)%Z with 0%Z by lia. }
    assert (fmul (float_of_Z 2) (S754_zero false) = S754_zero false) as ->
      by reflexivity.
    assert (fadd (S754_finite se m e) (S754_zero false) = S754_finite se m e) as ->
      by reflexivity.
    assert (float_eq (round2 (S754_finite se m e)) (round2 (S754_finite se m e)))
      as Hr by (by apply float_eq_refl, round2_not_nan).
    assert (float_eq (S754_finite se m e) (S754_finite se m e)) as He
      by (by apply float_eq_refl).
    done.
Qed.

(** ** Narrowing *)

Lemma stage_at (calls : list gate_call) n i c :
  gc_stage <$> calls = take n stage_order →
  calls !! i = Some c → stage_order !! i = Some (gc_stage c).
Proof.
  intros Hpre Hc.
  assert ((gc_stage <$> calls) !! i = Some (gc_stage c)) as Hi
    by (by rewrite list_lookup_fmap, Hc).
  rewrite Hpre in Hi. by apply lookup_take_Some in Hi as [? _].
Qed.

Section Narrowing.

Variable eval1 : gmap string DataFrame → option metamap → string → result_dict.
Variable eval2 : string → result_dict.
Variable eval2b : metamap → string → result_dict.
Variable eval3 : gmap string DataFrame → string → result_dict.
Variable eval4 : gmap string DataFrame → string → result_dict.

Variable gate1_run : gmap string DataFrame → option metamap → gate_output.
Variable gate2_run : list string → gate_output.
Variable gate2b_run : list string → metamap → gate_output.
Variable gate3_run : gmap string DataFrame → gate_output.
Variable average_true_range : nat → DataFrame → res float64.
Variable generate_trade_chart :
  string → DataFrame → trade_meta → pyval → string → res pyval.

Let pipeline :=
  run_pipeline (SpecGates.gate1_run eval1) (SpecGates.gate2_run eval2)
    (SpecGates.gate2b_run eval2b) (SpecGates.gate3_run eval3)
    (SpecGates.gate4_run eval4).
Let scan :=
  run_scan gate1_run gate2_run gate2b_run gate3_run
    average_true_range generate_trade_chart.

Lemma spec_genuine_narrows sector_map c :
  genuine (SpecGates.gate1_run eval1) (SpecGates.gate2_run eval2)
    (SpecGates.gate2b_run eval2b) (SpecGates.gate3_run eval3)
    (SpecGates.gate4_run eval4) sector_map c →
  (∀ t, t ∈ gc_passed c → t ∈ gc_input c) ∧
  (∀ t r, gc_results c !! t = Some r → t ∈ gc_input c).
Proof.
  unfold genuine, SpecGates.gate1_run, SpecGates.gate2_run, SpecGates.gate2b_run,
    SpecGates.gate3_run, SpecGates.gate4_run.
  destruct (gc_stage c); intros (x & -> & Hout);
    apply (f_equal fst) in Hout as Hp; apply (f_equal snd) in Hout as Hr;
    cbn [fst snd] in Hp, Hr; rewrite Hp, Hr; split;
    [ intros t Ht%spec_gate_narrows | intros t r [Ht _]%spec_gate_results
    | intros t Ht%spec_gate_narrows | intros t r [Ht _]%spec_gate_results
    | intros t Ht%spec_gate_narrows | intros t r [Ht _]%spec_gate_results
    | intros t Ht%spec_gate_narrows | intros t r [Ht _]%spec_gate_results
    | intros t Ht%spec_gate_narrows | intros t r [Ht _]%spec_gate_results ];
    first [ by apply batch_keys_elem | by apply elem_of_list_to_set ].
Qed.

(** C2. With gates that behave as the specification describes them, the
    survivors of Gate 1 are instruments of the batch, the survivors of every
    later gate are survivors of the gate before it, and no gate produces a
    record for an instrument the gate before it turned down; the candidates
    and the watchlist returned by [run_pipeline] are survivors of Gate 2B.
    In [run_scan], for any gates, every candidate emitted is a survivor of
    Gate 2B. *)
Theorem survivors_only_narrow ticker_data sector_map universe :
  let calls := (pipeline ticker_data sector_map []).1 in
  let outcome := (pipeline ticker_data sector_map []).2 in
  (∀ c t, calls !! 0%nat = Some c → t ∈ gc_passed c → t ∈ dom ticker_data)
  ∧ (∀ i c c', calls !! i = Some c → calls !! S i = Some c' →
       (∀ t, t ∈ gc_passed c' → t ∈ gc_passed c) ∧
       (∀ t r, gc_results c' !! t = Some r → t ∈ gc_passed c))
  ∧ (∀ candidates rationale springs t,
       outcome = Ok (candidates, rationale, springs) →
       t ∈ candidates ∨ t ∈ (sp_ticker <$> springs) →
       ∃ c2b, calls !! 2%nat = Some c2b ∧ gc_stage c2b = Gate2B ∧
              t ∈ gc_passed c2b)
  ∧ (∀ out c,
       (scan ticker_data universe []).2 = Ok out → c ∈ so_results out →
       ∃ c2b, (scan ticker_data universe []).1 !! 2%nat = Some c2b ∧
              gc_stage c2b = Gate2B ∧ c_ticker c ∈ gc_passed c2b).
Proof.
  intros calls outcome.
  destruct (run_pipeline_trace (SpecGates.gate1_run eval1) (SpecGates.gate2_run eval2)
              (SpecGates.gate2b_run eval2b) (SpecGates.gate3_run eval3)
              (SpecGates.gate4_run eval4) ticker_data sector_map)
    as ([n [_ Hprefix]] & Hfirst & Hchain & Hgen & _ & Hout).
  fold pipeline in Hprefix, Hfirst, Hchain, Hgen, Hout.
  fold calls in Hprefix, Hfirst, Hchain, Hgen, Hout. fold outcome in Hout.
  assert (∀ i c, calls !! i = Some c →
            (∀ t, t ∈ gc_passed c → t ∈ gc_input c) ∧
            (∀ t r, gc_results c !! t = Some r → t ∈ gc_input c)) as Hnarrow.
  { intros i c Hc. apply (spec_genuine_narrows sector_map), Hgen.
    by eapply list_elem_of_lookup_2. }
  assert (∀ i c c', calls !! i = Some c → calls !! S i = Some c' →
            ∀ t, t ∈ gc_passed c' → t ∈ gc_passed c) as Hstep.
  { intros i c c' Hc Hc' t Ht. apply (Hnarrow _ _ Hc') in Ht.
    rewrite (Hchain _ _ _ Hc Hc') in Ht. by apply elem_of_list_to_set in Ht. }
  repeat apply conj.
  - intros c t Hc Ht. rewrite <- (Hfirst _ Hc). by apply (Hnarrow _ _ Hc).
  - intros i c c' Hc Hc'. split; [by eapply Hstep|].
    intros t r Hr. apply (Hnarrow _ _ Hc') in Hr.
    rewrite (Hchain _ _ _ Hc Hc') in Hr. by apply elem_of_list_to_set in Hr.
  - intros candidates rationale springs t Heq Ht.
    destruct (Hout _ _ _ Heq) as (_ & Hcands & Hsprings).
    destruct Ht as [Ht|Ht].
    + destruct Hcands as [->|(c4 & Hc4 & ->)]; [by apply elem_of_nil in Ht|].
      destruct (calls !! 3%nat) as [c3|] eqn:Hc3;
        [|apply lookup_ge_None in Hc3; apply lookup_lt_Some in Hc4; lia].
      destruct (calls !! 2%nat) as [c2b|] eqn:Hc2b;
        [|apply lookup_ge_None in Hc2b; apply lookup_lt_Some in Hc4; lia].
      exists c2b. split; [done|]. split.
      * pose proof (stage_at _ _ _ _ Hprefix Hc2b) as Hs. by injection Hs.
      * eapply Hstep; [exact Hc2b|exact Hc3|]. eapply Hstep; [exact Hc3|exact Hc4|done].
    + destruct Hsprings as [->|(c2b & c3 & Hc2b & Hc3 & Hw)];
        [by apply elem_of_nil in Ht|].
      exists c2b. split; [done|]. split.
      * pose proof (stage_at _ _ _ _ Hprefix Hc2b) as Hs. by injection Hs.
      * by apply Hw in Ht as [? _].
  - intros out c Heq Hin.
    destruct (run_scan_trace gate1_run gate2_run gate2b_run gate3_run
                average_true_range generate_trade_chart ticker_data universe)
      as (_ & _ & _ & Hok).
    destruct (Hok _ Heq) as [[Hnil _]|(c1 & c2 & c2b & c3 & Hcalls & Hst & _ & Hres & _)].
    { rewrite Hnil in Hin. by apply elem_of_nil in Hin. }
    fold scan in Hcalls, Hst. exists c2b. rewrite Hcalls. split; [done|].
    rewrite Hcalls in Hst. injection Hst as _ _ H2b _. split; [done|].
    rewrite Hres in Hin. apply collect_results_elem in Hin as (t & Ht & Hp).
    apply post_process_inv in Hp as (_ & _ & _ & _ & _ & _ & <- & _). done.
Qed.

End Narrowing.

(** ** The order of the gates and the short circuit *)

Lemma gate_result_dict_reason g :
  gate_result_dict g !! "reason" = Some (VStr (gr_reason g)).
Proof.
  unfold gate_result_dict. rewrite lookup_insert_ne by done.
  apply lookup_insert_eq.
Qed.

Section Progress.

Variable gate1_run : gmap string DataFrame → option metamap → gate_output.
Variable gate2_run : list string → gate_output.
Variable gate2b_run : list string → metamap → gate_output.
Variable gate3_run : gmap string DataFrame → gate_output.
Variable gate4_run : gmap string DataFrame → gate_output.

Let pipeline := run_pipeline gate1_run gate2_run gate2b_run gate3_run gate4_run.

Local Arguments select_data : simpl never.
Local Arguments for_each : simpl never.
Local Arguments list_to_set : simpl never.
Local Arguments market_cap_map : simpl never.

Local Ltac stop_leaf tac :=
  split; [tac|intros ? ? ? Hout; first [discriminate Hout|by injection Hout as <- _ _]].

(** The pipeline stops only after Gate 4, at a gate without survivors, or
    by an exception; and the candidates it returns are the survivors of
    Gate 4, none if Gate 4 was not reached. *)
Lemma run_pipeline_progress ticker_data sector_map :
  let calls := (pipeline ticker_data sector_map []).1 in
  let outcome := (pipeline ticker_data sector_map []).2 in
  (length calls = 5%nat
   ∨ (∃ c, last calls = Some c ∧ gc_passed c = [])
   ∨ (∃ e, outcome = Raise e))
  ∧ (∀ candidates rationale springs,
       outcome = Ok (candidates, rationale, springs) →
       candidates = match calls !! 4%nat with
                    | Some c4 => gc_passed c4
                    | None => []
                    end).
Proof.
  subst pipeline. unfold run_pipeline.
  unfold mbind, M_bind, mret, M_ret, call_on_data, call_on_list, lift. cbn.
  destruct (gate1_run ticker_data sector_map) as [p1 r1] eqn:E1. cbn.
  destruct p1 as [|t1 p1]; cbn; [stop_leaf ltac:(right; left; by eexists)|].
  destruct (select_data ticker_data (t1 :: p1)) as [d1|e1] eqn:S1; cbn;
    [|stop_leaf ltac:(right; right; by eexists)].
  destruct (gate2_run (t1 :: p1)) as [p2 r2] eqn:E2. cbn.
  destruct p2 as [|t2 p2]; cbn; [stop_leaf ltac:(right; left; by eexists)|].
  destruct (gate2b_run (t2 :: p2) _) as [p2b r2b] eqn:E2b. cbn.
  destruct p2b as [|t2b p2b]; cbn; [stop_leaf ltac:(right; left; by eexists)|].
  destruct (select_data ticker_data (t2b :: p2b)) as [d2b|e2b] eqn:S2b; cbn;
    [|stop_leaf ltac:(right; right; by eexists)].
  destruct (gate3_run d2b) as [p3 r3] eqn:E3. cbn.
  destruct (for_each _ _ (t2b :: p2b)) as [[cs rat]|e] eqn:Hloop; cbn;
    [|stop_leaf ltac:(right; right; by eexists)].
  destruct p3 as [|t3 p3]; cbn; [stop_leaf ltac:(right; left; by eexists)|].
  destruct (select_data ticker_data (t3 :: p3)) as [d3|e3] eqn:S3; cbn;
    [|stop_leaf ltac:(right; right; by eexists)].
  destruct (gate4_run d3) as [p4 r4] eqn:E4. cbn.
  stop_leaf ltac:(by left).
Qed.

End Progress.

Section PipelineOrder.

Variable eval1 : gmap string DataFrame → option metamap → string → GateResult.
Variable eval2 : string → GateResult.
Variable eval2b : metamap → string → GateResult.
Variable eval3 : gmap string DataFrame → string → GateResult.
Variable eval4 : gmap string DataFrame → string → GateResult.

Let gate1_run := TypedGates.gate1_run eval1.
Let gate2_run := TypedGates.gate2_run eval2.
Let gate2b_run := TypedGates.gate2b_run eval2b.
Let gate3_run := TypedGates.gate3_run eval3.
Let gate4_run := TypedGates.gate4_run eval4.
Let pipeline := run_pipeline gate1_run gate2_run gate2b_run gate3_run gate4_run.

Lemma typed_reasons_are_strings data : reasons_are_strings (gate3_run data).2.
Proof.
  intros t r Hr. apply spec_gate_results in Hr as [_ ->].
  unfold reason_is_string. by rewrite gate_result_dict_reason.
Qed.

Lemma typed_gate3_reason data t :
  is_str (gate3_reason (gate3_run data).2 t) = true.
Proof.
  unfold gate3_reason.
  destruct ((gate3_run data).2 !! t) as [r|] eqn:Hr; cbn; [|by rewrite lookup_empty].
  apply spec_gate_results in Hr as [_ ->]. by rewrite gate_result_dict_reason.
Qed.

Lemma typed_genuine_narrows sector_map c t :
  genuine gate1_run gate2_run gate2b_run gate3_run gate4_run sector_map c →
  t ∈ gc_passed c → t ∈ gc_input c.
Proof.
  intros Hgen.
  exact (proj1 (spec_genuine_narrows
                  (λ data sm t, gate_result_dict (eval1 data sm t))
                  (λ t, gate_result_dict (eval2 t))
                  (λ mcm t, gate_result_dict (eval2b mcm t))
                  (λ data t, gate_result_dict (eval3 data t))
                  (λ data t, gate_result_dict (eval4 data t))
                  sector_map c Hgen) t).
Qed.

(** With gates that only narrow, every survivor is an instrument of the
    batch. *)
Lemma typed_survivors_in_batch ticker_data sector_map i c t :
  (pipeline ticker_data sector_map []).1 !! i = Some c →
  t ∈ gc_passed c → t ∈ dom ticker_data.
Proof.
  destruct (run_pipeline_trace gate1_run gate2_run gate2b_run gate3_run
              gate4_run ticker_data sector_map)
    as (_ & Hfirst & Hchain & Hgen & _).
  fold pipeline in Hfirst, Hchain, Hgen.
  revert c t. induction i as [|i IH]; intros c t Hc Ht.
  - rewrite <- (Hfirst c Hc).
    apply (typed_genuine_narrows sector_map c); [|done].
    apply Hgen. by eapply list_elem_of_lookup_2.
  - destruct ((pipeline ticker_data sector_map []).1 !! i) as [c0|] eqn:Hc0.
    2:{ apply lookup_ge_None in Hc0. apply lookup_lt_Some in Hc. lia. }
    apply (IH c0); [done|].
    assert (t ∈ gc_input c) as Hin.
    { apply (typed_genuine_narrows sector_map c); [|done].
      apply Hgen. by eapply list_elem_of_lookup_2. }
    rewrite (Hchain _ _ _ Hc0 Hc) in Hin. by apply elem_of_list_to_set in Hin.
Qed.

(** Such gates never make the pipeline raise. *)
Lemma typed_pipeline_returns ticker_data sector_map :
  ∃ out, (pipeline ticker_data sector_map []).2 = Ok out.
Proof.
  destruct ((pipeline ticker_data sector_map []).2) as [out|e] eqn:Hout;
    [by exists out|]. exfalso.
  destruct (run_pipeline_effects gate1_run gate2_run gate2b_run gate3_run
              gate4_run ticker_data sector_map) as (Hraise & _).
  fold pipeline in Hraise.
  destruct (Hraise e Hout)
    as [(_ & c & t & Hlast & Ht & Hnone)
       |(_ & c2b & c3 & t & _ & Hlast & Hst & _ & _ & Hstr)].
  - rewrite last_lookup in Hlast.
    apply (typed_survivors_in_batch _ _ _ _ t) in Hlast; [|done].
    apply elem_of_dom in Hlast as [df Hdf]. congruence.
  - destruct (run_pipeline_trace gate1_run gate2_run gate2b_run gate3_run
                gate4_run ticker_data sector_map)
      as (_ & _ & _ & Hgen & _).
    fold pipeline in Hgen.
    rewrite last_lookup in Hlast. apply list_elem_of_lookup_2 in Hlast.
    specialize (Hgen c3 Hlast). unfold genuine in Hgen. rewrite Hst in Hgen.
    destruct Hgen as (d & _ & Hres). apply (f_equal snd) in Hres.
    cbn [snd] in Hres. rewrite Hres in Hstr.
    rewrite (typed_gate3_reason d t) in Hstr. discriminate Hstr.
Qed.

(** C1. Whatever the batch, [run_pipeline] calls the gates in the order
    Gate 1, Gate 2, Gate 2B, Gate 3, Gate 4: Gate 1 is handed the batch and
    every later gate exactly the survivors of the gate before it (Gate 2B
    together with the cap-tier table built for them).  While a gate returns
    survivors the next gate is called; as soon as a gate returns none, no
    further gate is called.  In either case the pipeline returns, with a
    trail that holds, for every gate that ran and every instrument it
    evaluated, that gate's record under the gate's name; the candidate list
    is empty unless all five gates ran, and then it is what Gate 4 let
    through.  The gates are those of the data model: filters whose result
    records carry a reason string. *)
Theorem run_pipeline_gate_order ticker_data sector_map :
  let calls := (pipeline ticker_data sector_map []).1 in
  let outcome := (pipeline ticker_data sector_map []).2 in
  (∃ n, (1 ≤ n ≤ 5)%nat ∧ gc_stage <$> calls = take n stage_order)
  ∧ (∀ c, calls !! 0%nat = Some c → gc_input c = dom ticker_data)
  ∧ chained calls
  ∧ (∀ c, c ∈ calls →
       genuine gate1_run gate2_run gate2b_run gate3_run gate4_run sector_map c)
  ∧ (∀ i c, calls !! i = Some c → gc_passed c ≠ [] → (i < 4)%nat →
       is_Some (calls !! S i))
  ∧ (∀ i c, calls !! i = Some c → gc_passed c = [] → length calls = S i)
  ∧ ∃ candidates rationale springs,
      outcome = Ok (candidates, rationale, springs) ∧
      (∀ c, c ∈ calls → records rationale c) ∧
      candidates = match calls !! 4%nat with
                   | Some c4 => gc_passed c4
                   | None => []
                   end.
Proof.
  intros calls outcome.
  destruct (run_pipeline_trace gate1_run gate2_run gate2b_run gate3_run
              gate4_run ticker_data sector_map)
    as (Hprefix & Hfirst & Hchain & Hgen & Hshort & Hout).
  fold pipeline in Hprefix, Hfirst, Hchain, Hgen, Hshort, Hout.
  fold calls in Hprefix, Hfirst, Hchain, Hgen, Hshort, Hout.
  fold outcome in Hshort, Hout.
  specialize (Hshort typed_reasons_are_strings).
  destruct (typed_pipeline_returns ticker_data sector_map)
    as [[[candidates rationale] springs] Hok].
  fold outcome in Hok.
  destruct (run_pipeline_progress gate1_run gate2_run gate2b_run gate3_run
              gate4_run ticker_data sector_map) as [Hstop Hcands].
  fold pipeline in Hstop, Hcands. fold calls in Hstop, Hcands.
  fold outcome in Hstop, Hcands.
  do 4 (split; [assumption|]). split; [|split].
  - intros i c Hc Hne Hi. apply lookup_lt_is_Some.
    destruct Hstop as [Hlen|[(c0 & Hlast & Hnil)|[e He]]].
    + lia.
    + rewrite last_lookup in Hlast. apply lookup_lt_Some in Hc as Hlt.
      destruct (decide (length calls = S i)) as [Heq|Hneq]; [|lia].
      rewrite Heq in Hlast. cbn in Hlast. congruence.
    + congruence.
  - intros i c Hc Hnil. by destruct (Hshort i c Hc Hnil).
  - exists candidates, rationale, springs. split; [done|].
    destruct (Hout _ _ _ Hok) as (Hrec & _ & _). split; [done|].
    by apply (Hcands _ rationale springs).
Qed.

End PipelineOrder.

Lemma early_stop_stages :
  gc_stage <$> EarlyStop.pipeline_run.1 = [Gate1; Gate2] ∧
  gc_stage <$> EarlyStop.pipeline_run3.1 = [Gate1; Gate2; Gate2B; Gate3].
Proof. split; vm_compute; reflexivity. Qed.

Lemma run_pipeline_gate_order_witness :
  (gc_stage <$> EarlyStop.pipeline_run.1 = [Gate1; Gate2] ∧
   ∃ rationale springs,
     EarlyStop.pipeline_run.2 = Ok ([], rationale, springs) ∧
     ∀ c, c ∈ EarlyStop.pipeline_run.1 → records rationale c)
  ∧ (gc_stage <$> EarlyStop.pipeline_run3.1 = [Gate1; Gate2; Gate2B; Gate3] ∧
     ∃ rationale springs,
       EarlyStop.pipeline_run3.2 = Ok ([], rationale, springs) ∧
       ∀ c, c ∈ EarlyStop.pipeline_run3.1 → records rationale c).
Proof.
  destruct early_stop_stages as [Hst Hst3]. split.
  - split; [exact Hst|].
    destruct (run_pipeline_gate_order
                EarlyStop.eval1 EarlyStop.eval2 EarlyStop.eval2b EarlyStop.eval3
                EarlyStop.eval4 Scenario.ticker_data (Some Scenario.universe))
      as (_ & _ & _ & _ & _ & _ & candidates & rationale & springs
          & Hok & Hrec & Hcands).
    change (run_pipeline _ _ _ _ _ _ _ _) with EarlyStop.pipeline_run
      in Hok, Hrec, Hcands.
    assert (EarlyStop.pipeline_run.1 !! 4%nat = None) as Hnone.
    { apply lookup_ge_None. apply (f_equal length) in Hst.
      rewrite length_fmap in Hst. rewrite Hst. cbn. lia. }
    rewrite Hnone in Hcands. subst candidates.
    exists rationale, springs. split; [exact Hok|exact Hrec].
  - split; [exact Hst3|].
    destruct (run_pipeline_gate_order
                EarlyStop.eval1 EarlyStop.eval2_pass EarlyStop.eval2b
                EarlyStop.eval3 EarlyStop.eval4
                Scenario.ticker_data (Some Scenario.universe))
      as (_ & _ & _ & _ & _ & _ & candidates & rationale & springs
          & Hok & Hrec & Hcands).
    change (run_pipeline _ _ _ _ _ _ _ _) with EarlyStop.pipeline_run3
      in Hok, Hrec, Hcands.
    assert (EarlyStop.pipeline_run3.1 !! 4%nat = None) as Hnone.
    { apply lookup_ge_None. apply (f_equal length) in Hst3.
      rewrite length_fmap in Hst3. rewrite Hst3. cbn. lia. }
    rewrite Hnone in Hcands. subst candidates.
    exists rationale, springs. split; [exact Hok|exact Hrec].
Defined.

(** ** Status of the candidates *)

Lemma res_fmap_inv {A B : Type} (f : A → B) (m : res A) b :
  f <$> m = Ok b → ∃ a, m = Ok a ∧ f a = b.
Proof. destruct m as [a|]; [|done]. intros [= <-]. by exists a. Qed.

Lemma fmap_lookup_inv {A B : Type} (f : A → B) (l : list A) l' i b :
  f <$> l = l' → l' !! i = Some b → ∃ a, a ∈ l ∧ f a = b.
Proof.
  intros <- Hb. apply list_lookup_fmap_Some in Hb as (a & -> & Ha).
  exists a. split; [by eapply list_elem_of_lookup_2|done].
Qed.

Lemma scenario_emitted :
  Scenario.emitted =
  Ok [("CHARLIE", "COILING_SPRING", VStr "Price below 200-day MA");
      ("ALFA", "BUY", VStr "Trend confirmed");
      ("BRAVO", "COILING_SPRING", VStr "ADX 8.2 < 10.0")].
Proof. vm_compute. reflexivity. Qed.

Lemma scenario_scan_stages :
  gc_stage <$> Scenario.scan_run.1 = [Gate1; Gate2; Gate2B; Gate3].
Proof. vm_compute. reflexivity. Qed.

Lemma scenario_pipeline_outcome :
  (λ out : list string * trail * list spring, (out.1.1, sp_ticker <$> out.2))
    <$> Scenario.pipeline_run.2 = Ok ([], ["BRAVO"]).
Proof. vm_compute. reflexivity. Qed.

(** C3 on [run_scan].  The scan calls Gates 1, 2, 2B and 3 and never
    Gate 4.  CHARLIE, which Gate 3 turned down for its trend template (a
    reason that names neither the ADX nor the relative strength), is emitted
    with status COILING_SPRING, and ALFA is emitted with status BUY although
    Gate 4 turns it down.  On the same batch [run_pipeline], which does ask
    Gate 4 and does look at the reason, returns no candidate and a watchlist
    that holds BRAVO alone. *)
Lemma run_scan_status_diverges :
  ∃ out charlie alfa,
    Scenario.scan_run.2 = Ok out ∧
    gc_stage <$> Scenario.scan_run.1 = [Gate1; Gate2; Gate2B; Gate3] ∧
    charlie ∈ so_results out ∧ c_ticker charlie = "CHARLIE" ∧
    c_status charlie = "COILING_SPRING" ∧
    c_reason charlie = VStr "Price below 200-day MA" ∧
    is_sniper_fail (c_reason charlie) = Ok false ∧
    alfa ∈ so_results out ∧ c_ticker alfa = "ALFA" ∧ c_status alfa = "BUY" ∧
    (∀ data, passed (Scenario.eval4 data "ALFA") = false) ∧
    ∃ rationale springs,
      Scenario.pipeline_run.2 = Ok ([], rationale, springs) ∧
      sp_ticker <$> springs = ["BRAVO"].
Proof.
  destruct (res_fmap_inv _ _ _ scenario_emitted) as (out & Hout & Hview).
  destruct (fmap_lookup_inv _ _ _ 0%nat _ Hview eq_refl)
    as (charlie & Hc & [= Hct Hcs Hcr]).
  destruct (fmap_lookup_inv _ _ _ 1%nat _ Hview eq_refl)
    as (alfa & Ha & [= Hat Has _]).
  exists out, charlie, alfa. split; [exact Hout|].
  split; [exact scenario_scan_stages|]. do 4 (split; [done|]).
  split; [by rewrite Hcr|]. do 3 (split; [done|]).
  split; [intros data; reflexivity|].
  destruct (res_fmap_inv _ _ _ scenario_pipeline_outcome)
    as ([[cands rationale] springs] & Hp & [= Hnil Hwatch]).
  cbn in Hnil, Hwatch. subst cands. exists rationale, springs.
  split; [exact Hp|exact Hwatch].
Qed.

(** ** The empty batch *)

Lemma log_gate_results_empty main_log gate_name :
  _log_gate_results main_log gate_name ∅ = main_log.
Proof. unfold _log_gate_results. apply map_fold_empty. Qed.

Section EmptyBatch.

Variable eval1 : gmap string DataFrame → option metamap → string → result_dict.
Variable gate2_run : list string → gate_output.
Variable gate2b_run : list string → metamap → gate_output.
Variable gate3_run : gmap string DataFrame → gate_output.
Variable gate4_run : gmap string DataFrame → gate_output.

Let pipeline :=
  run_pipeline (SpecGates.gate1_run eval1) gate2_run gate2b_run gate3_run gate4_run.

(** C4 on the empty batch.  With a Gate 1 that behaves as the
    specification describes gates, [run_pipeline] calls Gate 1 only, raises
    nothing, and its candidate list and its rationale trail are empty, as
    the claim says; but the value it returns has three items,
    [([], {}, [])], where the claim, the annotation of the function
    ([tuple[list[str], dict]]) and its docstring promise the pair
    [([], {})]. *)
Theorem run_pipeline_empty_batch sector_map :
  gc_stage <$> (pipeline ∅ sector_map []).1 = [Gate1] ∧
  (pipeline ∅ sector_map []).2 = Ok ([], ∅, []) ∧
  returned_value (pipeline ∅ sector_map []).2 =
    Ok [PyTickers []; PyTrail ∅; PyWatchlist []].
Proof.
  subst pipeline. unfold run_pipeline, SpecGates.gate1_run.
  unfold mbind at 1, M_bind, call_on_data.
  rewrite batch_keys_empty, spec_gate_nil. cbn.
  repeat split.
Qed.

End EmptyBatch.

(** ** The rationale trail *)

(** In [run_pipeline] a logged record is never lost: logging another gate's
    results keeps every entry filed under a different key. *)
Lemma log_gate_results_extends main_log gate_name gate_results t key e :
  key ≠ gate_name →
  has_entry main_log t key e →
  has_entry (_log_gate_results main_log gate_name gate_results) t key e.
Proof. apply log_gate_results_keeps. Qed.

Lemma scenario_saved_alfa :
  Scenario.saved_verdict "ALFA" = Ok (Some (true, Some (VStr "Trend confirmed"))).
Proof. vm_compute. reflexivity. Qed.

Lemma scenario_gate1_alfa :
  Scenario.gate1_verdict "ALFA" = Some (true, Some (VStr "Spread OK")).
Proof. vm_compute. reflexivity. Qed.

(** C5 on [run_scan].  ALFA is evaluated by Gates 1, 2, 2B and 3.  The
    rationale saved with the snapshot, [{**g1_rationale, **g2_rationale,
    **g2b_rationale, **g3_rationale}], is keyed by ticker only: what it holds
    for ALFA is Gate 3's record, and the record Gate 1 returned for ALFA has
    been replaced by it. *)
Lemma run_scan_merge_overwrites :
  ∃ out saved r1 r3,
    Scenario.scan_run.2 = Ok out ∧
    so_snapshot out = Some saved ∧
    (Scenario.gate1_run Scenario.ticker_data (Some Scenario.universe)).2 !! "ALFA"
      = Some r1 ∧
    r1 !! "reason" = Some (VStr "Spread OK") ∧
    saved.2 !! "ALFA" = Some r3 ∧
    r3 !! "reason" = Some (VStr "Trend confirmed") ∧
    r1 ≠ r3.
Proof.
  pose proof scenario_saved_alfa as Hs. pose proof scenario_gate1_alfa as Hg.
  apply res_fmap_inv in Hs as (out & Hout & Hs).
  apply bind_Some in Hs as ([results saved] & Hsnap & Hs).
  apply bind_Some in Hs as (r3 & H3 & [= _ Hr3]).
  apply bind_Some in Hg as (r1 & H1 & [= _ Hr1]).
  exists out, (results, saved), r1, r3.
  split; [exact Hout|]. split; [exact Hsnap|]. split; [exact H1|].
  split; [exact Hr1|]. split; [exact H3|]. split; [exact Hr3|].
  intros ->. rewrite Hr1 in Hr3. discriminate Hr3.
Qed.

(** ** Failures while post-processing *)

Section PostProcessingFailures.

Variable gate1_run : gmap string DataFrame → option metamap → gate_output.
Variable gate2_run : list string → gate_output.
Variable gate2b_run : list string → metamap → gate_output.
Variable gate3_run : gmap string DataFrame → gate_output.
Variable average_true_range : nat → DataFrame → res float64.
Variable generate_trade_chart :
  string → DataFrame → trade_meta → pyval → string → res pyval.

Let scan :=
  run_scan gate1_run gate2_run gate2b_run gate3_run
    average_true_range generate_trade_chart.
Let process := post_process average_true_range generate_trade_chart.

(** C7, amended.  An exception raised while post-processing one Gate 2B
    survivor is caught for that instrument alone and nothing is recorded for
    it: [run_scan] raises only if the batch lacks the data of a Gate 2B
    survivor (before the results loop starts); otherwise it returns, every
    survivor whose post-processing succeeds is emitted, a survivor whose
    post-processing raises has no candidate, and the rationale saved with
    the snapshot is built from the gates' records alone, so that a Gate 3
    survivor keeps Gate 3's own record whether or not its post-processing
    raised. *)
Theorem post_processing_failure_is_skipped ticker_data universe :
  let calls := (scan ticker_data universe []).1 in
  let outcome := (scan ticker_data universe []).2 in
  (∀ e, outcome = Raise e →
     ∃ c2b, calls !! 2%nat = Some c2b ∧
            select_data ticker_data (gc_passed c2b) = Raise e)
  ∧ (∀ out, outcome = Ok out →
       (so_results out = [] ∧ so_snapshot out = None) ∨
       ∃ c1 c2 c2b c3,
         calls = [c1; c2; c2b; c3] ∧
         let g3_rationale :=
           foldl (tag_coiling (gc_passed c3)) (gc_results c3) (gc_passed c2b) in
         (∀ t, t ∈ gc_passed c2b →
            match process ticker_data universe (gc_passed c3) g3_rationale t with
            | Ok c => c ∈ so_results out
            | Raise _ => ∀ c, c ∈ so_results out → c_ticker c ≠ t
            end)
         ∧ so_snapshot out =
             Some (so_results out,
                   dict_merge
                     (dict_merge (dict_merge (gc_results c1) (gc_results c2))
                        (gc_results c2b))
                     g3_rationale)
         ∧ (∀ t r, t ∈ gc_passed c3 → gc_results c3 !! t = Some r →
              ∃ saved, so_snapshot out = Some saved ∧ saved.2 !! t = Some r)).
Proof.
  intros calls outcome.
  destruct (run_scan_trace gate1_run gate2_run gate2b_run gate3_run
              average_true_range generate_trade_chart ticker_data universe)
    as (_ & _ & Hraise & Hok).
  split; [exact Hraise|].
  intros out Heq.
  destruct (Hok _ Heq)
    as [?|(c1 & c2 & c2b & c3 & Hcalls & _ & _ & Hres & Hsnap)]; [by left|].
  right. exists c1, c2, c2b, c3. split; [exact Hcalls|]. cbn zeta.
  repeat apply conj.
  - intros t Ht.
    destruct (process ticker_data universe (gc_passed c3) _ t) as [c|e] eqn:Hp.
    + rewrite Hres. apply collect_results_elem. by exists t.
    + intros c Hc <-. rewrite Hres in Hc.
      apply collect_results_elem in Hc as (t & _ & Hc).
      pose proof Hc as Hinv.
      apply post_process_inv in Hinv as (_ & _ & _ & _ & _ & _ & Ht' & _).
      subst process. congruence.
  - exact Hsnap.
  - intros t r Ht Hr. eexists. split; [exact Hsnap|].
    cbn. rewrite dict_merge_lookup, tag_coiling_finds by done. by rewrite Hr.
Qed.

End PostProcessingFailures.

Lemma scenario_saved_delta :
  Scenario.saved_verdict "DELTA" = Ok (Some (true, Some (VStr "Trend confirmed"))).
Proof. vm_compute. reflexivity. Qed.

Lemma scenario_delta_atr :
  (df ← Scenario.ticker_data !! "DELTA";
   Some (last_close df, Scenario.average_true_range 14 df))
  = Some (Ok (float_of_Z 30), Raise ZeroDivisionError).
Proof. vm_compute. reflexivity. Qed.

(** C7 as stated fails on [run_scan]: DELTA clears Gate 2B and Gate 3, the
    ATR computation for it divides by zero, no candidate is emitted for it,
    and yet the rationale saved for DELTA is Gate 3's record, with [passed]
    true and the reason "Trend confirmed": no failed record was written. *)
Lemma numeric_failure_counterexample :
  ∃ out saved r df,
    Scenario.scan_run.2 = Ok out ∧
    Scenario.ticker_data !! "DELTA" = Some df ∧
    Scenario.average_true_range 14 df = Raise ZeroDivisionError ∧
    ("DELTA" ∉ c_ticker <$> so_results out) ∧
    so_snapshot out = Some saved ∧
    saved.2 !! "DELTA" = Some r ∧
    passed r = true ∧ r !! "reason" = Some (VStr "Trend confirmed").
Proof.
  pose proof scenario_saved_delta as Hs. pose proof scenario_delta_atr as Hd.
  pose proof scenario_emitted as He.
  apply res_fmap_inv in Hs as (out & Hout & Hs).
  apply bind_Some in Hs as ([results saved] & Hsnap & Hs).
  apply bind_Some in Hs as (r & Hr & [= Hpassed Hreason]).
  apply bind_Some in Hd as (df & Hdf & [= _ Hatr]).
  apply res_fmap_inv in He as (out' & Hout' & He).
  rewrite Hout in Hout'. injection Hout' as <-.
  exists out, (results, saved), r, df.
  split; [exact Hout|]. split; [exact Hdf|]. split; [exact Hatr|].
  split.
  { intros Hin. apply list_elem_of_fmap in Hin as (c & Hc & Hin).
    assert ((c_ticker c, c_status c, c_reason c) ∈
            (λ c, (c_ticker c, c_status c, c_reason c)) <$> so_results out) as Hv
      by (apply list_elem_of_fmap; exists c; split; [reflexivity|exact Hin]).
    rewrite He, <- Hc in Hv.
    repeat (apply elem_of_cons in Hv as [Heq|Hv]; [discriminate Heq|]).
    apply elem_of_nil in Hv. exact Hv. }
  split; [exact Hsnap|]. split; [exact Hr|]. split; [exact Hpassed|exact Hreason].
Qed.

(** ** Trade metadata *)

Lemma tag_coiling_other_key finds g t0 t key :
  key ≠ "status" → key ≠ "passed" → key ≠ "reason" →
  default ∅ (tag_coiling finds g t0 !! t) !! key = default ∅ (g !! t) !! key.
Proof.
  intros Hs Hp Hr. unfold tag_coiling. case_bool_decide; [done|].
  destruct (decide (t0 = t)) as [->|Hne].
  - destruct (g !! t) as [r|] eqn:Hg; rewrite lookup_insert_eq; cbn.
    + by rewrite lookup_insert_ne.
    + rewrite !lookup_insert_ne by done. done.
  - destruct (g !! t0); by rewrite lookup_insert_ne.
Qed.

Lemma tag_coiling_loop_other_key finds tickers g t key :
  key ≠ "status" → key ≠ "passed" → key ≠ "reason" →
  default ∅ (foldl (tag_coiling finds) g tickers !! t) !! key
  = default ∅ (g !! t) !! key.
Proof.
  intros Hs Hp Hr. revert g. induction tickers as [|t0 tickers IH]; intros g; cbn.
  - done.
  - rewrite IH. by apply tag_coiling_other_key.
Qed.


Lemma holding_period_spec pattern period :
  holding_period pattern = Ok period →
  period = if pattern_has_vcp pattern then SWING else POSITIONAL.
Proof.
  unfold holding_period, or_empty, pattern_has_vcp.
  destruct pattern as [|[]|q|s]; cbn; try done.
  - by intros [= <-].
  - by intros [= <-].
  - destruct (Qeq_bool q 0); cbn; [|done]. by intros [= <-].
  - destruct (String.eqb_spec s "") as [->|Hne]; cbn; by intros [= <-].
Qed.

Section TradeMetadata.

Variable gate1_run : gmap string DataFrame → option metamap → gate_output.
Variable gate2_run : list string → gate_output.
Variable gate2b_run : list string → metamap → gate_output.
Variable gate3_run : gmap string DataFrame → gate_output.
Variable average_true_range : nat → DataFrame → res float64.
Variable generate_trade_chart :
  string → DataFrame → trade_meta → pyval → string → res pyval.

Let scan :=
  run_scan gate1_run gate2_run gate2b_run gate3_run
    average_true_range generate_trade_chart.
Let process := post_process average_true_range generate_trade_chart.

(** Every candidate of a scan comes out of the [try] block run on a Gate 2B
    survivor, with the tagged Gate 3 rationale. *)
Lemma run_scan_emitted ticker_data universe out c :
  (scan ticker_data universe []).2 = Ok out → c ∈ so_results out →
  ∃ c2b c3,
    (scan ticker_data universe []).1 !! 2%nat = Some c2b ∧
    (scan ticker_data universe []).1 !! 3%nat = Some c3 ∧
    c_ticker c ∈ gc_passed c2b ∧
    process ticker_data universe (gc_passed c3)
      (foldl (tag_coiling (gc_passed c3)) (gc_results c3) (gc_passed c2b))
      (c_ticker c) = Ok c.
Proof.
  intros Heq Hin.
  destruct (run_scan_trace gate1_run gate2_run gate2b_run gate3_run
              average_true_range generate_trade_chart ticker_data universe)
    as (_ & _ & _ & Hok).
  destruct (Hok _ Heq)
    as [[Hnil _]|(c1 & c2 & c2b & c3 & Hcalls & _ & _ & Hres & _)].
  { rewrite Hnil in Hin. by apply elem_of_nil in Hin. }
  fold scan in Hcalls. exists c2b, c3. rewrite Hcalls. do 2 (split; [done|]).
  rewrite Hres in Hin. apply collect_results_elem in Hin as (t & Ht & Hp).
  pose proof Hp as Hinv.
  apply post_process_inv in Hinv as (_ & _ & _ & _ & _ & _ & -> & _). done.
Qed.


(** C9. For every candidate the scan emits, the holding-period label is the
    "Swing" label exactly when the pattern Gate 3 detected for it is a
    string containing "VCP", and the "Positional" label otherwise, which
    includes the case where Gate 3's record carries no pattern. *)
Theorem holding_period_label ticker_data universe out c :
  (scan ticker_data universe []).2 = Ok out → c ∈ so_results out →
  (∃ c3, (scan ticker_data universe []).1 !! 3%nat = Some c3 ∧
         c_pattern c =
           default (VStr "") (default ∅ (gc_results c3 !! c_ticker c) !! "pattern"))
  ∧ tm_period (c_trade c) =
      (if pattern_has_vcp (c_pattern c) then SWING else POSITIONAL)
  ∧ (tm_period (c_trade c) = SWING ↔
     ∃ s, c_pattern c = VStr s ∧ str_in "VCP" s = true)
  ∧ (c_pattern c = VStr "" → tm_period (c_trade c) = POSITIONAL).
Proof.
  intros Heq Hin.
  destruct (run_scan_emitted _ _ _ _ Heq Hin) as (c2b & c3 & _ & Hc3 & _ & Hp).
  apply post_process_inv in Hp
    as (_ & _ & _ & _ & _ & _ & _ & _ & Hpat & Hper%holding_period_spec & _).
  rewrite tag_coiling_loop_other_key in Hpat by done.
  split; [by exists c3|]. split; [exact Hper|]. rewrite Hper. split.
  - unfold pattern_has_vcp. destruct (c_pattern c) as [|b|q|s];
      try (split; [discriminate|intros (? & ? & ?); discriminate]).
    destruct (str_in "VCP" s) eqn:Hin'; split; try done.
    + intros _. by exists s.
    + intros (s' & [= <-] & ?). congruence.
  - by intros ->.
Qed.

Local Arguments trade_levels : simpl never.
Local Arguments round2 : simpl never.

(** C10. For every candidate the scan emits, [risk_reward] is the string
    "1:2" whatever the levels are, and the emitted entry, stop and target
    are the computed ones rounded to two decimals.  Nothing stands in the
    way of a stop at or above the entry: with an ATR of zero and a finite
    close the candidate is emitted all the same (provided the charts can be
    drawn and the metadata of the ticker is well formed), with stop and
    target equal to the entry (as Python's [==] on floats has it) and a risk
    of zero. *)
Theorem trade_metadata_is_unchecked ticker_data universe :
  (∀ out c,
     (scan ticker_data universe []).2 = Ok out → c ∈ so_results out →
     tm_risk_reward (c_trade c) = "1:2" ∧
     ∃ df entry atr,
       ticker_data !! c_ticker c = Some df ∧ last_close df = Ok entry ∧
       average_true_range 14 df = Ok atr ∧
       rounded_to_cents (tm_entry (c_trade c)) entry ∧
       rounded_to_cents (tm_sl (c_trade c)) (trade_levels entry atr).1.1 ∧
       rounded_to_cents (tm_target (c_trade c)) (trade_levels entry atr).2 ∧
       (is_zero atr = true → is_finite entry = true →
        float_eq (tm_sl (c_trade c)) (tm_entry (c_trade c)) ∧
        float_eq (tm_target (c_trade c)) (tm_entry (c_trade c)) ∧
        is_zero (trade_levels entry atr).1.2 = true))
  ∧ (∀ finds g3_rationale t df entry atr period,
       ticker_data !! t = Some df → last_close df = Ok entry →
       average_true_range 14 df = Ok atr →
       is_zero atr = true → is_finite entry = true →
       holding_period
         (default (VStr "") (default ∅ (g3_rationale !! t) !! "pattern"))
         = Ok period →
       (∀ trade pattern timeframe,
          ∃ chart, generate_trade_chart t df trade pattern timeframe = Ok chart) →
       (∀ v, dict_get universe t ≠ Some (MVal v)) →
       ∃ c, process ticker_data universe finds g3_rationale t = Ok c ∧
            float_eq (tm_sl (c_trade c)) (tm_entry (c_trade c)) ∧
            float_eq (tm_target (c_trade c)) (tm_entry (c_trade c)) ∧
            tm_risk_reward (c_trade c) = "1:2").
Proof.
  assert (∀ entry atr, is_zero atr = true → is_finite entry = true →
            float_eq (round2 (trade_levels entry atr).1.1) (round2 entry) ∧
            float_eq (round2 (trade_levels entry atr).2) (round2 entry) ∧
            is_zero (trade_levels entry atr).1.2 = true) as Hzero.
  { intros entry atr H0 Hfin.
    pose proof (trade_levels_zero_atr entry atr H0 Hfin) as H.
    destruct (trade_levels entry atr) as [[sl risk] target]. cbn.
    by destruct H as (? & ? & _ & _ & ?). }
  split.
  - intros out c Heq Hin.
    destruct (run_scan_emitted _ _ _ _ Heq Hin) as (c2b & c3 & _ & _ & _ & Hp).
    apply post_process_inv in Hp
      as (df & entry & atr & Hdf & Hentry & Hatr & _ & _ & _ & _ & Hrr & He & Hs & Htg).
    split; [exact Hrr|]. exists df, entry, atr. do 3 (split; [done|]).
    rewrite He, Hs, Htg.
    do 3 (split; [apply round2_rounded|]).
    intros H0 Hfin. exact (Hzero entry atr H0 Hfin).
  - intros finds g3_rationale t df entry atr period Hdf Hentry Hatr H0 Hfin Hper
      Hcharts Hmeta.
    subst process. unfold post_process. rewrite Hdf. cbn.
    rewrite Hentry. cbn. rewrite Hatr. cbn.
    destruct (Hzero entry atr H0 Hfin) as (Hs & Ht & _).
    destruct (trade_levels entry atr) as [[sl risk] target]. cbn in Hs, Ht.
    cbn. rewrite Hper. cbn.
    repeat match goal with
           | |- context [generate_trade_chart t df ?tr ?p ?tf] =>
               let ch := fresh "chart" in
               let Hch := fresh "Hchart" in
               destruct (Hcharts tr p tf) as [ch Hch]; rewrite Hch; cbn
           end.
    destruct (dict_get universe t) as [[v|d]|] eqn:Hm; cbn;
      [by destruct (Hmeta v)|..];
      (eexists; split; [reflexivity|]; cbn; done).
Qed.

End TradeMetadata.




Lemma holding_period_label_witness :
  ∃ out c,
    Scenario.scan_run.2 = Ok out ∧ c ∈ so_results out ∧ c_ticker c = "ALFA" ∧
    tm_period (c_trade c) =
      (if pattern_has_vcp (c_pattern c) then SWING else POSITIONAL).
Proof.
  destruct (res_fmap_inv _ _ _ scenario_emitted) as (out & Hout & Hview).
  destruct (fmap_lookup_inv _ _ _ 1%nat _ Hview eq_refl) as (c & Hc & [= Ht _ _]).
  destruct (holding_period_label
              Scenario.gate1_run Scenario.gate2_run Scenario.gate2b_run
              Scenario.gate3_run Scenario.average_true_range
              Scenario.generate_trade_chart Scenario.ticker_data
              Scenario.universe out c Hout Hc)
    as (_ & Hper & _).
  exists out, c.
  split; [exact Hout|]. split; [exact Hc|]. split; [exact Ht|exact Hper].
Defined.

Lemma trade_metadata_is_unchecked_witness :
  ∃ out c,
    Scenario.scan_run.2 = Ok out ∧ c ∈ so_results out ∧ c_ticker c = "BRAVO" ∧
    tm_risk_reward (c_trade c) = "1:2".
Proof.
  destruct (res_fmap_inv _ _ _ scenario_emitted) as (out & Hout & Hview).
  destruct (fmap_lookup_inv _ _ _ 2%nat _ Hview eq_refl) as (c & Hc & [= Ht _ _]).
  destruct (trade_metadata_is_unchecked
              Scenario.gate1_run Scenario.gate2_run Scenario.gate2b_run
              Scenario.gate3_run Scenario.average_true_range
              Scenario.generate_trade_chart Scenario.ticker_data
              Scenario.universe) as [Hall _].
  destruct (Hall out c Hout Hc) as [Hrr _].
  exists out, c.
  split; [exact Hout|]. split; [exact Hc|]. split; [exact Ht|exact Hrr].
Defined.

(** ** The cap tier handed to Gate 2B *)

Lemma dict_get_set {V : Type} (d : list (string * V)) k v k' :
  dict_get (dict_set d k v) k' = if String.eqb k k' then Some v else dict_get d k'.
Proof.
  induction d as [|[k0 v0] d IH]; cbn.
  - by destruct (String.eqb k k').
  - destruct (String.eqb_spec k0 k) as [->|Hne]; cbn.
    + destruct (String.eqb k k'); done.
    + rewrite IH. destruct (String.eqb_spec k0 k') as [->|Hne'];
        [|done]. destruct (String.eqb_spec k k'); [congruence|done].
Qed.

Lemma legacy_cap_map (tickers : list string) (acc : metamap) t (v : meta) :
  t ∈ tickers ∨ dict_get acc t = Some v →
  dict_get (foldl (λ mcm t0, dict_set mcm t0 v) acc tickers) t = Some v.
Proof.
  revert acc. induction tickers as [|t0 tickers IH]; intros acc; cbn.
  - intros [?%elem_of_nil|?]; done.
  - intros H. apply IH. rewrite dict_get_set.
    destruct (String.eqb_spec t0 t) as [->|Hne]; [by right|].
    destruct H as [[?|?]%elem_of_cons|?]; [congruence|by left|by right].
Qed.

Lemma cap_step_keeps_small (entries : metamap) (acc : metamap) t :
  (∀ d v, (t, MDict d) ∈ entries → d !! "market_cap" = Some v → False) →
  dict_get acc t = Some (MVal (VStr "SMALL")) →
  dict_get (foldl cap_step acc entries) t = Some (MVal (VStr "SMALL")).
Proof.
  revert acc. induction entries as [|[k m] entries IH]; intros acc Hun Hacc; cbn.
  - done.
  - apply IH; [intros d v ?; apply Hun; by right|].
    destruct m as [v|d]; [done|]. rewrite dict_get_set.
    destruct (String.eqb_spec k t) as [->|Hne]; [|done].
    destruct (d !! "market_cap") as [v|] eqn:Hd; [|done].
    exfalso. eapply Hun; [by left|done].
Qed.

Lemma cap_step_unresolved (entries : metamap) (acc : metamap) t :
  (∀ d v, (t, MDict d) ∈ entries → d !! "market_cap" = Some v → False) →
  dict_get acc t = None →
  dict_get (foldl cap_step acc entries) t = Some (MVal (VStr "SMALL")) ∨
  (dict_get (foldl cap_step acc entries) t = None ∧
   ∀ d, (t, MDict d) ∉ entries).
Proof.
  revert acc. induction entries as [|[k m] entries IH]; intros acc Hun Hacc; cbn.
  - right. split; [done|]. by intros d ?%elem_of_nil.
  - assert (∀ d v, (t, MDict d) ∈ entries → d !! "market_cap" = Some v → False)
      as Hun' by (intros d v ?; apply Hun; by right).
    destruct m as [v|d].
    + destruct (IH acc Hun' Hacc) as [?|[Hnone Hno]]; [by left|]. right.
      split; [done|]. intros d' [Heq|?]%elem_of_cons; [discriminate Heq|].
      by eapply Hno.
    + destruct (String.eqb_spec k t) as [->|Hne].
      * left. apply cap_step_keeps_small; [done|].
        rewrite dict_get_set, String.eqb_refl.
        destruct (d !! "market_cap") as [v|] eqn:Hd; [|done].
        exfalso. eapply Hun; [by left|done].
      * destruct (IH (dict_set acc k
                        (MVal (default (VStr "SMALL") (d !! "market_cap")))) Hun')
          as [?|[Hnone Hno]]; [|by left|].
        { rewrite dict_get_set. by destruct (String.eqb_spec k t). }
        right. split; [done|].
        intros d' [Heq|?]%elem_of_cons; [injection Heq as ? ?; congruence|].
        by eapply Hno.
Qed.

(** C8. A ticker whose cap tier the supplied metadata does not resolve is
    evaluated by Gate 2B under the SMALL tier.  In the legacy format, or
    without metadata, [run_pipeline] itself files every Gate 2 survivor
    under "SMALL" in the table it hands to Gate 2B; in the institutional
    format it does so for every ticker whose metadata dictionary lacks a
    market cap, and leaves a ticker without a metadata dictionary out of the
    table, where Gate 2B's own default is SMALL. *)
Theorem unresolved_tier_is_small sector_map passed_g2 t :
  t ∈ passed_g2 → ¬ cap_resolved sector_map t →
  let mcm := market_cap_map sector_map passed_g2 in
  gate2b_tier mcm t = SMALL ∧
  (dict_get mcm t = Some (MVal (VStr "SMALL")) ∨
   (institutional_format sector_map = true ∧
    (∀ d, (t, MDict d) ∉ default [] sector_map) ∧
    dict_get mcm t = None)).
Proof.
  intros Hin Hun mcm.
  assert (dict_get mcm t = Some (MVal (VStr "SMALL")) ∨
          (institutional_format sector_map = true ∧
           (∀ d, (t, MDict d) ∉ default [] sector_map) ∧
           dict_get mcm t = None)) as Hcases.
  { subst mcm. unfold market_cap_map.
    destruct (institutional_format sector_map) eqn:Hfmt.
    - destruct sector_map as [entries|]; [|done]. cbn.
      destruct (cap_step_unresolved entries [] t) as [?|[Hnone Hno]];
        [|done|by left|by right].
      intros d v Hd Hv. apply Hun. by exists entries, d, v.
    - left. apply legacy_cap_map. by left. }
  split; [|exact Hcases]. unfold gate2b_tier.
  destruct Hcases as [->|(_ & _ & ->)]; reflexivity.
Qed.

Lemma unresolved_tier_is_small_witness :
  "BRAVO" ∈ ["CHARLIE"; "ALFA"; "BRAVO"; "DELTA"] ∧
  ¬ cap_resolved (Some Scenario.universe) "BRAVO" ∧
  gate2b_tier
    (market_cap_map (Some Scenario.universe) ["CHARLIE"; "ALFA"; "BRAVO"; "DELTA"])
    "BRAVO" = SMALL.
Proof.
  assert ("BRAVO" ∈ ["CHARLIE"; "ALFA"; "BRAVO"; "DELTA"]) as Hin
    by (apply (list_elem_of_lookup_2 _ 2%nat); reflexivity).
  assert (¬ cap_resolved (Some Scenario.universe) "BRAVO") as Hun.
  { intros (entries & d & v & [= <-] & Hd & Hv).
    unfold Scenario.universe in Hd.
    repeat (apply elem_of_cons in Hd as [Heq|Hd];
            [first [discriminate Heq
                   | injection Heq as ->; vm_compute in Hv; discriminate Hv]|]).
    apply elem_of_nil in Hd. exact Hd. }
  split; [exact Hin|]. split; [exact Hun|].
  exact (proj1 (unresolved_tier_is_small (Some Scenario.universe) _ "BRAVO" Hin Hun)).
Defined.

(** ** Instances on the worked batch *)

Lemma survivors_only_narrow_witness :
  ∃ out c c2b,
    Scenario.scan_run.2 = Ok out ∧ c ∈ so_results out ∧ c_ticker c = "ALFA" ∧
    Scenario.scan_run.1 !! 2%nat = Some c2b ∧ gc_stage c2b = Gate2B ∧
    c_ticker c ∈ gc_passed c2b.
Proof.
  destruct (res_fmap_inv _ _ _ scenario_emitted) as (out & Hout & Hview).
  destruct (fmap_lookup_inv _ _ _ 1%nat _ Hview eq_refl) as (c & Hc & [= Ht _ _]).
  destruct (survivors_only_narrow
              Scenario.eval1 Scenario.eval2 Scenario.eval2b Scenario.eval3
              Scenario.eval4
              Scenario.gate1_run Scenario.gate2_run Scenario.gate2b_run
              Scenario.gate3_run Scenario.average_true_range
              Scenario.generate_trade_chart Scenario.ticker_data
              (Some Scenario.universe) Scenario.universe)
    as (_ & _ & _ & Hscan).
  destruct (Hscan out c Hout Hc) as (c2b & Hc2b & Hst & Hin).
  exists out, c, c2b.
  split; [exact Hout|]. split; [exact Hc|]. split; [exact Ht|].
  split; [exact Hc2b|]. split; [exact Hst|exact Hin].
Defined.

Lemma post_processing_failure_is_skipped_witness :
  ∃ out saved, Scenario.scan_run.2 = Ok out ∧ so_snapshot out = Some saved.
Proof.
  destruct (res_fmap_inv _ _ _ scenario_emitted) as (out & Hout & Hview).
  destruct (post_processing_failure_is_skipped
              Scenario.gate1_run Scenario.gate2_run Scenario.gate2b_run
              Scenario.gate3_run Scenario.average_true_range
              Scenario.generate_trade_chart Scenario.ticker_data
              Scenario.universe) as [_ Hok].
  destruct (Hok out Hout)
    as [[Hnil _]|(c1 & c2 & c2b & c3 & _ & _ & Hsnap & _)].
  - rewrite Hnil in Hview. discriminate Hview.
  - exists out. eexists. split; [exact Hout|exact Hsnap].
Defined.

(** * Further properties of the code *)

(** ** [_log_gate_results] as a dictionary update *)

(** X1. Merging a gate's results into the trail writes, for every ticker
    the gate has a record for, that record under the gate's name, creating
    the ticker's slot if need be; every entry under another key is as
    before, a ticker the gate has no record for keeps its slot untouched,
    and the trail's tickers are the old ones plus the gate's. *)
Theorem log_gate_results_update (main_log : trail) gate_name
    (gate_results : gmap string result_dict) :
  let new_log := _log_gate_results main_log gate_name gate_results in
  (∀ t r, gate_results !! t = Some r →
     has_entry new_log t gate_name (EResult r))
  ∧ (∀ t key e, key ≠ gate_name →
       has_entry new_log t key e ↔ has_entry main_log t key e)
  ∧ (∀ t, gate_results !! t = None → new_log !! t = main_log !! t)
  ∧ dom new_log = dom main_log ∪ dom gate_results.
Proof.
  intros new_log. subst new_log. repeat apply conj.
  - intros t r Hr. by apply log_gate_results_records.
  - intros t key e Hne. split; [|by apply log_gate_results_keeps].
    intros (slot & Hslot & He). rewrite log_gate_results_lookup in Hslot.
    destruct (gate_results !! t) as [r|].
    + injection Hslot as <-. rewrite lookup_insert_ne in He by done.
      unfold has_entry. destruct (main_log !! t) as [slot|]; cbn in He.
      * by exists slot.
      * by rewrite lookup_empty in He.
    + by exists slot.
  - intros t Ht. by rewrite log_gate_results_lookup, Ht.
  - apply set_eq. intros t. rewrite elem_of_union, !elem_of_dom.
    rewrite log_gate_results_lookup.
    destruct (gate_results !! t) as [r|], (main_log !! t) as [slot|];
      cbn; unfold is_Some;
      [| | |split; intros H; [|destruct H as [H|H]]; by destruct H];
      (split;
       [ intros [x Hx];
         first [discriminate Hx | by (right; eexists) | by (left; eexists)]
       | intros _; by eexists ]).
Qed.

(** X2. Merging the results of two differently named gates gives the same
    trail in either order. *)
Theorem log_gate_results_commute (main_log : trail) g1 g2
    (r1 r2 : gmap string result_dict) :
  g1 ≠ g2 →
  _log_gate_results (_log_gate_results main_log g1 r1) g2 r2 =
  _log_gate_results (_log_gate_results main_log g2 r2) g1 r1.
Proof.
  intros Hne. apply map_eq. intros t. rewrite !log_gate_results_lookup.
  destruct (r1 !! t) as [x1|], (r2 !! t) as [x2|]; cbn; try done.
  by rewrite insert_insert_ne.
Qed.

(** X3. Merging results twice under the same gate name keeps only the later
    record of a ticker present in both: the first one is replaced.  (The
    pipeline never does so, as its five gate names differ; the helper itself
    does not protect an entry.) *)
Theorem log_gate_results_replaces (main_log : trail) gate_name
    (r1 r2 : gmap string result_dict) t x1 x2 :
  r1 !! t = Some x1 → r2 !! t = Some x2 →
  let twice := _log_gate_results (_log_gate_results main_log gate_name r1)
                 gate_name r2 in
  has_entry twice t gate_name (EResult x2) ∧
  (x1 ≠ x2 → ¬ has_entry twice t gate_name (EResult x1)) ∧
  twice !! t = _log_gate_results main_log gate_name r2 !! t.
Proof.
  intros H1 H2 twice. subst twice. repeat apply conj.
  - by apply log_gate_results_records.
  - intros Hne (slot & Hslot & He).
    rewrite !log_gate_results_lookup, H1, H2 in Hslot. injection Hslot as <-.
    rewrite lookup_insert_eq in He. congruence.
  - rewrite !log_gate_results_lookup, H1, H2. cbn. by rewrite insert_insert_eq.
Qed.

Lemma log_gate_results_commute_witness :
  _log_gate_results (_log_gate_results ∅ "Gate1_Spread" {["ALFA" := ∅]})
    "Gate2_Fundamentals" {["ALFA" := ∅]} =
  _log_gate_results (_log_gate_results ∅ "Gate2_Fundamentals" {["ALFA" := ∅]})
    "Gate1_Spread" {["ALFA" := ∅]}.
Proof. apply (log_gate_results_commute ∅). discriminate. Defined.

Lemma log_gate_results_replaces_witness :
  has_entry
    (_log_gate_results
       (_log_gate_results ∅ "Gate3_Technicals" {["ALFA" := ∅]})
       "Gate3_Technicals" {["ALFA" := {["passed" := VBool true]}]})
    "ALFA" "Gate3_Technicals" (EResult {["passed" := VBool true]}).
Proof.
  apply (log_gate_results_replaces ∅ "Gate3_Technicals"
           {["ALFA" := ∅]} {["ALFA" := {["passed" := VBool true]}]}
           "ALFA" ∅ {["passed" := VBool true]}).
  - apply lookup_singleton_eq.
  - apply lookup_singleton_eq.
Defined.

(** ** [{t: ticker_data[t] for t in tickers}] *)



(** X4. Selecting the data of a list of tickers from the batch either
    succeeds, when every ticker is a key of the batch, and then yields the
    batch restricted to those tickers, or raises [KeyError], when some
    ticker of the list is missing from the batch; it raises nothing else. *)
Theorem select_data_restricts ticker_data tickers :
  match select_data ticker_data tickers with
  | Ok d =>
      (∀ t, t ∈ tickers → t ∈ dom ticker_data) ∧
      (∀ t, d !! t = if bool_decide (t ∈ tickers) then ticker_data !! t else None)
  | Raise e =>
      e = KeyError ∧ ∃ t, t ∈ tickers ∧ ticker_data !! t = None
  end.
Proof.
  destruct (select_data ticker_data tickers) as [d|e] eqn:Hsel.
  - split; [|intros t; by apply select_data_lookup].
    intros t Ht. pose proof (select_data_lookup _ _ _ t Hsel) as Hl.
    rewrite bool_decide_true in Hl by done.
    assert (t ∈ dom d) as Hd
      by (rewrite (select_data_dom _ _ _ Hsel); by apply elem_of_list_to_set).
    apply elem_of_dom in Hd as [df Hdf]. apply elem_of_dom. exists df. congruence.
  - by apply select_data_raise.
Qed.

(** ** The cap-tier table *)

Lemma cap_step_other (entries : metamap) (acc : metamap) t :
  t ∉ entries.*1 →
  dict_get (foldl cap_step acc entries) t = dict_get acc t.
Proof.
  revert acc. induction entries as [|[k m] entries IH]; intros acc Hnot; cbn.
  - done.
  - cbn in Hnot. apply not_elem_of_cons in Hnot as [Hne Hnot].
    rewrite IH by done. destruct m as [v|d]; [done|].
    rewrite dict_get_set. by destruct (String.eqb_spec k t).
Qed.

Lemma cap_step_resolved (entries : metamap) (acc : metamap) t d :
  NoDup entries.*1 → (t, MDict d) ∈ entries →
  dict_get (foldl cap_step acc entries) t =
    Some (MVal (default (VStr "SMALL") (d !! "market_cap"))).
Proof.
  revert acc. induction entries as [|[k m] entries IH]; intros acc Hnd Hin; cbn.
  - by apply elem_of_nil in Hin.
  - cbn in Hnd. apply NoDup_cons in Hnd as [Hk Hnd].
    apply elem_of_cons in Hin as [[= <- <-]|Hin].
    + rewrite cap_step_other by done. by rewrite dict_get_set, String.eqb_refl.
    + by apply IH.
Qed.

Lemma cap_step_plain (entries : metamap) (acc : metamap) t v :
  NoDup entries.*1 → (t, MVal v) ∈ entries →
  dict_get (foldl cap_step acc entries) t = dict_get acc t.
Proof.
  revert acc. induction entries as [|[k m] entries IH]; intros acc Hnd Hin; cbn.
  - by apply elem_of_nil in Hin.
  - cbn in Hnd. apply NoDup_cons in Hnd as [Hk Hnd].
    apply elem_of_cons in Hin as [[= <- <-]|Hin].
    + by rewrite cap_step_other.
    + rewrite IH by done. destruct m as [v'|d]; [done|].
      rewrite dict_get_set. destruct (String.eqb_spec k t) as [->|]; [|done].
      exfalso. apply Hk. apply list_elem_of_fmap. by exists (t, MVal v).
Qed.

Lemma legacy_cap_map_other (tickers : list string) (acc : metamap) t (v : meta) :
  t ∉ tickers →
  dict_get (foldl (λ mcm t0, dict_set mcm t0 v) acc tickers) t = dict_get acc t.
Proof.
  revert acc. induction tickers as [|t0 tickers IH]; intros acc Hnot; cbn.
  - done.
  - apply not_elem_of_cons in Hnot as [Hne Hnot]. rewrite IH by done.
    rewrite dict_get_set. by destruct (String.eqb_spec t0 t).
Qed.

(** X5. What the table handed to Gate 2B holds.  When the sector map is in
    the institutional format (its first value is a dictionary), the table
    is built from the sector map alone, whatever the Gate 2 survivors are:
    a ticker with a metadata dictionary is filed under its own market cap,
    or "SMALL" when the dictionary has none, and a ticker whose metadata is
    not a dictionary is left out.  Otherwise the table holds exactly the
    Gate 2 survivors, each filed under "SMALL". *)
Theorem market_cap_map_contents (entries : metamap) passed_g2 :
  NoDup entries.*1 →
  (institutional_format (Some entries) = true →
     (∀ other, market_cap_map (Some entries) other =
               market_cap_map (Some entries) passed_g2)
     ∧ (∀ t d, (t, MDict d) ∈ entries →
          dict_get (market_cap_map (Some entries) passed_g2) t =
            Some (MVal (default (VStr "SMALL") (d !! "market_cap"))))
     ∧ (∀ t v, (t, MVal v) ∈ entries →
          dict_get (market_cap_map (Some entries) passed_g2) t = None)
     ∧ (∀ t, t ∉ entries.*1 →
          dict_get (market_cap_map (Some entries) passed_g2) t = None))
  ∧ (∀ sector_map t,
       institutional_format sector_map = false →
       dict_get (market_cap_map sector_map passed_g2) t =
         if bool_decide (t ∈ passed_g2) then Some (MVal (VStr "SMALL")) else None).
Proof.
  intros Hnd. split.
  - intros Hfmt. unfold market_cap_map. rewrite Hfmt. cbn. repeat apply conj.
    + done.
    + intros t d Hin. by apply cap_step_resolved.
    + intros t v Hin. by rewrite (cap_step_plain _ _ _ v).
    + intros t Hnot. by rewrite cap_step_other.
  - intros sector_map t Hfmt. unfold market_cap_map. rewrite Hfmt.
    case_bool_decide as Hin.
    + apply legacy_cap_map. by left.
    + by rewrite legacy_cap_map_other.
Qed.

Lemma market_cap_map_contents_witness :
  NoDup Scenario.universe.*1 ∧
  dict_get (market_cap_map (Some Scenario.universe) []) "CHARLIE" =
    Some (MVal (VStr "MID")).
Proof.
  assert (NoDup Scenario.universe.*1) as Hnd.
  { refine (bool_decide_unpack _ _). vm_compute. exact I. }
  split; [exact Hnd|].
  destruct (market_cap_map_contents Scenario.universe [] Hnd) as [Hinst _].
  destruct (Hinst eq_refl) as (_ & Hres & _).
  rewrite (Hres "CHARLIE"
             (Scenario.record [("name", VStr "Charlie Ltd");
                               ("market_cap", VStr "MID")])).
  - vm_compute. reflexivity.
  - apply (list_elem_of_lookup_2 _ 2%nat). reflexivity.
Defined.



(** ** Exceptions and watchlist of [run_pipeline] *)

Section PipelineWatchlist.

Variable gate1_run : gmap string DataFrame → option metamap → gate_output.
Variable gate2_run : list string → gate_output.
Variable gate2b_run : list string → metamap → gate_output.
Variable gate3_run : gmap string DataFrame → gate_output.
Variable gate4_run : gmap string DataFrame → gate_output.

Let pipeline := run_pipeline gate1_run gate2_run gate2b_run gate3_run gate4_run.

(** X6. When [run_pipeline] returns, the tickers of the watchlist are, in
    the order and with the multiplicity in which Gate 2B returned them, the
    Gate 2B survivors that are not Gate 3 survivors and whose Gate 3 reason
    mentions "ADX", "RS Slope" or "RS Negative"; and the returned trail
    carries a ["status"] tag for a ticker exactly when the ticker is on the
    watchlist, the tag being "COILING_SPRING".  If the pipeline stopped
    before Gate 3 the watchlist is empty and the trail has no tag. *)
Theorem watchlist_order_and_tags ticker_data sector_map cands rat springs :
  let calls := (pipeline ticker_data sector_map []).1 in
  (pipeline ticker_data sector_map []).2 = Ok (cands, rat, springs) →
  ((length calls ≤ 3)%nat ∧ springs = [] ∧ untagged rat)
  ∨ ∃ c2b c3,
      calls !! 2%nat = Some c2b ∧ calls !! 3%nat = Some c3 ∧
      sp_ticker <$> springs =
        filter (λ t, on_watchlist (gc_passed c3) (gc_results c3) t)
          (gc_passed c2b) ∧
      ∀ t e, has_entry rat t "status" e ↔
             e = EStatus "COILING_SPRING" ∧ t ∈ sp_ticker <$> springs.
Proof.
  intros calls Hout.
  destruct (run_pipeline_effects gate1_run gate2_run gate2b_run gate3_run
              gate4_run ticker_data sector_map) as (_ & Hok & _).
  exact (Hok _ _ _ Hout).
Qed.

(** X7. [run_pipeline] raises nothing but [KeyError] and [TypeError].  It
    raises [KeyError] when the gate called last returned a survivor that is
    not a key of the batch, and [TypeError] when Gate 3 was the last gate
    called and some Gate 2B survivor that Gate 3 turned down has a Gate 3
    reason that is not a string.  Conversely, whenever Gate 3 is reached and
    turns down a Gate 2B survivor with a reason that is not a string (a
    [None], a number), the whole pipeline raises [TypeError] and returns
    neither candidates nor trail. *)
Theorem run_pipeline_exceptions ticker_data sector_map :
  let calls := (pipeline ticker_data sector_map []).1 in
  let outcome := (pipeline ticker_data sector_map []).2 in
  (∀ e, outcome = Raise e →
     (e = KeyError ∧
      ∃ c t, last calls = Some c ∧ t ∈ gc_passed c ∧ ticker_data !! t = None)
     ∨ (e = TypeError ∧
        ∃ c2b c3 t,
          calls !! 2%nat = Some c2b ∧ last calls = Some c3 ∧
          gc_stage c3 = Gate3 ∧ t ∈ gc_passed c2b ∧ (t ∉ gc_passed c3) ∧
          is_str (gate3_reason (gc_results c3) t) = false))
  ∧ (∀ c2b c3 t,
       calls !! 2%nat = Some c2b → calls !! 3%nat = Some c3 →
       t ∈ gc_passed c2b → t ∉ gc_passed c3 →
       is_str (gate3_reason (gc_results c3) t) = false →
       outcome = Raise TypeError).
Proof.
  intros calls outcome.
  destruct (run_pipeline_effects gate1_run gate2_run gate2b_run gate3_run
              gate4_run ticker_data sector_map) as (Hraise & _ & Hconv).
  split; [exact Hraise|exact Hconv].
Qed.

End PipelineWatchlist.

Lemma scenario_watchlist :
  (λ out : list string * trail * list spring, sp_ticker <$> out.2)
    <$> Scenario.pipeline_run.2 = Ok ["BRAVO"].
Proof. vm_compute. reflexivity. Qed.

Lemma watchlist_order_and_tags_witness :
  ∃ cands rat springs,
    Scenario.pipeline_run.2 = Ok (cands, rat, springs) ∧
    has_entry rat "BRAVO" "status" (EStatus "COILING_SPRING").
Proof.
  destruct (res_fmap_inv _ _ _ scenario_watchlist)
    as ([[cands rat] springs] & Hout & Hnames).
  cbn in Hnames. exists cands, rat, springs. split; [exact Hout|].
  destruct (watchlist_order_and_tags
              Scenario.gate1_run Scenario.gate2_run Scenario.gate2b_run
              Scenario.gate3_run Scenario.gate4_run
              Scenario.ticker_data (Some Scenario.universe) cands rat springs Hout)
    as [(_ & Hnil & _)|(c2b & c3 & _ & _ & _ & Htags)].
  - rewrite Hnil in Hnames. discriminate Hnames.
  - apply Htags. split; [reflexivity|]. rewrite Hnames.
    apply (list_elem_of_lookup_2 _ 0%nat). reflexivity.
Defined.

Lemma null_reason_outcome :
  NullReason.pipeline_run.2 = Raise TypeError.
Proof. vm_compute. reflexivity. Qed.

Lemma run_pipeline_exceptions_witness :
  ∃ e, NullReason.pipeline_run.2 = Raise e ∧ e = TypeError ∧
       ∃ c3, last NullReason.pipeline_run.1 = Some c3 ∧ gc_stage c3 = Gate3.
Proof.
  exists TypeError. split; [exact null_reason_outcome|]. split; [reflexivity|].
  destruct (run_pipeline_exceptions
              Scenario.gate1_run Scenario.gate2_run Scenario.gate2b_run
              NullReason.gate3_run Scenario.gate4_run
              Scenario.ticker_data (Some Scenario.universe)) as [Hraise _].
  destruct (Hraise TypeError null_reason_outcome)
    as [[Hkey _]|(_ & c2b & c3 & t & _ & Hlast & Hst & _)].
  - discriminate Hkey.
  - exists c3. split; [exact Hlast|exact Hst].
Defined.

(** ** The tagging loop of [run_scan] *)

Lemma tagged_record_idem r :
  tagged_record (Some (tagged_record r)) = tagged_record r.
Proof.
  destruct r as [r|]; cbn.
  - apply insert_insert_eq.
  - rewrite (insert_insert_ne _ "status" "passed") by done.
    by rewrite insert_insert_eq.
Qed.

Lemma tag_coiling_lookup finds g t0 t :
  tag_coiling finds g t0 !! t =
  if bool_decide (t = t0) && negb (bool_decide (t0 ∈ finds))
  then Some (tagged_record (g !! t)) else g !! t.
Proof.
  unfold tag_coiling.
  destruct (bool_decide (t0 ∈ finds)); cbn; [by rewrite andb_false_r|].
  rewrite andb_true_r. case_bool_decide as Ht.
  - subst t0. destruct (g !! t) as [r|]; by rewrite lookup_insert_eq.
  - destruct (g !! t0); by rewrite lookup_insert_ne.
Qed.

Lemma tag_loop_lookup finds g3_rationale g2b_passed t :
  foldl (tag_coiling finds) g3_rationale g2b_passed !! t =
  if bool_decide (t ∈ g2b_passed) && negb (bool_decide (t ∈ finds))
  then Some (tagged_record (g3_rationale !! t))
  else g3_rationale !! t.
Proof.
  revert g3_rationale.
  induction g2b_passed as [|t0 l IH]; intros g; cbn [foldl]; [done|].
  rewrite IH, tag_coiling_lookup.
  destruct (decide (t = t0)) as [->|Hne].
  - rewrite (bool_decide_eq_true_2 (t0 = t0)) by done.
    rewrite (bool_decide_eq_true_2 (t0 ∈ t0 :: l)) by (apply elem_of_cons; left; reflexivity).
    destruct (bool_decide (t0 ∈ finds)); cbn; [by rewrite andb_false_r|].
    rewrite andb_true_r. case_bool_decide; [|done].
    f_equal. exact (tagged_record_idem (g !! t0)).
  - rewrite (bool_decide_eq_false_2 (t = t0)) by done. cbn.
    assert (bool_decide (t ∈ t0 :: l) = bool_decide (t ∈ l)) as ->; [|done].
    apply bool_decide_ext. rewrite elem_of_cons.
    split; [by intros [?|?]|by right].
Qed.

(** X8. The tagging loop of [run_scan] in closed form.  The loop leaves for
    every Gate 2B survivor that is not a Gate 3 survivor the record Gate 3
    returned for it with ["status"] set to "COILING_SPRING" (overwriting a
    status Gate 3 may have written itself), or, where Gate 3 returned no
    record, the record [{"passed": False, "status": "COILING_SPRING",
    "reason": "Technical filters not met"}]; the record of every other
    ticker is left as Gate 3 returned it.  Hence the outcome depends
    neither on the order of the Gate 2B survivors nor on how often one
    occurs among them, and tagging a second time changes nothing. *)
Theorem tagging_loop_closed_form finds g3_rationale g2b_passed :
  let tagged := foldl (tag_coiling finds) g3_rationale g2b_passed in
  (∀ t, tagged !! t =
        if bool_decide (t ∈ g2b_passed) && negb (bool_decide (t ∈ finds))
        then Some (tagged_record (g3_rationale !! t))
        else g3_rationale !! t)
  ∧ (∀ other, (∀ t, t ∈ other ↔ t ∈ g2b_passed) →
       foldl (tag_coiling finds) g3_rationale other = tagged)
  ∧ foldl (tag_coiling finds) tagged g2b_passed = tagged.
Proof.
  intros tagged. subst tagged. split; [intros t; apply tag_loop_lookup|]. split.
  - intros other Hsame. apply map_eq. intros t.
    rewrite !tag_loop_lookup.
    by rewrite (bool_decide_ext _ _ (Hsame t)).
  - apply map_eq. intros t. rewrite !tag_loop_lookup.
    destruct (bool_decide (t ∈ g2b_passed) && negb (bool_decide (t ∈ finds)));
      [|done].
    f_equal. apply tagged_record_idem.
Qed.

(** ** The results loop of [run_scan] *)

Section PostProcessFields.

Variable average_true_range : nat → DataFrame → res float64.
Variable generate_trade_chart :
  string → DataFrame → trade_meta → pyval → string → res pyval.

Let process := post_process average_true_range generate_trade_chart.
Let collect := collect_results average_true_range generate_trade_chart.

(** Where the fields of an emitted candidate come from. *)
Lemma post_process_fields ticker_data universe finds g3_rationale t c :
  process ticker_data universe finds g3_rationale t = Ok c →
  c_ticker c = t ∧
  c_status c = (if bool_decide (t ∈ finds) then "BUY" else "COILING_SPRING") ∧
  (let rat := default ∅ (g3_rationale !! t) in
   c_adx c = default VNone (rat !! "adx") ∧
   c_mrs c = default VNone (rat !! "mrs") ∧
   c_mrs_slope c = default VNone (rat !! "mrs_slope") ∧
   c_pattern c = default (VStr "") (rat !! "pattern") ∧
   c_reason c = default (VStr "Consolidating") (rat !! "reason")) ∧
  ∃ d, default (MDict ∅) (dict_get universe t) = MDict d ∧
       c_name c = default (VStr "Unknown") (d !! "name") ∧
       c_cap c = default (VStr "SMALL") (d !! "market_cap") ∧
       c_sector c = default (VStr "Diversified") (d !! "sector").
Proof.
  subst process. unfold post_process.
  destruct (ticker_data !! t) as [df|]; cbn; [|done].
  destruct (last_close df) as [entry|] eqn:Hentry; cbn; [|done].
  destruct (average_true_range 14 df) as [atr|] eqn:Hatr; cbn; [|done].
  destruct (holding_period _) as [period|] eqn:Hperiod; cbn; [|done].
  do 3 (match goal with
        | |- (?m ≫= _) = Ok _ → _ => destruct m as [?|]; cbn; [|done]
        end).
  destruct (default (MDict ∅) (dict_get universe t)) as [v|d]; cbn; [done|].
  intros [= <-]. cbn. repeat split. by exists d.
Qed.

Lemma collect_results_tickers ticker_data universe finds g3_rationale tickers :
  c_ticker <$> collect ticker_data universe finds g3_rationale tickers =
  filter (λ t, is_ok (process ticker_data universe finds g3_rationale t)) tickers.
Proof.
  unfold collect, process. induction tickers as [|t tickers IH]; [done|].
  cbn [collect_results].
  destruct (post_process _ _ _ _ _ _ t) as [c|e] eqn:Hp.
  - rewrite filter_cons_True by (by rewrite Hp).
    rewrite fmap_cons, IH. f_equal.
    by apply post_process_fields in Hp as [-> _].
  - rewrite filter_cons_False; [done|]. rewrite Hp. exact id.
Qed.

End PostProcessFields.

Section ScanEffects.

Variable gate1_run : gmap string DataFrame → option metamap → gate_output.
Variable gate2_run : list string → gate_output.
Variable gate2b_run : list string → metamap → gate_output.
Variable gate3_run : gmap string DataFrame → gate_output.
Variable average_true_range : nat → DataFrame → res float64.
Variable generate_trade_chart :
  string → DataFrame → trade_meta → pyval → string → res pyval.

Let scan :=
  run_scan gate1_run gate2_run gate2b_run gate3_run
    average_true_range generate_trade_chart.
Let process := post_process average_true_range generate_trade_chart.
Let collect := collect_results average_true_range generate_trade_chart.

Local Arguments select_data : simpl never.
Local Arguments list_to_set : simpl never.

(** The three ways a scan can go. *)
Lemma run_scan_cases ticker_data universe :
  let calls := (scan ticker_data universe []).1 in
  let outcome := (scan ticker_data universe []).2 in
  (∃ c1, calls = [c1] ∧ gc_stage c1 = Gate1 ∧ gc_passed c1 = [] ∧
         outcome = Ok (ScanOut [] None))
  ∨ (∃ c1 c2 c2b,
       calls = [c1; c2; c2b] ∧
       gc_stage <$> calls = [Gate1; Gate2; Gate2B] ∧
       gc_passed c1 ≠ [] ∧
       gc_input c2b = list_to_set (gc_passed c2) ∧
       ((gc_passed c2b = [] ∧ outcome = Ok (ScanOut [] None))
        ∨ (outcome = Raise KeyError ∧
           ∃ t, t ∈ gc_passed c2b ∧ ticker_data !! t = None)))
  ∨ (∃ c1 c2 c2b c3,
       calls = [c1; c2; c2b; c3] ∧
       gc_stage <$> calls = [Gate1; Gate2; Gate2B; Gate3] ∧
       gc_passed c1 ≠ [] ∧ gc_passed c2b ≠ [] ∧
       gc_input c3 = list_to_set (gc_passed c2b) ∧
       (∀ t, t ∈ gc_passed c2b → is_Some (ticker_data !! t)) ∧
       let g3_rationale :=
         foldl (tag_coiling (gc_passed c3)) (gc_results c3) (gc_passed c2b) in
       let results :=
         collect ticker_data universe (gc_passed c3) g3_rationale (gc_passed c2b) in
       outcome =
         Ok (ScanOut results
               (Some (results,
                      dict_merge
                        (dict_merge (dict_merge (gc_results c1) (gc_results c2))
                           (gc_results c2b))
                        g3_rationale)))).
Proof.
  subst scan collect. unfold run_scan.
  unfold mbind, M_bind, mret, M_ret, call_on_data, call_on_list, lift. cbn.
  destruct (gate1_run ticker_data (Some universe)) as [p1 r1] eqn:E1. cbn.
  destruct p1 as [|t1 p1]; cbn.
  { left. eexists. repeat split. }
  right.
  destruct (gate2_run (t1 :: p1)) as [p2 r2] eqn:E2. cbn.
  destruct (gate2b_run p2 universe) as [p2b r2b] eqn:E2b. cbn.
  destruct p2b as [|t2b p2b]; cbn.
  { left. do 3 eexists. repeat split; [done|]. by left. }
  destruct (select_data ticker_data (t2b :: p2b)) as [d|e] eqn:S; cbn.
  2:{ left. do 3 eexists. repeat split; [done|]. right.
      apply select_data_raise in S as [-> Hmiss]. by split. }
  right.
  destruct (gate3_run d) as [finds r3] eqn:E3. cbn.
  do 4 eexists. repeat split; try done.
  - cbn. exact (select_data_dom _ _ _ S).
  - cbn. intros t Ht.
    pose proof (select_data_lookup _ _ _ t S) as Hl.
    rewrite bool_decide_eq_true_2 in Hl by done. rewrite <- Hl.
    apply elem_of_dom. rewrite (select_data_dom _ _ _ S).
    by apply elem_of_list_to_set.
Qed.

End ScanEffects.

Section ScanProperties.

Variable gate1_run : gmap string DataFrame → option metamap → gate_output.
Variable gate2_run : list string → gate_output.
Variable gate2b_run : list string → metamap → gate_output.
Variable gate3_run : gmap string DataFrame → gate_output.
Variable average_true_range : nat → DataFrame → res float64.
Variable generate_trade_chart :
  string → DataFrame → trade_meta → pyval → string → res pyval.

Let scan :=
  run_scan gate1_run gate2_run gate2b_run gate3_run
    average_true_range generate_trade_chart.
Let process := post_process average_true_range generate_trade_chart.

(** X9. The gate calls of [run_scan], which differ from those of
    [run_pipeline].  A scan goes one of three ways.  Gate 1 returns no
    survivor: it is the only gate called, and the scan returns an empty list
    and saves no snapshot.  Gate 1 returns a survivor: Gates 2 and 2B are
    both called, Gate 2B on the survivors of Gate 2 even when there are
    none; if Gate 2B returns no survivor the scan returns an empty list
    without a snapshot, and if it returns a ticker that the batch has no
    data for the scan raises [KeyError].  Otherwise Gate 3 is called on the
    Gate 2B survivors, the scan returns, and a snapshot is saved with the
    very list that is returned.  Gate 4 is never called, and [KeyError] is
    the only exception. *)
Theorem run_scan_gate_calls ticker_data universe :
  let calls := (scan ticker_data universe []).1 in
  let outcome := (scan ticker_data universe []).2 in
  (∃ c1, calls = [c1] ∧ gc_stage c1 = Gate1 ∧
         gc_input c1 = dom ticker_data ∧ gc_passed c1 = [] ∧
         outcome = Ok (ScanOut [] None))
  ∨ (∃ c1 c2 c2b,
       calls = [c1; c2; c2b] ∧
       gc_stage <$> calls = [Gate1; Gate2; Gate2B] ∧
       gc_passed c1 ≠ [] ∧
       gc_input c2b = list_to_set (gc_passed c2) ∧
       ((gc_passed c2b = [] ∧ outcome = Ok (ScanOut [] None))
        ∨ (outcome = Raise KeyError ∧
           ∃ t, t ∈ gc_passed c2b ∧ ticker_data !! t = None)))
  ∨ (∃ c1 c2 c2b c3 out saved,
       calls = [c1; c2; c2b; c3] ∧
       gc_stage <$> calls = [Gate1; Gate2; Gate2B; Gate3] ∧
       gc_passed c1 ≠ [] ∧ gc_passed c2b ≠ [] ∧
       gc_input c3 = list_to_set (gc_passed c2b) ∧
       outcome = Ok out ∧
       so_snapshot out = Some (so_results out, saved)).
Proof.
  intros calls outcome. subst calls outcome. unfold scan.
  destruct (run_scan_cases gate1_run gate2_run gate2b_run gate3_run
              average_true_range generate_trade_chart ticker_data universe)
    as [(c1 & Hcalls & Hst & Hp & Hout)
       |[(c1 & c2 & c2b & Hcalls & Hst & Hp1 & Hin & Hout)
        |(c1 & c2 & c2b & c3 & Hcalls & Hst & Hp1 & Hp2b & Hin & _ & Hout)]].
  - left. exists c1. repeat split; try assumption.
    destruct (run_scan_trace gate1_run gate2_run gate2b_run gate3_run
                average_true_range generate_trade_chart ticker_data universe)
      as (Hfirst & _).
    apply Hfirst. by rewrite Hcalls.
  - right. left. exists c1, c2, c2b. by repeat split.
  - right. right. exists c1, c2, c2b, c3. do 2 eexists.
    repeat split; try eassumption. reflexivity.
Qed.

(** X10. The list [run_scan] returns follows the order in which Gate 2B
    returned its survivors: the tickers of the candidates are the Gate 2B
    survivors whose post-processing did not raise, in Gate 2B's order and
    as often as Gate 2B returned them.  In particular they form a sublist of
    Gate 2B's survivors, and nothing is sorted by status or by strength. *)
Theorem run_scan_results_order ticker_data universe out :
  let calls := (scan ticker_data universe []).1 in
  (scan ticker_data universe []).2 = Ok out →
  (so_results out = [] ∧ so_snapshot out = None)
  ∨ ∃ c2b c3,
      calls !! 2%nat = Some c2b ∧ calls !! 3%nat = Some c3 ∧
      c_ticker <$> so_results out =
        filter
          (λ t, is_ok (process ticker_data universe (gc_passed c3)
                         (foldl (tag_coiling (gc_passed c3)) (gc_results c3)
                            (gc_passed c2b)) t))
          (gc_passed c2b) ∧
      c_ticker <$> so_results out `sublist_of` gc_passed c2b.
Proof.
  intros calls Hout. subst calls. unfold scan, process in *.
  destruct (run_scan_cases gate1_run gate2_run gate2b_run gate3_run
              average_true_range generate_trade_chart ticker_data universe)
    as [(c1 & Hcalls & Hst & Hp & Hout')
       |[(c1 & c2 & c2b & Hcalls & Hst & Hp1 & Hin & [[_ Hout']|[Hout' _]])
        |(c1 & c2 & c2b & c3 & Hcalls & Hst & Hp1 & Hp2b & Hin & _ & Hout')]];
    rewrite Hout' in Hout.
  - injection Hout as <-. by left.
  - injection Hout as <-. by left.
  - discriminate Hout.
  - injection Hout as <-. right. exists c2b, c3. rewrite Hcalls.
    split; [done|]. split; [done|]. cbn [so_results].
    rewrite collect_results_tickers. split; [done|]. apply sublist_filter.
Qed.

(** X11. The snapshot agrees with the candidates on the watchlist.  When a
    snapshot is saved, every Gate 2B survivor that is not a Gate 3 survivor
    has a record in the saved rationale and that record carries
    ["status"] = "COILING_SPRING", whether or not the ticker made it into the
    candidate list; and for every candidate emitted with status
    "COILING_SPRING" the reason, ADX, relative strength, slope and pattern
    of the candidate are those of its saved record (with the defaults
    "Consolidating", [None] and the empty string where the record lacks the
    key). *)
Theorem snapshot_agrees_on_watchlist ticker_data universe out results saved :
  let calls := (scan ticker_data universe []).1 in
  (scan ticker_data universe []).2 = Ok out →
  so_snapshot out = Some (results, saved) →
  (∀ c2b c3 t,
     calls !! 2%nat = Some c2b → calls !! 3%nat = Some c3 →
     t ∈ gc_passed c2b → t ∉ gc_passed c3 →
     ∃ r, saved !! t = Some r ∧ r !! "status" = Some (VStr "COILING_SPRING"))
  ∧ (∀ c, c ∈ so_results out → c_status c = "COILING_SPRING" →
       ∃ r, saved !! c_ticker c = Some r ∧
            r !! "status" = Some (VStr "COILING_SPRING") ∧
            c_reason c = default (VStr "Consolidating") (r !! "reason") ∧
            c_adx c = default VNone (r !! "adx") ∧
            c_mrs c = default VNone (r !! "mrs") ∧
            c_mrs_slope c = default VNone (r !! "mrs_slope") ∧
            c_pattern c = default (VStr "") (r !! "pattern")).
Proof.
  intros calls Hout Hsnap. subst calls. unfold scan in *.
  destruct (run_scan_cases gate1_run gate2_run gate2b_run gate3_run
              average_true_range generate_trade_chart ticker_data universe)
    as [(c1 & Hcalls & Hst & Hp & Hout')
       |[(c1 & c2 & c2b & Hcalls & Hst & Hp1 & Hin & [[_ Hout']|[Hout' _]])
        |(c1 & c2 & c2b & c3 & Hcalls & Hst & Hp1 & Hp2b & Hin & _ & Hout')]];
    rewrite Hout' in Hout.
  - injection Hout as <-. discriminate Hsnap.
  - injection Hout as <-. discriminate Hsnap.
  - discriminate Hout.
  - injection Hout as <-. cbn [so_snapshot so_results] in *.
    injection Hsnap as <- <-. rewrite Hcalls.
    set (g3 := foldl (tag_coiling (gc_passed c3)) (gc_results c3) (gc_passed c2b)).
    assert (∀ t, t ∈ gc_passed c2b → t ∉ gc_passed c3 →
              g3 !! t = Some (tagged_record (gc_results c3 !! t))) as Htag.
    { intros t Ht Hnf. subst g3. rewrite tag_loop_lookup.
      by rewrite bool_decide_eq_true_2, bool_decide_eq_false_2. }
    assert (∀ r, tagged_record r !! "status" = Some (VStr "COILING_SPRING"))
      as Hstatus.
    { intros [r|]; cbn; [by rewrite lookup_insert_eq|].
      rewrite lookup_insert_ne by done. by rewrite lookup_insert_eq. }
    split.
    + intros c2b' c3' t [= <-] [= <-] Ht Hnf. eexists.
      rewrite dict_merge_lookup, (Htag t Ht Hnf). split; [reflexivity|].
      apply Hstatus.
    + intros c Hc Hcoil.
      apply collect_results_elem in Hc as (t & Ht & Hp).
      apply post_process_fields in Hp
        as (Htk & Hs & (Hadx & Hmrs & Hslope & Hpat & Hreason) & _).
      rewrite Hs in Hcoil. case_bool_decide as Hf; [discriminate Hcoil|].
      rewrite Htk. eexists.
      rewrite dict_merge_lookup, (Htag t Ht Hf). split; [reflexivity|].
      rewrite (Htag t Ht Hf) in Hadx, Hmrs, Hslope, Hpat, Hreason.
      split; [apply Hstatus|]. by repeat split.
Qed.

(** X12. Where the descriptive fields of a candidate come from.  A
    candidate is emitted only for a ticker whose universe entry is a
    dictionary or is missing: its name, cap tier and sector are read from
    that dictionary and default to "Unknown", "SMALL" and "Diversified"
    (all three when the universe does not list the ticker).  A ticker whose
    universe entry is not a dictionary never yields a candidate: reading its
    fields raises inside the [try] block and the ticker is skipped. *)
Theorem candidate_metadata ticker_data universe out c :
  (scan ticker_data universe []).2 = Ok out → c ∈ so_results out →
  match dict_get universe (c_ticker c) with
  | None =>
      c_name c = VStr "Unknown" ∧ c_cap c = VStr "SMALL" ∧
      c_sector c = VStr "Diversified"
  | Some (MDict d) =>
      c_name c = default (VStr "Unknown") (d !! "name") ∧
      c_cap c = default (VStr "SMALL") (d !! "market_cap") ∧
      c_sector c = default (VStr "Diversified") (d !! "sector")
  | Some (MVal _) => False
  end.
Proof.
  intros Hout Hc.
  destruct (run_scan_emitted gate1_run gate2_run gate2b_run gate3_run
              average_true_range generate_trade_chart
              ticker_data universe out c Hout Hc)
    as (c2b & c3 & _ & _ & _ & Hp).
  apply post_process_fields in Hp as (_ & _ & _ & d & Hd & Hname & Hcap & Hsec).
  destruct (dict_get universe (c_ticker c)) as [[v|d']|]; cbn in Hd.
  - discriminate Hd.
  - by injection Hd as ->.
  - injection Hd as <-. by rewrite Hname, Hcap, Hsec.
Qed.

End ScanProperties.

Lemma scenario_tickers :
  (λ out, c_ticker <$> so_results out) <$> Scenario.scan_run.2
  = Ok ["CHARLIE"; "ALFA"; "BRAVO"].
Proof. vm_compute. reflexivity. Qed.

Lemma run_scan_results_order_witness :
  ∃ out c2b,
    Scenario.scan_run.2 = Ok out ∧
    Scenario.scan_run.1 !! 2%nat = Some c2b ∧
    c_ticker <$> so_results out = ["CHARLIE"; "ALFA"; "BRAVO"] ∧
    c_ticker <$> so_results out `sublist_of` gc_passed c2b.
Proof.
  destruct (res_fmap_inv _ _ _ scenario_tickers) as (out & Hout & Hview).
  destruct (run_scan_results_order
              Scenario.gate1_run Scenario.gate2_run Scenario.gate2b_run
              Scenario.gate3_run Scenario.average_true_range
              Scenario.generate_trade_chart Scenario.ticker_data
              Scenario.universe out Hout)
    as [[Hnil _]|(c2b & c3 & Hc2b & _ & _ & Hsub)].
  - rewrite Hnil in Hview. discriminate Hview.
  - exists out, c2b. split; [exact Hout|]. split; [exact Hc2b|].
    split; [exact Hview|exact Hsub].
Defined.

Lemma snapshot_agrees_on_watchlist_witness :
  ∃ out results saved c r,
    Scenario.scan_run.2 = Ok out ∧ so_snapshot out = Some (results, saved) ∧
    c ∈ so_results out ∧ c_ticker c = "BRAVO" ∧
    saved !! c_ticker c = Some r ∧
    r !! "status" = Some (VStr "COILING_SPRING") ∧
    c_reason c = default (VStr "Consolidating") (r !! "reason").
Proof.
  destruct (res_fmap_inv _ _ _ scenario_emitted) as (out & Hout & Hview).
  destruct (fmap_lookup_inv _ _ _ 2%nat _ Hview eq_refl)
    as (c & Hc & [= Ht Hs _]).
  destruct (res_fmap_inv _ _ _ scenario_saved_alfa) as (out' & Hout' & Hsaved).
  rewrite Hout in Hout'. injection Hout' as <-.
  apply bind_Some in Hsaved as ([results saved] & Hsnap & _).
  destruct (snapshot_agrees_on_watchlist
              Scenario.gate1_run Scenario.gate2_run Scenario.gate2b_run
              Scenario.gate3_run Scenario.average_true_range
              Scenario.generate_trade_chart Scenario.ticker_data
              Scenario.universe out results saved Hout Hsnap)
    as [_ Hcands].
  destruct (Hcands c Hc Hs) as (r & Hr & Hstatus & Hreason & _).
  exists out, results, saved, c, r.
  split; [exact Hout|]. split; [exact Hsnap|]. split; [exact Hc|].
  split; [exact Ht|]. split; [exact Hr|]. split; [exact Hstatus|exact Hreason].
Defined.

Lemma candidate_metadata_witness :
  ∃ out c,
    Scenario.scan_run.2 = Ok out ∧ c ∈ so_results out ∧ c_ticker c = "BRAVO" ∧
    c_name c = VStr "Bravo Ltd" ∧ c_cap c = VStr "SMALL" ∧
    c_sector c = VStr "Diversified".
Proof.
  destruct (res_fmap_inv _ _ _ scenario_emitted) as (out & Hout & Hview).
  destruct (fmap_lookup_inv _ _ _ 2%nat _ Hview eq_refl)
    as (c & Hc & [= Ht _ _]).
  pose proof (candidate_metadata
                Scenario.gate1_run Scenario.gate2_run Scenario.gate2b_run
                Scenario.gate3_run Scenario.average_true_range
                Scenario.generate_trade_chart Scenario.ticker_data
                Scenario.universe out c Hout Hc) as Hmeta.
  rewrite Ht in Hmeta.
  change (dict_get Scenario.universe "BRAVO")
    with (Some (MDict (Scenario.record [("name", VStr "Bravo Ltd")]))) in Hmeta.
  destruct Hmeta as (Hname & Hcap & Hsec).
  exists out, c. split; [exact Hout|]. split; [exact Hc|]. split; [exact Ht|].
  split; [exact Hname|]. split; [exact Hcap|exact Hsec].
Defined.

(** ** Merging the fetched sectors into the universe *)

Lemma dict_set_keys {V : Type} (d : list (string * V)) k v v0 :
  dict_get d k = Some v0 → (dict_set d k v).*1 = d.*1.
Proof.
  induction d as [|[k' v'] d IH]; cbn; [done|].
  destruct (String.eqb k' k); cbn; [done|]. intros H. by rewrite IH.
Qed.

Lemma sector_step_lookup universe t0 s0 universe' t :
  sector_step universe (t0, s0) = Ok universe' →
  universe'.*1 = universe.*1 ∧
  dict_get universe' t =
    match dict_get universe t with
    | Some (MDict d) =>
        Some (MDict (if String.eqb t0 t then <["sector" := s0]> d else d))
    | other => other
    end.
Proof.
  unfold sector_step.
  destruct (dict_get universe t0) as [[v|d0]|] eqn:H0; [done| |].
  - intros [= <-]. split; [by eapply dict_set_keys|].
    rewrite dict_get_set. destruct (String.eqb_spec t0 t) as [->|Hne].
    + by rewrite H0.
    + by destruct (dict_get universe t) as [[?|?]|].
  - intros [= <-]. split; [done|].
    destruct (String.eqb_spec t0 t) as [->|Hne].
    + by rewrite H0.
    + by destruct (dict_get universe t) as [[?|?]|].
Qed.

Local Arguments sector_step : simpl never.

Lemma dict_get_None_keys {V : Type} (d : list (string * V)) k :
  k ∉ d.*1 → dict_get d k = None.
Proof.
  induction d as [|[k' v'] d IH]; cbn; [done|]. intros Hk.
  destruct (String.eqb_spec k' k) as [->|Hne].
  - exfalso. apply Hk. by left.
  - apply IH. intros ?. apply Hk. by right.
Qed.

Lemma dict_get_elem {V : Type} (d : list (string * V)) k v :
  dict_get d k = Some v → (k, v) ∈ d.
Proof.
  induction d as [|[k' v'] d IH]; cbn; [done|].
  destruct (String.eqb_spec k' k) as [->|Hne].
  - intros [= ->]. by left.
  - intros H. right. by apply IH.
Qed.

Lemma merge_sectors_lookup ticker_sectors universe universe' t :
  NoDup ticker_sectors.*1 →
  merge_sectors ticker_sectors universe = Ok universe' →
  universe'.*1 = universe.*1 ∧
  dict_get universe' t =
    match dict_get universe t with
    | Some (MDict d) =>
        Some (MDict (match dict_get ticker_sectors t with
                     | Some sector => <["sector" := sector]> d
                     | None => d
                     end))
    | other => other
    end.
Proof.
  unfold merge_sectors. revert universe.
  induction ticker_sectors as [|[t0 s0] ts IH]; intros universe Hnd; cbn.
  - intros [= <-]. split; [done|].
    by destruct (dict_get universe t) as [[?|?]|].
  - apply NoDup_cons in Hnd as [Hfresh Hnd].
    destruct (sector_step universe (t0, s0)) as [u1|e] eqn:Hstep; cbn; [|done].
    intros Hrest. destruct (IH u1 Hnd Hrest) as [Hkeys Hget].
    destruct (sector_step_lookup _ _ _ _ t Hstep) as [Hkeys1 Hget1].
    split; [congruence|]. rewrite Hget, Hget1.
    destruct (dict_get universe t) as [[v|d]|]; [done| |done].
    destruct (String.eqb_spec t0 t) as [->|Hne]; [|done].
    by rewrite (dict_get_None_keys ts t Hfresh).
Qed.

Lemma merge_sectors_raise ticker_sectors universe e :
  merge_sectors ticker_sectors universe = Raise e →
  e = TypeError ∧
  ∃ t sector v, (t, sector) ∈ ticker_sectors ∧ dict_get universe t = Some (MVal v).
Proof.
  unfold merge_sectors. revert universe.
  induction ticker_sectors as [|[t0 s0] ts IH]; intros universe; cbn; [done|].
  destruct (sector_step universe (t0, s0)) as [u1|e1] eqn:Hstep; cbn.
  - intros Hrest. destruct (IH u1 Hrest) as (-> & t & s & v & Hin & Hv).
    split; [done|]. exists t, s, v. split; [by right|].
    destruct (sector_step_lookup _ _ _ _ t Hstep) as [_ Hget].
    rewrite Hv in Hget. by destruct (dict_get universe t) as [[?|?]|].
  - intros [= <-]. unfold sector_step in Hstep.
    destruct (dict_get universe t0) as [[v|d0]|] eqn:H0; try done.
    injection Hstep as <-. split; [done|]. exists t0, s0, v.
    split; [by left|done].
Qed.

Lemma merge_sectors_raises ticker_sectors universe t sector v :
  (t, sector) ∈ ticker_sectors → dict_get universe t = Some (MVal v) →
  merge_sectors ticker_sectors universe = Raise TypeError.
Proof.
  unfold merge_sectors. revert universe.
  induction ticker_sectors as [|[t0 s0] ts IH]; intros universe Hin Hv; cbn.
  - by apply elem_of_nil in Hin.
  - destruct (sector_step universe (t0, s0)) as [u1|e1] eqn:Hstep; cbn.
    + apply elem_of_cons in Hin as [[= <- <-]|Hin].
      * unfold sector_step in Hstep. by rewrite Hv in Hstep.
      * apply IH; [done|].
        destruct (sector_step_lookup _ _ _ _ t Hstep) as [_ Hget].
        by rewrite Hv in Hget.
    + unfold sector_step in Hstep.
      destruct (dict_get universe t0) as [[?|?]|]; first [done|congruence].
Qed.

(** X13. Merging the fetched sectors into the universe (the loop before
    the gates are run).  The loop raises only [TypeError], and it does so
    exactly when a ticker with a fetched sector has a universe entry that is
    not a dictionary.  Otherwise the universe keeps its tickers and their
    order, no ticker is added for a sector that was fetched for a ticker
    the universe does not list, and every dictionary entry is unchanged
    except that its ["sector"] is the fetched sector of its ticker, when
    there is one. *)
Theorem merge_sectors_effect ticker_sectors universe :
  NoDup ticker_sectors.*1 →
  match merge_sectors ticker_sectors universe with
  | Ok universe' =>
      universe'.*1 = universe.*1 ∧
      (∀ t sector, (t, sector) ∈ ticker_sectors →
         ∀ v, dict_get universe t ≠ Some (MVal v)) ∧
      ∀ t, dict_get universe' t =
           match dict_get universe t with
           | Some (MDict d) =>
               Some (MDict (match dict_get ticker_sectors t with
                            | Some sector => <["sector" := sector]> d
                            | None => d
                            end))
           | other => other
           end
  | Raise e =>
      e = TypeError ∧
      ∃ t sector v,
        (t, sector) ∈ ticker_sectors ∧ dict_get universe t = Some (MVal v)
  end.
Proof.
  intros Hnd.
  destruct (merge_sectors ticker_sectors universe) as [universe'|e] eqn:Hm.
  - split; [by destruct (merge_sectors_lookup _ _ _ "" Hnd Hm)|]. split.
    + intros t sector Hin v Hv.
      by rewrite (merge_sectors_raises _ _ _ _ _ Hin Hv) in Hm.
    + intros t. by destruct (merge_sectors_lookup _ _ _ t Hnd Hm).
  - by apply merge_sectors_raise.
Qed.

Lemma merge_sectors_effect_witness :
  NoDup [("ALFA", VStr "Energy"); ("ZULU", VStr "Metals")].*1 ∧
  ∃ universe',
    merge_sectors [("ALFA", VStr "Energy"); ("ZULU", VStr "Metals")]
      Scenario.universe = Ok universe' ∧
    universe'.*1 = Scenario.universe.*1 ∧
    dict_get universe' "ZULU" = None.
Proof.
  assert (NoDup [("ALFA", VStr "Energy"); ("ZULU", VStr "Metals")].*1) as Hnd.
  { refine (bool_decide_unpack _ _). vm_compute. exact I. }
  split; [exact Hnd|].
  pose proof (merge_sectors_effect
                [("ALFA", VStr "Energy"); ("ZULU", VStr "Metals")]
                Scenario.universe Hnd) as H.
  destruct (merge_sectors _ Scenario.universe) as [universe'|e].
  - destruct H as (Hkeys & _ & Hget). exists universe'.
    split; [reflexivity|]. split; [exact Hkeys|].
    rewrite (Hget "ZULU"). reflexivity.
  - destruct H as (_ & t & sector & v & Hin & Hv). exfalso.
    apply elem_of_cons in Hin as [Heq|Hin].
    + injection Heq as -> ->. discriminate Hv.
    + apply elem_of_cons in Hin as [Heq|Hin].
      * injection Heq as -> ->. discriminate Hv.
      * by apply elem_of_nil in Hin.
Defined.

Lemma res_bind_inv {A B : Type} (m : res A) (f : A → res B) b :
  m ≫= f = Ok b → ∃ a, m = Ok a ∧ f a = Ok b.
Proof. destruct m as [a|]; [|done]. intros H. by exists a. Qed.

Section EmittedSector.

Variable gate1_run : gmap string DataFrame → option metamap → gate_output.
Variable gate2_run : list string → gate_output.
Variable gate2b_run : list string → metamap → gate_output.
Variable gate3_run : gmap string DataFrame → gate_output.
Variable average_true_range : nat → DataFrame → res float64.
Variable generate_trade_chart :
  string → DataFrame → trade_meta → pyval → string → res pyval.

Let scan :=
  run_scan gate1_run gate2_run gate2b_run gate3_run
    average_true_range generate_trade_chart.

(** X14. The sector a candidate is emitted with, from the sector merge
    through the scan.  For a ticker that the universe lists (with a
    dictionary) the sector is the fetched one when a sector was fetched for
    the ticker, else the sector the universe already gave, else
    "Diversified".  For a ticker the universe does not list the sector is
    "Diversified" even when a sector was fetched for it. *)
Theorem emitted_sector ticker_sectors universe0 universe ticker_data out c :
  NoDup ticker_sectors.*1 →
  merge_sectors ticker_sectors universe0 = Ok universe →
  (scan ticker_data universe []).2 = Ok out → c ∈ so_results out →
  match dict_get universe0 (c_ticker c) with
  | Some (MDict d) =>
      c_sector c =
        match dict_get ticker_sectors (c_ticker c) with
        | Some sector => sector
        | None => default (VStr "Diversified") (d !! "sector")
        end
  | Some (MVal _) => False
  | None => c_sector c = VStr "Diversified"
  end.
Proof.
  intros Hnd Hmerge Hout Hc.
  destruct (run_scan_emitted gate1_run gate2_run gate2b_run gate3_run
              average_true_range generate_trade_chart
              ticker_data universe out c Hout Hc)
    as (c2b & c3 & _ & _ & _ & Hp).
  apply post_process_fields in Hp as (_ & _ & _ & d & Hd & _ & _ & Hsec).
  destruct (merge_sectors_lookup _ _ _ (c_ticker c) Hnd Hmerge) as [_ Hget].
  rewrite Hget in Hd.
  destruct (dict_get universe0 (c_ticker c)) as [[v|d0]|]; cbn in Hd.
  - discriminate Hd.
  - injection Hd as <-. rewrite Hsec.
    destruct (dict_get ticker_sectors (c_ticker c)) as [sector|]; [|done].
    by rewrite lookup_insert_eq.
  - injection Hd as <-. by rewrite Hsec.
Qed.

End EmittedSector.

Lemma sector_scenario_emitted :
  SectorScenario.emitted_sectors =
  Ok [("CHARLIE", VStr "Diversified"); ("ALFA", VStr "Energy");
      ("BRAVO", VStr "Diversified")].
Proof. vm_compute. reflexivity. Qed.

Lemma emitted_sector_witness :
  NoDup SectorScenario.ticker_sectors.*1 ∧
  ∃ universe out c,
    merge_sectors SectorScenario.ticker_sectors Scenario.universe = Ok universe ∧
    (SectorScenario.scan_run universe).2 = Ok out ∧
    c ∈ so_results out ∧ c_ticker c = "ALFA" ∧ c_sector c = VStr "Energy".
Proof.
  assert (NoDup SectorScenario.ticker_sectors.*1) as Hnd.
  { refine (bool_decide_unpack _ _). vm_compute. exact I. }
  split; [exact Hnd|].
  destruct (res_bind_inv _ _ _ sector_scenario_emitted)
    as (universe & Hmerge & Hscan).
  destruct (res_fmap_inv _ _ _ Hscan) as (out & Hout & Hview).
  destruct (fmap_lookup_inv _ _ _ 1%nat _ Hview eq_refl)
    as (c & Hc & [= Ht _]).
  pose proof (emitted_sector
                Scenario.gate1_run Scenario.gate2_run Scenario.gate2b_run
                Scenario.gate3_run Scenario.average_true_range
                Scenario.generate_trade_chart
                SectorScenario.ticker_sectors Scenario.universe universe
                Scenario.ticker_data out c Hnd Hmerge Hout Hc) as Hsector.
  rewrite Ht in Hsector.
  change (dict_get Scenario.universe "ALFA")
    with (Some (MDict (Scenario.record [("name", VStr "Alfa Ltd");
                                        ("market_cap", VStr "LARGE")])))
    in Hsector.
  change (dict_get SectorScenario.ticker_sectors "ALFA")
    with (Some (VStr "Energy")) in Hsector.
  exists universe, out, c.
  split; [exact Hmerge|]. split; [exact Hout|]. split; [exact Hc|].
  split; [exact Ht|exact Hsector].
Defined.

(** ** The summary's top picks *)

Local Arguments group_step : simpl never.

Lemma group_step_cases universe_map g ticker :
  let cap := summary_cap universe_map ticker in
  group_step universe_map g ticker =
  if is_tier "LARGE" cap
  then Ok (CapGroups (cg_large g ++ [ticker]) (cg_mid g) (cg_small g))
  else if is_tier "MID" cap
  then Ok (CapGroups (cg_large g) (cg_mid g ++ [ticker]) (cg_small g))
  else if is_tier "SMALL" cap
  then Ok (CapGroups (cg_large g) (cg_mid g) (cg_small g ++ [ticker]))
  else Raise KeyError.
Proof.
  intros cap. subst cap. unfold group_step.
  by destruct (summary_cap universe_map ticker) as [|b|q|s].
Qed.

Lemma is_tier_exclusive v t1 t2 :
  t1 ≠ t2 → is_tier t1 v = true → is_tier t2 v = false.
Proof.
  destruct v as [|b|q|s]; cbn; try done.
  intros Hne ->%String.eqb_eq. by apply String.eqb_neq.
Qed.

(** The grouping loop in closed form. *)
Lemma group_loop universe_map g candidates :
  let cap := summary_cap universe_map in
  for_each (group_step universe_map) g candidates =
  if forallb (λ t, known_tier (cap t)) candidates
  then Ok (CapGroups
             (cg_large g ++ filter (λ t, is_tier "LARGE" (cap t)) candidates)
             (cg_mid g ++ filter (λ t, is_tier "MID" (cap t)) candidates)
             (cg_small g ++ filter (λ t, is_tier "SMALL" (cap t)) candidates))
  else Raise KeyError.
Proof.
  intros cap. revert g.
  induction candidates as [|t l IH]; intros g; cbn [for_each forallb].
  - rewrite !filter_nil, !app_nil_r. by destruct g.
  - rewrite group_step_cases. fold cap. unfold known_tier.
    destruct (is_tier "LARGE" (cap t)) eqn:HL.
    { pose proof (is_tier_exclusive _ "LARGE" "MID" ltac:(done) HL) as HM.
      pose proof (is_tier_exclusive _ "LARGE" "SMALL" ltac:(done) HL) as HS.
      cbn. rewrite IH. cbn. rewrite ?HL, ?HM, ?HS. cbn. by rewrite <- app_assoc. }
    destruct (is_tier "MID" (cap t)) eqn:HM.
    { pose proof (is_tier_exclusive _ "MID" "SMALL" ltac:(done) HM) as HS.
      cbn. rewrite IH. cbn. rewrite ?HL, ?HM, ?HS. cbn. by rewrite <- app_assoc. }
    destruct (is_tier "SMALL" (cap t)) eqn:HS; [|done].
    cbn. rewrite IH. cbn. rewrite ?HL, ?HM, ?HS. cbn. by rewrite <- app_assoc.
Qed.

Lemma tier_lines_take cap_type group :
  tier_lines cap_type group = pick_line cap_type <$> take 3 group.
Proof. by destruct group. Qed.

(** X15. The "top picks" block of the summary.  With no candidate a single
    line says so.  Otherwise the candidates are grouped by the cap tier of
    their universe entry, a ticker that the universe does not list (or lists
    with something that is not a dictionary, or without a tier) counting as
    SMALL.  If some candidate's tier is anything but "LARGE", "MID" or
    "SMALL" the block raises [KeyError] after the heading and prints no
    pick.  If not, it prints below the heading at most three picks per tier:
    for LARGE, then MID, then SMALL, the first three candidates of the tier
    in the order of the candidate list; and it closes with a rule. *)
Theorem print_top_picks_lines candidates universe_map :
  candidates ≠ [] →
  let cap := summary_cap universe_map in
  let picks tier :=
    pick_line tier <$> take 3 (filter (λ t, is_tier tier (cap t)) candidates) in
  print_top_picks candidates universe_map =
  if forallb (λ t, known_tier (cap t)) candidates
  then ("TOP PICKS BY CATEGORY (Rationale IDs)" ::
        picks "LARGE" ++ picks "MID" ++ picks "SMALL" ++ [rule "-"%char 80],
        Ok ())
  else (["TOP PICKS BY CATEGORY (Rationale IDs)"], Raise KeyError).
Proof.
  intros Hne cap picks. unfold print_top_picks.
  destruct candidates as [|t l]; [done|].
  rewrite group_loop. fold cap.
  destruct (forallb _ (t :: l)); [|done]. cbn [cg_large cg_mid cg_small].
  by rewrite !tier_lines_take, !app_nil_l.
Qed.

Lemma print_top_picks_lines_witness :
  ["RELIANCE.NS"; "ZULU.NS"; "CHARLIE"] ≠ [] ∧
  print_top_picks ["RELIANCE.NS"; "ZULU.NS"; "CHARLIE"]
    (("RELIANCE.NS", MDict {["market_cap" := VStr "LARGE"]}) :: Scenario.universe)
  = (["TOP PICKS BY CATEGORY (Rationale IDs)";
      "LARGE    | Pick: RELIANCE.NS  | Rationale ID: RAT-RELIANCE-LARGE-2026";
      "MID      | Pick: CHARLIE      | Rationale ID: RAT-CHARLIE-MID-2026";
      "SMALL    | Pick: ZULU.NS      | Rationale ID: RAT-ZULU-SMALL-2026";
      rule "-"%char 80], Ok ()).
Proof.
  split; [discriminate|].
  rewrite print_top_picks_lines by discriminate. vm_compute. reflexivity.
Defined.

(** ** What the trail holds *)

Lemma sourced_empty : sourced [] ∅.
Proof.
  split.
  - intros t. rewrite lookup_empty. split.
    + by intros [? ?].
    + by intros (c & ?%elem_of_nil & _).
  - intros t key e (slot & Hslot & _). by rewrite lookup_empty in Hslot.
Qed.

Lemma sourced_log calls rationale st input survivors results :
  sourced calls rationale →
  sourced (calls ++ [GateCall st input survivors results])
    (_log_gate_results rationale (gate_name st) results).
Proof.
  intros [Hslots Hentries]. split.
  - intros t. rewrite log_gate_results_lookup.
    destruct (results !! t) as [r|] eqn:Hr.
    + split; [|by eexists]. intros _. eexists. split.
      * apply elem_of_app. right. by left.
      * cbn. by rewrite Hr.
    + rewrite Hslots. split.
      * intros (c & Hc & Hsome). exists c. split; [|done].
        apply elem_of_app. by left.
      * intros (c & [Hc|Hc]%elem_of_app & Hsome); [by exists c|].
        apply elem_of_cons in Hc as [->|Hc]; [|by apply elem_of_nil in Hc].
        cbn in Hsome. rewrite Hr in Hsome. by destruct Hsome.
  - intros t key e (slot & Hslot & He).
    rewrite log_gate_results_lookup in Hslot.
    assert (has_entry rationale t key e →
            (key = "status" ∧ e = EStatus "COILING_SPRING") ∨
            ∃ c r, c ∈ calls ++ [GateCall st input survivors results] ∧
                   key = gate_name (gc_stage c) ∧
                   gc_results c !! t = Some r ∧ e = EResult r) as Hold.
    { intros Hin. destruct (Hentries t key e Hin) as [?|(c & r & Hc & ?)];
        [by left|]. right. exists c, r. split; [|done].
      apply elem_of_app. by left. }
    destruct (results !! t) as [r|] eqn:Hr.
    + injection Hslot as <-.
      destruct (decide (key = gate_name st)) as [->|Hne].
      * rewrite lookup_insert_eq in He. injection He as <-. right.
        exists (GateCall st input survivors results), r.
        split; [apply elem_of_app; right; by left|]. cbn [gc_stage gc_results]. by repeat split.
      * rewrite lookup_insert_ne in He by done. apply Hold.
        destruct (rationale !! t) as [slot|] eqn:Hs; cbn in He.
        -- by exists slot.
        -- by rewrite lookup_empty in He.
    + apply Hold. by exists slot.
Qed.

Lemma sourced_loop calls passed_g3 r1 r2 r2b r3 mcm tickers rationale cs rationale' :
  sourced calls rationale →
  for_each (coiling_body passed_g3 r1 r2 r2b r3 mcm) ([], rationale) tickers
    = Ok (cs, rationale') →
  sourced calls rationale'.
Proof.
  intros [Hslots Hentries] Hloop.
  pose proof (λ t, coiling_loop_trail _ _ _ _ _ _ _ _ _ _ _ t Hloop) as Htrail.
  split.
  - intros t. rewrite Htrail, <- Hslots.
    case_bool_decide; [|done]. by rewrite fmap_is_Some.
  - intros t key e (slot & Hslot & He). rewrite Htrail in Hslot.
    case_bool_decide; [|apply Hentries; by exists slot].
    destruct (rationale !! t) as [slot0|] eqn:Hslot0; [|done].
    injection Hslot as <-.
    destruct (decide (key = "status")) as [->|Hne].
    + rewrite lookup_insert_eq in He. injection He as <-. by left.
    + rewrite lookup_insert_ne in He by done. apply Hentries. by exists slot0.
Qed.

Section TrailSources.

Variable gate1_run : gmap string DataFrame → option metamap → gate_output.
Variable gate2_run : list string → gate_output.
Variable gate2b_run : list string → metamap → gate_output.
Variable gate3_run : gmap string DataFrame → gate_output.
Variable gate4_run : gmap string DataFrame → gate_output.

Let pipeline := run_pipeline gate1_run gate2_run gate2b_run gate3_run gate4_run.

Local Arguments select_data : simpl never.
Local Arguments for_each : simpl never.
Local Arguments list_to_set : simpl never.
Local Arguments market_cap_map : simpl never.
Local Arguments app : simpl never.

Local Ltac sources_leaf :=
  intros Hout; first
    [ discriminate Hout
    | injection Hout as <- <- <-;
      repeat match goal with
             | |- sourced (_ ++ _) _ => apply sourced_log
             end;
      apply sourced_empty ].

Lemma run_pipeline_sources ticker_data sector_map cands rat springs :
  (pipeline ticker_data sector_map []).2 = Ok (cands, rat, springs) →
  sourced (pipeline ticker_data sector_map []).1 rat.
Proof.
  subst pipeline. unfold run_pipeline.
  unfold mbind, M_bind, mret, M_ret, call_on_data, call_on_list, lift. cbn.
  destruct (gate1_run ticker_data sector_map) as [p1 r1] eqn:E1. cbn.
  destruct p1 as [|t1 p1]; cbn; [solve [sources_leaf]|].
  destruct (select_data ticker_data (t1 :: p1)) as [d1|e1] eqn:S1; cbn;
    [|solve [sources_leaf]].
  destruct (gate2_run (t1 :: p1)) as [p2 r2] eqn:E2. cbn.
  destruct p2 as [|t2 p2]; cbn; [solve [sources_leaf]|].
  destruct (gate2b_run (t2 :: p2) _) as [p2b r2b] eqn:E2b. cbn.
  destruct p2b as [|t2b p2b]; cbn; [solve [sources_leaf]|].
  destruct (select_data ticker_data (t2b :: p2b)) as [d2b|e2b] eqn:S2b; cbn;
    [|solve [sources_leaf]].
  destruct (gate3_run d2b) as [p3 r3] eqn:E3. cbn.
  destruct (for_each _ _ (t2b :: p2b)) as [[cs rat3]|e] eqn:Hloop; cbn;
    [|discriminate].
  assert (sourced
            (((([] ++ [GateCall Gate1 (dom ticker_data) (t1 :: p1) r1])
                 ++ [GateCall Gate2 (list_to_set (t1 :: p1)) (t2 :: p2) r2])
                ++ [GateCall Gate2B (list_to_set (t2 :: p2)) (t2b :: p2b) r2b])
               ++ [GateCall Gate3 (dom d2b) p3 r3]) rat3) as Hsrc.
  { refine (sourced_loop _ _ _ _ _ _ _ _ _ _ _ _ Hloop).
    repeat match goal with
           | |- sourced (_ ++ _) _ => apply sourced_log
           end.
    apply sourced_empty. }
  destruct p3 as [|t3 p3]; cbn.
  { intros [= <- <- <-]. exact Hsrc. }
  destruct (select_data ticker_data (t3 :: p3)) as [d3|e3] eqn:S3; cbn;
    [|discriminate].
  destruct (gate4_run d3) as [p4 r4] eqn:E4. cbn.
  intros [= <- <- <-]. by apply sourced_log.
Qed.

(** X16. The trail [run_pipeline] returns holds nothing of its own making.
    A ticker has a slot in it exactly when one of the gates that were called
    returned a record for it, so an instrument no gate evaluated does not
    appear; and every entry of a slot is either a record that one of those
    gate calls returned for the ticker, filed under that gate's name, or the
    tag ["status"] = "COILING_SPRING". *)
Theorem trail_holds_only_gate_records ticker_data sector_map cands rat springs :
  let calls := (pipeline ticker_data sector_map []).1 in
  (pipeline ticker_data sector_map []).2 = Ok (cands, rat, springs) →
  (∀ t, is_Some (rat !! t) ↔ ∃ c, c ∈ calls ∧ is_Some (gc_results c !! t)) ∧
  (∀ t key e, has_entry rat t key e →
     (key = "status" ∧ e = EStatus "COILING_SPRING") ∨
     ∃ c r, c ∈ calls ∧ key = gate_name (gc_stage c) ∧
            gc_results c !! t = Some r ∧ e = EResult r).
Proof. intros calls Hout. exact (run_pipeline_sources _ _ _ _ _ Hout). Qed.

End TrailSources.

Lemma trail_holds_only_gate_records_witness :
  ∃ cands rat springs,
    Scenario.pipeline_run.2 = Ok (cands, rat, springs) ∧
    (is_Some (rat !! "ZULU") ↔
     ∃ c, c ∈ Scenario.pipeline_run.1 ∧ is_Some (gc_results c !! "ZULU")).
Proof.
  destruct (res_fmap_inv _ _ _ scenario_watchlist)
    as ([[cands rat] springs] & Hout & _).
  exists cands, rat, springs. split; [exact Hout|].
  destruct (trail_holds_only_gate_records
              Scenario.gate1_run Scenario.gate2_run Scenario.gate2b_run
              Scenario.gate3_run Scenario.gate4_run
              Scenario.ticker_data (Some Scenario.universe) cands rat springs Hout)
    as [Hslots _].
  exact (Hslots "ZULU").
Defined.
